(** * coverage/html.py: incremental HTML report cache and package tree

    A shallow embedding of the stateful parts of [coverage/html.py]:
    the [IncrementalChecker] (status.json cache), the per-line
    classification of [HtmlDataGeneration.data_for_file], and the
    package-tree passes of [HtmlReporter].

    Python objects that hold JSON (the status record, the per-file cache
    entries) are kept as dynamically typed values [pyval]; an exception is
    an explicit [Raise] result.  Collaborators that live outside this file
    ([Hasher], [add_data_to_hash], [coverage.__version__], [Numbers]) are
    parameters or small models, each marked where it is introduced. *)

From Stdlib Require Import ZArith String List Ascii Lia Sorted.
From stdpp Require Import gmap strings list fin_maps pretty.

Set Warnings "-register-all".

Local Open Scope string_scope.
Local Open Scope Z_scope.

(** ** Python exceptions and fallible computations *)

Inductive exn : Type :=
| OSError
| ValueError
| KeyError (key : string)
| TypeError
| AttributeError
| RecursionError
| CoverageException (msg : string).

Inductive result (A : Type) : Type :=
| Ok (a : A)
| Raise (e : exn).
Arguments Ok {A} a.
Arguments Raise {A} e.

#[global] Instance result_ret : MRet result := fun _ a => Ok a.
#[global] Instance result_bind : MBind result := fun _ _ f m =>
  match m with
  | Ok a => f a
  | Raise e => Raise e
  end.

Definition raises {A} (r : result A) : Prop := exists e, r = Raise e.

(** ** Numbers *)

(** Modelled from the spec: [coverage.results.Numbers] is not part of this
    slice.  The spec describes it as an immutable tuple of coverage counters
    (statements, missing, branches, partial branches) whose addition is
    counter-wise; it is serialized as a fixed-order numeric sequence. *)
Record Numbers : Type := mkNumbers {
  n_statements : Z;
  n_missing : Z;
  n_branches : Z;
  n_partial_branches : Z;
}.

(** [Numbers()] *)
Definition Numbers0 : Numbers := mkNumbers 0 0 0 0.

(** [Numbers.__add__] *)
Definition Numbers_add (a b : Numbers) : Numbers :=
  mkNumbers (n_statements a + n_statements b)
            (n_missing a + n_missing b)
            (n_branches a + n_branches b)
            (n_partial_branches a + n_partial_branches b).

(** Python's [sum(nums)] over a list of [Numbers]: [0 + x] is [x]
    ([__radd__]), then [__add__] from left to right.  On the empty list
    Python yields the integer [0]; every call site in html.py guards
    against it ([len(children) > 0], [if not self.all_files_nums]), and
    the empty case is represented by [Numbers0] here. *)
Definition py_sum (nums : list Numbers) : Numbers :=
  match nums with
  | [] => Numbers0
  | x :: rest => fold_left Numbers_add rest x
  end.

#[global] Instance Numbers_eq_dec : EqDecision Numbers.
Proof. solve_decision. Defined.

(** ** Dynamically typed values *)

(** A Python float as json.load produces it: NaN, an infinity, or the
    finite value [m * 2^e]. *)
Inductive pyfloat : Type :=
| FNan
| FInf (negative : bool)
| FFinite (m e : Z).

(** The values that the status record can hold in memory: what json.load
    returns, plus [Numbers] objects (put there by [read] and by
    [set_index_info]).  A dict is kept in insertion order. *)
Inductive pyval : Type :=
| VNone
| VBool (b : bool)
| VInt (z : Z)
| VFloat (f : pyfloat)
| VStr (s : string)
| VList (l : list pyval)
| VDict (d : list (string * pyval))
| VNumbers (n : Numbers).

Definition pydict : Type := list (string * pyval).

(** [d.get(k)] on the entries of a dict. *)
Fixpoint alist_get {A} (k : string) (d : list (string * A)) : option A :=
  match d with
  | [] => None
  | (k', v) :: rest => if String.eqb k' k then Some v else alist_get k rest
  end.

(** [d[k] = v]: an existing key keeps its position, a new key goes last. *)
Fixpoint alist_set {A} (k : string) (v : A) (d : list (string * A))
  : list (string * A) :=
  match d with
  | [] => [(k, v)]
  | (k', v') :: rest =>
      if String.eqb k' k then (k', v) :: rest
      else (k', v') :: alist_set k v rest
  end.

(** [v[k]] for a string key. *)
Definition py_getitem (v : pyval) (k : string) : result pyval :=
  match v with
  | VDict d =>
      match alist_get k d with
      | Some x => Ok x
      | None => Raise (KeyError k)
      end
  | _ => Raise TypeError
  end.

(** [v.get(k, default)] *)
Definition py_get (v : pyval) (k : string) (default : pyval) : result pyval :=
  match v with
  | VDict d =>
      match alist_get k d with
      | Some x => Ok x
      | None => Ok default
      end
  | _ => Raise AttributeError
  end.

(** [v[k] = x] for a string key; the updated object is returned. *)
Definition py_setitem (v : pyval) (k : string) (x : pyval) : result pyval :=
  match v with
  | VDict d => Ok (VDict (alist_set k x d))
  | _ => Raise TypeError
  end.

(** [v.items()] *)
Definition py_items (v : pyval) : result pydict :=
  match v with
  | VDict d => Ok d
  | _ => Raise AttributeError
  end.

Definition pyfloat_eq_int (f : pyfloat) (n : Z) : bool :=
  match f with
  | FFinite m e =>
      if 0 <=? e then m * 2 ^ e =? n else m =? n * 2 ^ (- e)
  | _ => false
  end.

(** [v == n] for an integer constant [n]. *)
Definition py_eq_int (v : pyval) (n : Z) : bool :=
  match v with
  | VInt z => z =? n
  | VBool b => (if b then 1 else 0) =? n
  | VFloat f => pyfloat_eq_int f n
  | _ => false
  end.

(** [v == s] for a string [s]. *)
Definition py_eq_str (v : pyval) (s : string) : bool :=
  match v with
  | VStr t => String.eqb t s
  | _ => false
  end.

(** What json.dump accepts: everything but a [Numbers] object. *)
Fixpoint json_serializable (v : pyval) : bool :=
  match v with
  | VNumbers _ => false
  | VList l => forallb json_serializable l
  | VDict d => forallb (fun kv => json_serializable (snd kv)) d
  | _ => true
  end.

(** [Numbers.init_args()]: the counters in their fixed order. *)
Definition init_args (n : Numbers) : pyval :=
  VList [VInt (n_statements n); VInt (n_missing n);
         VInt (n_branches n); VInt (n_partial_branches n)].

(** [v.init_args()] on an arbitrary object: only [Numbers] has the method. *)
Definition py_init_args (v : pyval) : result pyval :=
  match v with
  | VNumbers n => Ok (init_args n)
  | _ => Raise AttributeError
  end.

(** Modelled from the spec: the constructor call of [Numbers] on an
    unpacked argument sequence.  The
    counters are positional with default [0]; more arguments than counters
    is a TypeError.  The counters are numeric, so an argument that is not an
    integer, or an [args] that is not a list, is rejected with TypeError
    as well. *)
Definition Numbers_of_args (args : pyval) : result Numbers :=
  match args with
  | VList [] => Ok Numbers0
  | VList [VInt a] => Ok (mkNumbers a 0 0 0)
  | VList [VInt a; VInt b] => Ok (mkNumbers a b 0 0)
  | VList [VInt a; VInt b; VInt c] => Ok (mkNumbers a b c 0)
  | VList [VInt a; VInt b; VInt c; VInt d] => Ok (mkNumbers a b c d)
  | _ => Raise TypeError
  end.

(** ** Collaborators outside this file *)

(** [coverage.__version__], [coverage.misc.Hasher],
    [coverage.data.add_data_to_hash] and [coverage.files.flat_rootname] are
    imported by html.py; they are taken as parameters.  A [Hasher] is
    created empty, fed with [update] and read with [hexdigest]. *)
Class Collaborators : Type := {
  coverage_version : string;
  Hasher : Type;
  hashable : Type;
  Hasher_new : Hasher;
  update : Hasher -> hashable -> Hasher;
  hexdigest : Hasher -> string;
  encode_utf8 : string -> hashable;
  CoverageData : Type;
  add_data_to_hash : CoverageData -> string -> Hasher -> Hasher;
  flat_rootname : string -> string;
}.

(** The part of a [FileReporter] that html.py reads. *)
Record FileReporter : Type := {
  fr_filename : string;
  fr_relative_filename : string;
  fr_source : string;
  fr_source_token_lines : list (list (string * string));
}.

(** ** The status file *)

(** What [open] followed by [json.load] does with [status.json], by
    outcome: [Unreadable] is a file that cannot be opened or read
    ([OSError]); [NotJson] is text that the decoder rejects ([ValueError],
    which covers [JSONDecodeError] and [UnicodeDecodeError]); [TooDeep] is
    a document nested beyond what the decoder's recursion allows, on which
    [json.load] raises [RecursionError]; [Json v] is a document for which
    [json.load] returns [v].  A missing file is [None]. *)
Inductive file_content : Type :=
| Unreadable
| NotJson
| TooDeep
| Json (v : pyval).

(** [with open(status_file) as fstatus: json.load(fstatus)] *)
Definition json_load (f : option file_content) : result pyval :=
  match f with
  | None => Raise OSError
  | Some Unreadable => Raise OSError
  | Some NotJson => Raise ValueError
  | Some TooDeep => Raise RecursionError
  | Some (Json v) => Ok v
  end.

(** Apply [f] to the values of a dict's items in order, stopping at the
    first exception. *)
Fixpoint mapM_values (f : pyval -> result pyval) (d : pydict) : result pydict :=
  match d with
  | [] => Ok []
  | (k, v) :: rest =>
      v' ← f v;
      rest' ← mapM_values f rest;
      Ok ((k, v') :: rest')
  end.

(** ** IncrementalChecker *)

Module IncrementalChecker.
Section WithCollaborators.
Context `{C : Collaborators}.

Definition STATUS_FORMAT : Z := 2.

(** [self.globals] and [self.files]; [self.directory] names the output
    directory, whose [status.json] is passed to [read] and returned by
    [write]. *)
Record state : Type := mkState {
  globals : pyval;
  files : gmap string pyval;
}.

Definition reset (c : state) : state :=
  {| globals := VStr ""; files := ∅ |}.

(** [__init__] *)
Definition init : state := reset {| globals := VNone; files := ∅ |}.

(** Loop body of [read]:
    the counters stored under [fileinfo['index']['nums']] are replaced
    by the [Numbers] object built from them. *)
Definition read_fileinfo (fileinfo : pyval) : result pyval :=
  index ← py_getitem fileinfo "index";
  args ← py_getitem index "nums";
  n ← Numbers_of_args args;
  index' ← py_setitem index "nums" (VNumbers n);
  py_setitem fileinfo "index" index'.

Fixpoint read_files (items : pydict) (acc : gmap string pyval)
  : result (gmap string pyval) :=
  match items with
  | [] => Ok acc
  | (filename, fileinfo) :: rest =>
      fileinfo' ← read_fileinfo fileinfo;
      read_files rest (<[filename := fileinfo']> acc)
  end.

Definition read (c : state) (status_file : option file_content) : result state :=
  match json_load status_file with
  | Raise OSError | Raise ValueError => Ok (reset c)
  | Raise e => Raise e
  | Ok status =>
      format ← py_getitem status "format";
      usable ←
        (if negb (py_eq_int format STATUS_FORMAT) then Ok false
         else
           version ← py_getitem status "version";
           if negb (py_eq_str version coverage_version) then Ok false
           else Ok true);
      if (usable : bool) then
        status_files ← py_getitem status "files";
        items ← py_items status_files;
        files' ← read_files items ∅;
        globals' ← py_getitem status "globals";
        Ok {| globals := globals'; files := files' |}
      else Ok (reset c)
  end.

(** Loop body of [write]:
    [fileinfo['index']['nums'] = fileinfo['index']['nums'].init_args()] *)
Definition write_fileinfo (fileinfo : pyval) : result pyval :=
  index ← py_getitem fileinfo "index";
  nums ← py_getitem index "nums";
  args ← py_init_args nums;
  index' ← py_setitem index "nums" args;
  py_setitem fileinfo "index" index'.

(** [write] returns the checker (its entries are updated in place by the
    loop) and the new content of [status.json].  What json.dump writes
    is what json.load reads back. *)
Definition write (c : state) : result (state * file_content) :=
  files' ← mapM_values write_fileinfo (map_to_list (files c));
  let status :=
    VDict [("format", VInt STATUS_FORMAT);
           ("version", VStr coverage_version);
           ("globals", globals c);
           ("files", VDict files')] in
  if json_serializable status
  then Ok ({| globals := globals c; files := list_to_map files' |}, Json status)
  else Raise TypeError.

Definition check_global_data (c : state) (data : list hashable) : state :=
  let m := fold_left update data Hasher_new in
  let these_globals := hexdigest m in
  if negb (py_eq_str (globals c) these_globals)
  then {| globals := VStr these_globals; files := files (reset c) |}
  else c.

(** [self.files.get(fname, {})] *)
Definition files_get (c : state) (fname : string) : pyval :=
  default (VDict []) (files c !! fname).

Definition file_hash (c : state) (fname : string) : result pyval :=
  py_get (files_get c fname) "hash" (VStr "").

Definition set_file_hash (c : state) (fname : string) (val : string) : result state :=
  fileinfo ← py_setitem (files_get c fname) "hash" (VStr val);
  Ok {| globals := globals c; files := <[fname := fileinfo]> (files c) |}.

Definition index_info (c : state) (fname : string) : result pyval :=
  py_get (files_get c fname) "index" (VDict []).

Definition set_index_info (c : state) (fname : string) (info : pyval) : result state :=
  fileinfo ← py_setitem (files_get c fname) "index" info;
  Ok {| globals := globals c; files := <[fname := fileinfo]> (files c) |}.

(** The digest computed at the head of [can_skip_file]. *)
Definition this_hash (data : CoverageData) (fr : FileReporter) : string :=
  let m := Hasher_new in
  let m := update m (encode_utf8 (fr_source fr)) in
  let m := add_data_to_hash data (fr_filename fr) m in
  hexdigest m.

Definition can_skip_file (c : state) (data : CoverageData) (fr : FileReporter)
    (rootname : string) : result (bool * state) :=
  let this_hash := this_hash data fr in
  that_hash ← file_hash c rootname;
  if py_eq_str that_hash this_hash then
    Ok (true, c)
  else
    c' ← set_file_hash c rootname this_hash;
    Ok (false, c').

End WithCollaborators.
End IncrementalChecker.

(** ** The package tree *)

(** [os.path.sep] (POSIX). *)
Definition path_sep : ascii := "/"%char.

(** [s.split(sep)] for a one-character separator: never empty. *)
Fixpoint split (sep : ascii) (s : string) : list string :=
  match s with
  | EmptyString => [""]
  | String c rest =>
      if Ascii.eqb c sep then "" :: split sep rest
      else match split sep rest with
           | x :: xs => String c x :: xs
           | [] => [String c ""]
           end
  end.

(** [os.path.sep.join((a, b))] *)
Definition sep_join (a b : string) : string :=
  a +:+ String path_sep "" +:+ b.

(** A node of [self.package_tree]: the dict built by [add_module_to_tree]
    and [_new_branch].  [children] is a dict from path segment to node, in
    insertion order. *)
Inductive tree_info : Type := TreeInfo {
  nums : Numbers;
  html_filename : string;
  relative_filename : string;
  is_package : bool;
  children : list (string * tree_info);
}.

(** The dict saved for the index: keys [nums], [html_filename] and
    [relative_filename]. *)
Record IndexInfo : Type := mkIndexInfo {
  info_nums : Numbers;
  info_html_filename : string;
  info_relative_filename : string;
}.

(** [len(tree_info['children']) > 0], also the truth value of the dict. *)
Definition has_children (t : tree_info) : bool :=
  match children t with
  | [] => false
  | _ :: _ => true
  end.

Definition set_children (t : tree_info) (cs : list (string * tree_info)) : tree_info :=
  {| nums := nums t; html_filename := html_filename t;
     relative_filename := relative_filename t; is_package := is_package t;
     children := cs |}.

Definition set_relative_filename (t : tree_info) (r : string) : tree_info :=
  {| nums := nums t; html_filename := html_filename t;
     relative_filename := r; is_package := is_package t;
     children := children t |}.

Definition set_nums (t : tree_info) (n : Numbers) : tree_info :=
  {| nums := n; html_filename := html_filename t;
     relative_filename := relative_filename t; is_package := is_package t;
     children := children t |}.

Module Tree.

Definition _new_branch (rel_filename : string) : tree_info :=
  {| nums := Numbers0; html_filename := "";
     relative_filename := rel_filename; is_package := true;
     children := [] |}.

(** The node is updated in place in Python; here the updated [parent] is
    returned.  [tree_path] is never empty at a call (the callers test
    [tree_depth > 1] before passing [tree_path[1:]]). *)
Fixpoint _add_module_to_branch (parent : tree_info) (tree_path : list string)
    (leaf : tree_info) : tree_info :=
  match tree_path with
  | [] => parent
  | r :: rest =>
      let branch :=
        match alist_get r (children parent) with
        | Some branch => branch
        | None =>
            match rest with
            | [] => set_relative_filename leaf r
            | _ :: _ => _new_branch r
            end
        end in
      let branch :=
        match rest with
        | [] => branch
        | _ :: _ => _add_module_to_branch branch rest leaf
        end in
      set_children parent (alist_set r branch (children parent))
  end.

Definition add_module_to_tree (package_tree : list (string * tree_info))
    (index_info : IndexInfo) : list (string * tree_info) :=
  let leaf :=
    {| nums := info_nums index_info;
       html_filename := info_html_filename index_info;
       relative_filename := info_relative_filename index_info;
       is_package := false; children := [] |} in
  match split path_sep (relative_filename leaf) with
  | [] => package_tree
  | r :: rest =>
      let branch :=
        match alist_get r package_tree with
        | Some branch => branch
        | None =>
            match rest with
            | [] => leaf
            | _ :: _ => _new_branch r
            end
        end in
      let branch :=
        match rest with
        | [] => branch
        | _ :: _ => _add_module_to_branch branch rest leaf
        end in
      alist_set r branch package_tree
  end.

Fixpoint _sum_branch (t : tree_info) : tree_info :=
  match t with
  | TreeInfo n h r p cs =>
      let cs' :=
        map (fun kc : string * tree_info =>
               let (k, child_info) := kc in
               (k, if has_children child_info
                   then _sum_branch child_info else child_info)) cs in
      TreeInfo (py_sum (map (fun kc => nums (snd kc)) cs')) h r p cs'
  end.

Definition sum_package_tree (package_tree : list (string * tree_info))
  : list (string * tree_info) :=
  map (fun kt : string * tree_info =>
         let (k, t) := kt in
         (k, if has_children t then _sum_branch t else t)) package_tree.

Fixpoint _merge_branch_folders (t : tree_info) : tree_info :=
  match t with
  | TreeInfo n h r p cs =>
      let cs' :=
        map (fun kc : string * tree_info =>
               let (k, child_info) := kc in
               (k, _merge_branch_folders child_info)) cs in
      match cs' with
      | [(path, child_info)] =>
          if has_children child_info then
            TreeInfo n h (sep_join r (relative_filename child_info)) p
                     (children child_info)
          else TreeInfo n h r p cs'
      | _ => TreeInfo n h r p cs'
      end
  end.

Definition merge_single_folders (package_tree : list (string * tree_info))
  : list (string * tree_info) :=
  map (fun kt : string * tree_info =>
         let (k, t) := kt in (k, _merge_branch_folders t)) package_tree.

End Tree.

(** ** HtmlDataGeneration *)

(** The part of an [Analysis] that html.py reads.  [missing_branch_arcs]
    maps a line number to the destinations of its missed branches
    (negative for an exit); [contexts_by_lineno] is the collaborator's
    mapping from line number to recorded context names. *)
Record Analysis : Type := {
  numbers : Numbers;
  excluded : gset Z;
  missing : gset Z;
  statements : gset Z;
  missing_branch_arcs : gmap Z (list Z);
  arcs_executed : list (Z * Z);
  contexts_by_lineno : Z -> list string;
  missing_arc_description : Z -> Z -> list (Z * Z) -> string;
}.

Module HtmlDataGeneration.

Definition EMPTY : string := "(empty)".

Inductive category : Type := exc | mis | par | run.

(** An element of [short_annotations]: the text "exit" or a line number. *)
Inductive short_annotation : Type :=
| short_exit
| short_line (b : Z).

Record line_data : Type := {
  tokens : list (string * string);
  number : Z;
  line_category : option category;
  statement : bool;
  contexts : option (list string);
  contexts_label : option string;
  context_list : option (list string);
  short_annotations : list short_annotation;
  long_annotations : list string;
}.

Record file_data : Type := {
  fd_relative_filename : string;
  fd_nums : Numbers;
  lines : list line_data;
}.

(** [self.has_arcs] and [self.config.show_contexts]. *)
Record state : Type := {
  has_arcs : bool;
  show_contexts : bool;
}.

Fixpoint insert_sorted (s : string) (l : list string) : list string :=
  match l with
  | [] => [s]
  | x :: rest => if String.leb s x then s :: l else x :: insert_sorted s rest
  end.

(** [sorted(...)] on strings. *)
Definition py_sorted (l : list string) : list string :=
  fold_right insert_sorted [] l.

(** The [if]/[elif] chain that marks one line: the category with the
    short and long annotations. *)
Definition mark_line (self : state) (analysis : Analysis) (lineno : Z)
  : option category * list short_annotation * list string :=
  if bool_decide (lineno ∈ excluded analysis) then
    (Some exc, [], [])
  else if bool_decide (lineno ∈ missing analysis) then
    (Some mis, [], [])
  else if has_arcs self && bool_decide (is_Some (missing_branch_arcs analysis !! lineno)) then
    let bs := default [] (missing_branch_arcs analysis !! lineno) in
    (Some par,
     map (fun b => if b <? 0 then short_exit else short_line b) bs,
     map (fun b => missing_arc_description analysis lineno b (arcs_executed analysis)) bs)
  else if bool_decide (lineno ∈ statements analysis) then
    (Some run, [], [])
  else
    (None, [], []).

(** Body of the loop over [enumerate(fr.source_token_lines(), start=1)]. *)
Definition data_for_line (self : state) (analysis : Analysis)
    (lineno : Z) (toks : list (string * string)) : line_data :=
  let '(cat, shorts, longs) := mark_line self analysis lineno in
  let '(ctxs, label, ctx_list) :=
    if bool_decide (is_Some cat) && show_contexts self then
      let ctxs :=
        py_sorted (map (fun c => if String.eqb c "" then EMPTY else c)
                       (contexts_by_lineno analysis lineno)) in
      if bool_decide (ctxs = [EMPTY])
      then (Some ctxs, Some EMPTY, None)
      else (Some ctxs, Some (pretty (length ctxs) +:+ " ctx"), Some ctxs)
    else (None, None, None) in
  {| tokens := toks; number := lineno; line_category := cat;
     statement := bool_decide (lineno ∈ statements analysis);
     contexts := ctxs; contexts_label := label; context_list := ctx_list;
     short_annotations := shorts; long_annotations := longs |}.

Definition data_for_file (self : state) (fr : FileReporter) (analysis : Analysis)
  : file_data :=
  {| fd_relative_filename := fr_relative_filename fr;
     fd_nums := numbers analysis;
     lines := imap (fun i toks => data_for_line self analysis (Z.of_nat i + 1) toks)
                   (fr_source_token_lines fr) |}.

End HtmlDataGeneration.

(** ** HtmlReporter *)

(** The output directory: the content of [status.json] and the names of
    the HTML pages present. *)
Record OutputDir : Type := {
  status_json : option file_content;
  pages : gset string;
}.

Module HtmlReporter.
Section WithCollaborators.
Context `{C : Collaborators}.

Record state : Type := mkState {
  skip_covered : bool;
  skip_empty : bool;
  config : hashable;
  pyfile_html_source : hashable;
  data : CoverageData;
  datagen : HtmlDataGeneration.state;
  file_summaries : list pyval;
  package_tree : list (string * tree_info);
  all_files_nums : list Numbers;
  incr : IncrementalChecker.state;
  totals : Numbers;
}.

(** [__init__]: the settings come from the configuration, the
    accumulators start empty. *)
Definition init (skip_covered skip_empty : bool) (config source : hashable)
    (data : CoverageData) (datagen : HtmlDataGeneration.state) : state :=
  {| skip_covered := skip_covered; skip_empty := skip_empty;
     config := config; pyfile_html_source := source; data := data;
     datagen := datagen;
     file_summaries := []; package_tree := []; all_files_nums := [];
     incr := IncrementalChecker.init; totals := Numbers0 |}.

Definition set_incr (r : state) (i : IncrementalChecker.state) : state :=
  mkState (skip_covered r) (skip_empty r) (config r) (pyfile_html_source r)
          (data r) (datagen r) (file_summaries r) (package_tree r)
          (all_files_nums r) i (totals r).

Definition set_totals (r : state) (n : Numbers) : state :=
  mkState (skip_covered r) (skip_empty r) (config r) (pyfile_html_source r)
          (data r) (datagen r) (file_summaries r) (package_tree r)
          (all_files_nums r) (incr r) n.

Definition set_package_tree (r : state) (t : list (string * tree_info)) : state :=
  mkState (skip_covered r) (skip_empty r) (config r) (pyfile_html_source r)
          (data r) (datagen r) (file_summaries r) t
          (all_files_nums r) (incr r) (totals r).

(** [self.all_files_nums.append(nums)] *)
Definition append_nums (r : state) (n : Numbers) : state :=
  mkState (skip_covered r) (skip_empty r) (config r) (pyfile_html_source r)
          (data r) (datagen r) (file_summaries r) (package_tree r)
          (all_files_nums r ++ [n]) (incr r) (totals r).

(** [self.file_summaries.append(index_info)] *)
Definition append_summary (r : state) (index_info : pyval) : state :=
  mkState (skip_covered r) (skip_empty r) (config r) (pyfile_html_source r)
          (data r) (datagen r) (file_summaries r ++ [index_info]) (package_tree r)
          (all_files_nums r) (incr r) (totals r).

(** [file_be_gone(html_path)] *)
Definition file_be_gone (dir : OutputDir) (name : string) : OutputDir :=
  {| status_json := status_json dir; pages := pages dir ∖ {[name]} |}.

(** [write_html(html_path, html)]: the page text comes out of the
    template engine, which is not modelled; the page is recorded as
    present. *)
Definition write_html (dir : OutputDir) (name : string) : OutputDir :=
  {| status_json := status_json dir; pages := pages dir ∪ {[name]} |}.

(** The index dict built at the end of [html_file]. *)
Definition index_info_dict (info : IndexInfo) : pyval :=
  VDict [("nums", VNumbers (info_nums info));
         ("html_filename", VStr (info_html_filename info));
         ("relative_filename", VStr (info_relative_filename info))].

(** The keys of an index dict that the tree reads.  The tree is kept
    typed: a dict without a string [relative_filename] raises in
    [add_module_to_tree] itself ([KeyError], or [AttributeError] on
    [.split]); one without [Numbers] under [nums] or a string under
    [html_filename], which Python would only trip over at a later read
    of the node, is rejected here as well. *)
Definition as_index_info (index_info : pyval) : result IndexInfo :=
  rel ← py_getitem index_info "relative_filename";
  match rel with
  | VStr rel =>
      n ← py_getitem index_info "nums";
      h ← py_getitem index_info "html_filename";
      match n, h with
      | VNumbers n, VStr h => Ok (mkIndexInfo n h rel)
      | _, _ => Raise TypeError
      end
  | _ => Raise AttributeError
  end.

Definition add_module_to_tree (r : state) (index_info : pyval) : result state :=
  info ← as_index_info index_info;
  Ok (set_package_tree r (Tree.add_module_to_tree (package_tree r) info)).

Definition html_file (r : state) (dir : OutputDir) (fr : FileReporter)
    (analysis : Analysis) : result (state * OutputDir) :=
  let rootname := flat_rootname (fr_relative_filename fr) in
  let html_filename := rootname +:+ ".html" in
  let nums := numbers analysis in
  let r := append_nums r nums in
  if skip_covered r && (n_missing nums =? 0) && (n_partial_branches nums =? 0) then
    Ok (r, file_be_gone dir html_filename)
  else if skip_empty r && (n_statements nums =? 0) then
    Ok (r, file_be_gone dir html_filename)
  else
    '(skip, incr') ← IncrementalChecker.can_skip_file (incr r) (data r) fr rootname;
    let r := set_incr r incr' in
    if (skip : bool) then
      index_info ← IncrementalChecker.index_info (incr r) rootname;
      let r := append_summary r index_info in
      r ← add_module_to_tree r index_info;
      Ok (r, dir)
    else
      let file_data := HtmlDataGeneration.data_for_file (datagen r) fr analysis in
      let dir := write_html dir html_filename in
      let index_info :=
        index_info_dict
          (mkIndexInfo nums html_filename (fr_relative_filename fr)) in
      let r := append_summary r index_info in
      r ← add_module_to_tree r index_info;
      incr' ← IncrementalChecker.set_index_info (incr r) rootname index_info;
      Ok (set_incr r incr', dir).

(** The loop [for fr, analysis in get_analysis_to_report(...)]. *)
Fixpoint html_files (r : state) (dir : OutputDir)
    (analyses : list (FileReporter * Analysis)) : result (state * OutputDir) :=
  match analyses with
  | [] => Ok (r, dir)
  | (fr, analysis) :: rest =>
      '(r, dir) ← html_file r dir fr analysis;
      html_files r dir rest
  end.

Definition sum_package_tree (r : state) : state :=
  set_package_tree r (Tree.sum_package_tree (package_tree r)).

Definition merge_single_folders (r : state) : state :=
  set_package_tree r (Tree.merge_single_folders (package_tree r)).

(** [report]: [analyses] is what the iteration over
    [get_analysis_to_report(self.coverage, morfs)] yields.  The result is
    the reporter and the output directory after the index and the status
    file are written; the node identifiers attached for the tree page, the
    copy of the static files and the returned percentage are left out.
    Loading and rendering the templates, opening the pages and the status
    file for writing and copying the static files are not modelled, nor are
    the exceptions these steps can raise ([OSError], and the
    [CoverageException] of [data_filename] for a static file that is not
    found): [Ok] says that none of the modelled steps raised.  The
    summaries are kept as the index page is given them, before [write]
    converts the Numbers of the index dicts they share with the cache. *)
Definition report (r : state) (dir : OutputDir)
    (analyses : list (FileReporter * Analysis)) : result (state * OutputDir) :=
  incr' ← IncrementalChecker.read (incr r) (status_json dir);
  let incr' :=
    IncrementalChecker.check_global_data incr' [config r; pyfile_html_source r] in
  let r := set_incr r incr' in
  '(r, dir) ← html_files r dir analyses;
  match all_files_nums r with
  | [] => Raise (CoverageException "No data to report.")
  | _ :: _ =>
      let r := set_totals r (py_sum (all_files_nums r)) in
      let r := sum_package_tree r in
      let r := merge_single_folders r in
      let dir := write_html dir "package_tree.html" in
      let dir := write_html dir "index.html" in
      '(incr', status) ← IncrementalChecker.write (incr r);
      Ok (set_incr r incr', {| status_json := Some status; pages := pages dir |})
  end.

End WithCollaborators.
End HtmlReporter.

(** ** A concrete instance of the collaborators

    Used to run the model on concrete inputs: the digest is the
    concatenation of what the hasher was fed, the flat root name replaces
    path separators by underscores. *)
Definition demo_flat_rootname (s : string) : string :=
  string_of_list_ascii
    (map (fun c => if Ascii.eqb c path_sep then "_"%char else c)
         (list_ascii_of_string s)).

Definition demo : Collaborators := {|
  coverage_version := "6.0a1";
  Hasher := list string;
  hashable := string;
  Hasher_new := [];
  update := fun m d => (m ++ [d])%list;
  hexdigest := fun m => String.concat ";" m;
  encode_utf8 := fun s => s;
  CoverageData := string -> list string;
  add_data_to_hash := fun data fname m => (m ++ data fname)%list;
  flat_rootname := demo_flat_rootname;
|}.

Definition demo_fr (path src : string) : FileReporter :=
  {| fr_filename := "/src/" +:+ path; fr_relative_filename := path;
     fr_source := src; fr_source_token_lines := [[("nam", src)]] |}.

Definition demo_analysis (n : Numbers) : Analysis :=
  {| numbers := n; excluded := ∅; missing := ∅; statements := {[ 1 ]};
     missing_branch_arcs := ∅; arcs_executed := [];
     contexts_by_lineno := fun _ => [];
     missing_arc_description := fun _ _ _ => "" |}.

Definition demo_reporter (skip_covered skip_empty : bool) : HtmlReporter.state :=
  HtmlReporter.init (C := demo) skip_covered skip_empty "config" "template"
    (fun _ => []) {| HtmlDataGeneration.has_arcs := false;
                     HtmlDataGeneration.show_contexts := false |}.

Definition empty_dir : OutputDir := {| status_json := None; pages := ∅ |}.

(** ** Helpers for templates *)

(** [t.replace(old, new)] for a one-character [old]. *)
Fixpoint replace_char (old : ascii) (new : string) (t : string) : string :=
  match t with
  | EmptyString => EmptyString
  | String c rest =>
      if Ascii.eqb c old then new +:+ replace_char old new rest
      else String c (replace_char old new rest)
  end.

(** [escape(t)]: [t.replace("&", "&amp;").replace("<", "&lt;")] *)
Definition escape (t : string) : string :=
  replace_char "<"%char "&lt;" (replace_char "&"%char "&amp;" t).

(** ** The package tree as a list *)

(** An entry of the list that [package_tree_to_list] returns: the node
    with the keys that the pass adds to it. *)
Record listed_node : Type := mkListed {
  listed : tree_info;
  node_id : string;
  node_pid : option string;
  is_module : bool;
}.

Fixpoint insert_by_key {A} (kv : string * A) (l : list (string * A))
  : list (string * A) :=
  match l with
  | [] => [kv]
  | x :: rest =>
      if String.leb (fst kv) (fst x) then kv :: l
      else x :: insert_by_key kv rest
  end.

(** [sorted(d.items())]: the items in the order of their keys (the keys of
    a dict are distinct, so the values are never compared). *)
Definition sorted_items {A} (d : list (string * A)) : list (string * A) :=
  fold_right insert_by_key [] d.

(** ['{}.{}'.format(node_id, i)] *)
Definition child_id (node_id : string) (i : nat) : string :=
  node_id +:+ "." +:+ pretty i.

(** [_add_branch_to_list]: the entries appended for [tree_info] and the
    nodes below it, given its identifier and that of its parent.  The
    children are visited in the order of their keys; each child's entries
    are built where the child stands in [children] and are sorted along
    with its key, which is what visiting the sorted items does. *)
Fixpoint _add_branch_to_list (tree_info : tree_info)
  : string -> option string -> list listed_node :=
  match tree_info with
  | TreeInfo n h r p cs =>
      fun node_id node_pid =>
        mkListed tree_info node_id node_pid (negb p)
        :: concat
             (imap (fun i (kf : string * (string -> option string -> list listed_node)) =>
                      snd kf (child_id node_id (S i)) (Some node_id))
                   (sorted_items
                      (map (fun kc : string * _ =>
                              (fst kc, _add_branch_to_list (snd kc))) cs)))
  end.

Definition package_tree_to_list (package_tree : list (string * tree_info))
  : list listed_node :=
  concat
    (imap (fun i (kt : string * tree_info) =>
             _add_branch_to_list (snd kt) (pretty (S i)) None)
          (sorted_items package_tree)).

(** ** cmdline.py: list options *)

(** [s.lstrip(c)] for a one-character [c]. *)
Fixpoint lstrip_char (c : ascii) (s : string) : string :=
  match s with
  | EmptyString => EmptyString
  | String x rest => if Ascii.eqb x c then lstrip_char c rest else s
  end.

(** [s.rstrip(c)] for a one-character [c]. *)
Fixpoint rstrip_char (c : ascii) (s : string) : string :=
  match s with
  | EmptyString => EmptyString
  | String x rest =>
      match rstrip_char c rest with
      | EmptyString => if Ascii.eqb x c then EmptyString else String x EmptyString
      | rest' => String x rest'
      end
  end.

(** [s.strip(c)] for a one-character [c]. *)
Definition strip_char (c : ascii) (s : string) : string :=
  rstrip_char c (lstrip_char c s).

(** [unshell_list(options, name)]: [s] is the value of the option, [None]
    when the option is absent or unset; [windows] is [env.WINDOWS]. *)
Definition unshell_list (windows : bool) (s : option string) : option (list string) :=
  match s with
  | None => None
  | Some EmptyString => None
  | Some s =>
      let s := if windows then strip_char "'"%char s else s in
      Some (split ","%char s)
  end.

(** ** Static files *)

Section StaticFiles.

(** [STATIC_PATH] (its second entry depends on where the package is
    installed), [os.path.join], [os.path.exists] and the text of the
    exception message are parameters. *)
Variable STATIC_PATH : list string.
Variable path_join : string -> list string -> string.
Variable path_exists : string -> bool.
Variable couldnt_find : string -> list string -> string.

(** The loop of [data_filename] over the remaining directories, with the
    list [tried] so far. *)
Fixpoint data_filename_from (dirs : list string) (fname pkgdir : string)
    (tried : list string) : result string :=
  match dirs with
  | [] => Raise (CoverageException (couldnt_find fname tried))
  | static_dir :: rest =>
      let static_filename := path_join static_dir [fname] in
      if path_exists static_filename then Ok static_filename
      else
        let tried := (tried ++ [static_filename])%list in
        match pkgdir with
        | EmptyString => data_filename_from rest fname pkgdir tried
        | _ =>
            let static_filename := path_join static_dir [pkgdir; fname] in
            if path_exists static_filename then Ok static_filename
            else data_filename_from rest fname pkgdir
                   (tried ++ [static_filename])%list
        end
  end.

Definition data_filename (fname pkgdir : string) : result string :=
  data_filename_from STATIC_PATH fname pkgdir [].

End StaticFiles.

(** * Notions used in the statements *)

(** The status file is missing, unreadable, rejected by the decoder as not
    JSON, or loaded by [json.load] as an object whose ['format'] is not
    [STATUS_FORMAT], or whose ['format'] is and whose ['version'] is not
    the running one.  A document on which [json.load] raises
    [RecursionError] is none of these. *)
Definition unusable `{C : Collaborators}
    (status_file : option file_content) : Prop :=
  status_file = None \/ status_file = Some Unreadable \/
  status_file = Some NotJson \/
  exists status format,
    status_file = Some (Json status) /\
    py_getitem status "format" = Ok format /\
    (py_eq_int format IncrementalChecker.STATUS_FORMAT = false \/
     exists version,
       py_getitem status "version" = Ok version /\
       py_eq_str version coverage_version = false).

(** Every cache entry is a dict.  It holds of every state the checker's
    methods produce (see [entries_are_dicts_init] and the lemmas after
    it). *)
Definition entries_are_dicts (c : IncrementalChecker.state) : Prop :=
  forall fname v, IncrementalChecker.files c !! fname = Some v ->
                  exists d, v = VDict d.

(** The file is left out of the report by [skip_covered] or [skip_empty]. *)
Definition left_out `{C : Collaborators} (r : HtmlReporter.state) (analysis : Analysis) : Prop :=
  (HtmlReporter.skip_covered r = true /\ n_missing (numbers analysis) = 0 /\
   n_partial_branches (numbers analysis) = 0) \/
  (HtmlReporter.skip_empty r = true /\ n_statements (numbers analysis) = 0).

Definition insert_item (acc : gmap string pyval) (kv : string * pyval)
  : gmap string pyval := <[kv.1 := kv.2]> acc.

(** The node and all its descendants, parents first. *)
Fixpoint nodes (t : tree_info) : list tree_info :=
  match t with
  | TreeInfo n h r p cs => t :: flat_map (fun kc => nodes (snd kc)) cs
  end.

(** The leaves below a node, left to right; a node without children is its
    own leaf. *)
Fixpoint leaves (t : tree_info) : list tree_info :=
  match t with
  | TreeInfo n h r p cs =>
      match cs with
      | [] => [t]
      | _ :: _ => flat_map (fun kc => leaves (snd kc)) cs
      end
  end.

(** The guarded call in [sum_package_tree] and [_sum_branch]. *)
Definition sum_node (t : tree_info) : tree_info :=
  if has_children t then Tree._sum_branch t else t.

(** The node has exactly one child, and that child has children. *)
Definition single_folder (t : tree_info) : Prop :=
  exists k c, children t = [(k, c)] /\ has_children c = true.

(** The package tree built from a list of index entries, as the successive
    calls of [add_module_to_tree] build it. *)
Definition build_tree (infos : list IndexInfo) : list (string * tree_info) :=
  fold_left Tree.add_module_to_tree infos [].

(** Every node with children, in and below [t], carries the sum of its
    children's Numbers. *)
Definition summed (t : tree_info) : Prop :=
  forall node, In node (nodes t) -> has_children node = true ->
    nums node = py_sum (map (fun kc => nums (snd kc)) (children node)).

Definition merge_children (cs : list (string * tree_info))
  : list (string * tree_info) :=
  map (fun kc => (fst kc, Tree._merge_branch_folders (snd kc))) cs.

Definition no_data : exn := CoverageException "No data to report.".

(** The computation does not raise a [CoverageException]. *)
Definition benign {A} (m : result A) : Prop :=
  forall msg, m <> Raise (CoverageException msg).

(** ** Concrete inputs *)

Definition demo_checker : IncrementalChecker.state :=
  {| IncrementalChecker.globals := VStr "config;template";
     IncrementalChecker.files :=
       {[ "a_x.py" :=
            VDict [("hash", VStr "pass;1");
                   ("index",
                    VDict [("nums", VNumbers (mkNumbers 1 0 0 0));
                           ("html_filename", VStr "a_x.py.html");
                           ("relative_filename", VStr "a/x.py")])] ]} |}.

Definition demo_status : file_content :=
  Eval vm_compute in
    match IncrementalChecker.write (C := demo) demo_checker with
    | Ok (_, status) => status
    | Raise _ => NotJson
    end.

Definition demo_info (path : string) (statements : Z) : IndexInfo :=
  mkIndexInfo (mkNumbers statements 0 0 0) (path +:+ ".html") path.

Definition demo_tree : list (string * tree_info) :=
  build_tree [demo_info "a/b/x.py" 1; demo_info "a/b/c/y.py" 2;
              demo_info "a/z.py" 3; demo_info "top.py" 4].

Definition demo_leaf (name html : string) (statements : Z) : tree_info :=
  TreeInfo (mkNumbers statements 0 0 0) html name false [].

Definition demo_folder (name : string) (cs : list (string * tree_info)) : tree_info :=
  TreeInfo Numbers0 "" name true cs.

Definition demo_folders : list (string * tree_info) :=
  build_tree [demo_info "p/q/r/f1.py" 1; demo_info "p/q/r/f2.py" 2;
              demo_info "top.py" 4].

Definition demo_marked_analysis : Analysis :=
  {| numbers := mkNumbers 3 2 0 0;
     excluded := {[ 2 ]}; missing := {[ 2; 3 ]}; statements := {[ 1; 2; 3 ]};
     missing_branch_arcs := {[ 1 := [-1; 3] ]}; arcs_executed := [(1, 2)];
     contexts_by_lineno := fun _ => [""];
     missing_arc_description := fun _ _ _ => "didn't jump" |}.

Definition demo_marked_fr : FileReporter :=
  {| fr_filename := "/src/m.py"; fr_relative_filename := "m.py";
     fr_source := "if a: b";
     fr_source_token_lines := [[("key", "if")]; [("nam", "b")]; [("nam", "c")]] |}.

Definition demo_datagen : HtmlDataGeneration.state :=
  {| HtmlDataGeneration.has_arcs := true; HtmlDataGeneration.show_contexts := true |}.

Definition demo_covered : FileReporter * Analysis :=
  (demo_fr "a/x.py" "pass", demo_analysis (mkNumbers 1 0 0 0)).

Definition demo_uncovered : FileReporter * Analysis :=
  (demo_fr "a/y.py" "print()", demo_analysis (mkNumbers 2 1 0 0)).

(** ** Further notions: paths in the package tree *)

(** The node reached from a dict of nodes by following path segments. *)
Fixpoint tree_find (path : list string) (forest : list (string * tree_info))
  : option tree_info :=
  match path with
  | [] => None
  | r :: rest =>
      match alist_get r forest with
      | None => None
      | Some t =>
          match rest with
          | [] => Some t
          | _ :: _ => tree_find rest (children t)
          end
      end
  end.

(** The leaf that [add_module_to_tree] makes of an index entry, once it is
    stored under its last path segment. *)
Definition leaf_of (index_info : IndexInfo) (segment : string) : tree_info :=
  {| nums := info_nums index_info;
     html_filename := info_html_filename index_info;
     relative_filename := segment;
     is_package := false; children := [] |}.

(** The path segments of an index entry. *)
Definition tree_path (index_info : IndexInfo) : list string :=
  split path_sep (info_relative_filename index_info).

(** No node in or below [t] is a single folder. *)
Definition merged (t : tree_info) : Prop :=
  forall node, In node (nodes t) -> ~ single_folder node.

(** The leaves below a node with their display paths: the paths of the
    nodes from [t] down to the leaf, joined by the separator. *)
Fixpoint leaf_paths (t : tree_info) : list (string * tree_info) :=
  match t with
  | TreeInfo n h r p cs =>
      match cs with
      | [] => [(r, t)]
      | _ :: _ =>
          map (fun pl => (sep_join r (fst pl), snd pl))
              (flat_map (fun kc => leaf_paths (snd kc)) cs)
      end
  end.

(** ** Further notions: a run of the report *)

(** The name under which [html_file] caches a file. *)
Definition rootname_of `{C : Collaborators} (fr : FileReporter) : string :=
  flat_rootname (fr_relative_filename fr).

(** The reporter after [html_file] has put a file in the report: one more
    Numbers, one more summary, the file added to the tree, the checker
    replaced; the settings stay. *)
Definition reported `{C : Collaborators} (r : HtmlReporter.state)
    (nums : Numbers) (summary : pyval) (info : IndexInfo)
    (c : IncrementalChecker.state) : HtmlReporter.state :=
  HtmlReporter.mkState
    (HtmlReporter.skip_covered r) (HtmlReporter.skip_empty r)
    (HtmlReporter.config r) (HtmlReporter.pyfile_html_source r)
    (HtmlReporter.data r) (HtmlReporter.datagen r)
    (HtmlReporter.file_summaries r ++ [summary])
    (Tree.add_module_to_tree (HtmlReporter.package_tree r) info)
    (HtmlReporter.all_files_nums r ++ [nums])
    c (HtmlReporter.totals r).

(** The character occurs in the string. *)
Fixpoint occurs (c : ascii) (s : string) : bool :=
  match s with
  | EmptyString => false
  | String c' rest => Ascii.eqb c' c || occurs c rest
  end.

(** [x] is [id] or [id] followed by a dot and more. *)
Definition below (id x : string) : Prop :=
  exists s, x = id +:+ s /\ (s = "" \/ exists s', s = "." +:+ s').

(** The places where [data_filename] looks, in the order it looks. *)
Definition static_candidates (path_join : string -> list string -> string)
    (dirs : list string) (fname pkgdir : string) : list string :=
  flat_map (fun static_dir =>
              path_join static_dir [fname]
              :: match pkgdir with
                 | EmptyString => []
                 | _ => [path_join static_dir [pkgdir; fname]]
                 end) dirs.

Definition demo_join (a : string) (rest : list string) : string :=
  String.concat "/" (a :: rest).

Definition demo_exists (p : string) : bool :=
  String.eqb p "/pkg/htmlfiles/jquery/jquery.min.js".

(** ** Further notions: a cache that can be written *)

(** The entry can be written: [write] converts it, and json.dump accepts
    the result. *)
Definition writable `{C : Collaborators} (v : pyval) : Prop :=
  exists v', IncrementalChecker.write_fileinfo v = Ok v' /\
             json_serializable v' = true.

Definition cache_writable `{C : Collaborators} (c : IncrementalChecker.state) : Prop :=
  json_serializable (IncrementalChecker.globals c) = true /\
  forall fname v, IncrementalChecker.files c !! fname = Some v -> writable v.

(** The items of a dict other than the first one under [k] are accepted by
    json.dump. *)
Fixpoint serializable_but (k : string) (d : pydict) : bool :=
  match d with
  | [] => true
  | (k', v) :: rest =>
      if String.eqb k' k then forallb (fun kv => json_serializable (snd kv)) rest
      else json_serializable v && serializable_but k rest
  end.

(** The tree below a node with the Numbers of every node that has
    children blanked: what is left is every node's path, page name, package
    flag and children keys, in order and at every depth, and the Numbers of
    the nodes without children. *)
Fixpoint forget_sums (t : tree_info) : tree_info :=
  match t with
  | TreeInfo n h r p cs =>
      TreeInfo (match cs with [] => n | _ :: _ => Numbers0 end) h r p
               (map (fun kc => (fst kc, forget_sums (snd kc))) cs)
  end.

(** * Properties *)

(** ** The model on concrete inputs *)

Example split_relative_filename :
  split path_sep "a/b/c/f1.py" = ["a"; "b"; "c"; "f1.py"]
  /\ split path_sep "top.py" = ["top.py"]
  /\ split path_sep "" = [""].
Proof. repeat split. Qed.

Example marked_lines :
  let fd := HtmlDataGeneration.data_for_file demo_datagen demo_marked_fr
              demo_marked_analysis in
  map HtmlDataGeneration.line_category (HtmlDataGeneration.lines fd)
    = [Some HtmlDataGeneration.par; Some HtmlDataGeneration.exc;
       Some HtmlDataGeneration.mis]
  /\ map HtmlDataGeneration.short_annotations (HtmlDataGeneration.lines fd)
    = [[HtmlDataGeneration.short_exit; HtmlDataGeneration.short_line 3]; []; []]
  /\ map HtmlDataGeneration.contexts_label (HtmlDataGeneration.lines fd)
    = [Some "(empty)"; Some "(empty)"; Some "(empty)"].
Proof. vm_compute. repeat split. Qed.

Example read_missing_status_file :
  IncrementalChecker.read (C := demo) demo_checker None
  = Ok IncrementalChecker.init.
Proof. reflexivity. Qed.

Example report_of_nothing :
  HtmlReporter.report (C := demo) (demo_reporter false false) empty_dir []
  = Raise no_data.
Proof. reflexivity. Qed.

(** ** Basic facts about dynamically typed values *)

Lemma py_eq_str_true (v : pyval) (s : string) :
  py_eq_str v s = true <-> v = VStr s.
Proof.
  destruct v; simpl; split; try discriminate.
  - intros H. apply String.eqb_eq in H. by subst.
  - intros [= ->]. apply String.eqb_refl.
Qed.

Lemma py_eq_str_false (v : pyval) (s : string) :
  py_eq_str v s = false <-> v <> VStr s.
Proof.
  rewrite <- py_eq_str_true. destruct (py_eq_str v s); split; congruence.
Qed.

Lemma alist_get_set_eq {A} (k : string) (x : A) (d : list (string * A)) :
  alist_get k (alist_set k x d) = Some x.
Proof.
  induction d as [|[k' v'] d IH]; simpl.
  - by rewrite String.eqb_refl.
  - destruct (String.eqb k' k) eqn:E; simpl; by rewrite E.
Qed.

Lemma alist_set_set {A} (k : string) (x y : A) (d : list (string * A)) :
  alist_set k x (alist_set k y d) = alist_set k x d.
Proof.
  induction d as [|[k' v'] d IH]; simpl.
  - by rewrite String.eqb_refl.
  - destruct (String.eqb k' k) eqn:E; simpl; rewrite E; [done | by rewrite IH].
Qed.

Lemma alist_set_id {A} (k : string) (x : A) (d : list (string * A)) :
  alist_get k d = Some x -> alist_set k x d = d.
Proof.
  induction d as [|[k' v'] d IH]; simpl; [done |].
  destruct (String.eqb k' k) eqn:E.
  - by intros [= ->].
  - intros H. by rewrite IH.
Qed.

Lemma Numbers_of_args_init_args (n : Numbers) :
  Numbers_of_args (init_args n) = Ok n.
Proof. by destruct n. Qed.

(** Inversion of a sequenced computation. *)
Lemma bind_Ok {A B} (m : result A) (f : A -> result B) (b : B) :
  m ≫= f = Ok b -> exists a, m = Ok a /\ f a = Ok b.
Proof. destruct m; simpl; [eauto | discriminate]. Qed.

Lemma bind_Raise {A B} (m : result A) (f : A -> result B) (e : exn) :
  m ≫= f = Raise e -> m = Raise e \/ exists a, m = Ok a /\ f a = Raise e.
Proof. destruct m; simpl; [eauto | intros [= ->]; by left]. Qed.

(** ** IncrementalChecker.read on an unusable status file *)

Section CheckerFacts.
Context `{C : Collaborators}.
Import IncrementalChecker.

Lemma read_unusable (c : state) (status_file : option file_content) :
  unusable status_file -> read c status_file = Ok (reset c).
Proof.
  intros [-> | [-> | [-> | (status & format & -> & Hf & H)]]]; try done.
  unfold read; simpl. rewrite Hf; simpl.
  destruct (py_eq_int format STATUS_FORMAT) eqn:E; simpl; [| done].
  destruct H as [H | (version & Hv & Hne)]; [congruence |].
  rewrite Hv; simpl. by rewrite Hne.
Qed.

Lemma file_hash_reset (c : state) (fname : string) :
  file_hash (reset c) fname = Ok (VStr "").
Proof. unfold file_hash, files_get; simpl. by rewrite lookup_empty. Qed.

(** A stored fingerprint can be read exactly when the cache entry is a
    dict (or absent). *)
Lemma file_hash_Ok_inv (c : state) (fname : string) (stored : pyval) :
  file_hash c fname = Ok stored ->
  exists d, files_get c fname = VDict d /\
            stored = default (VStr "") (alist_get "hash" d).
Proof.
  unfold file_hash. destruct (files_get c fname) eqn:E; try discriminate.
  simpl. intros H. exists d. split; [done |].
  destruct (alist_get "hash" d); simpl in *; congruence.
Qed.

Lemma file_hash_set_file_hash (c c' : state) (fname h : string) :
  set_file_hash c fname h = Ok c' -> file_hash c' fname = Ok (VStr h).
Proof.
  unfold set_file_hash. intros H. apply bind_Ok in H as (fi & Hset & [= <-]).
  unfold py_setitem in Hset. destruct (files_get c fname); try discriminate.
  injection Hset as <-.
  unfold file_hash, files_get; simpl. rewrite lookup_insert_eq; simpl.
  by rewrite alist_get_set_eq.
Qed.

(** [can_skip_file] in terms of the stored fingerprint. *)
Lemma can_skip_file_stored (c : state) data fr rootname (stored : pyval) :
  file_hash c rootname = Ok stored ->
  exists c',
    can_skip_file c data fr rootname
      = Ok (py_eq_str stored (this_hash data fr), c') /\
    file_hash c' rootname = Ok (VStr (this_hash data fr)).
Proof.
  intros Hs. unfold can_skip_file. rewrite Hs.
  change (Ok stored ≫= ?f) with (f stored). cbv beta.
  destruct (py_eq_str stored (this_hash data fr)) eqn:E.
  - exists c. split; [done |]. apply py_eq_str_true in E. by subst.
  - destruct (file_hash_Ok_inv _ _ _ Hs) as (d & Hd & _).
    assert (exists c', set_file_hash c rootname (this_hash data fr) = Ok c')
      as [c' Hc'].
    { unfold set_file_hash. rewrite Hd. simpl. eauto. }
    exists c'. rewrite Hc'. split; [done |].
    by eapply file_hash_set_file_hash.
Qed.

End CheckerFacts.




(** Only [OSError] and [ValueError] are caught around [json.load]: on a
    document nested so deeply that the decoder raises [RecursionError],
    [read] raises it as well, whatever the document holds, and a file the
    decoder rejects or returns never makes [read] raise it. *)
Lemma read_raises_on_deep_nesting `{C : Collaborators}
    (c : IncrementalChecker.state) (status_file : option file_content) :
  IncrementalChecker.read c status_file = Raise RecursionError <->
  status_file = Some TooDeep.
Proof.
  split; [| by intros ->].
  destruct status_file as [[| | |status]|]; try done.
  unfold IncrementalChecker.read. cbn [json_load]. intros H. exfalso.
  assert (forall v k, py_getitem v k <> Raise RecursionError) as Hget.
  { intros [] k; cbn; try done. by destruct (alist_get k d). }
  assert (forall items acc,
             IncrementalChecker.read_files items acc <> Raise RecursionError) as Hfiles.
  { induction items as [|[k x] items IH]; intros acc; cbn; [done |].
    intros [E | (x' & _ & E)]%bind_Raise; [| by apply IH in E].
    unfold IncrementalChecker.read_fileinfo in E.
    apply bind_Raise in E as [E | (index & _ & E)]; [by apply Hget in E |].
    apply bind_Raise in E as [E | (args & _ & E)]; [by apply Hget in E |].
    apply bind_Raise in E as [E | (n & _ & E)].
    { unfold Numbers_of_args in E. revert E. clear.
      repeat match goal with
             | |- context [match ?x with _ => _ end] => destruct x
             end; done. }
    apply bind_Raise in E as [E | (index' & _ & E)];
      [by destruct index | by destruct x]. }
  apply bind_Raise in H as [H | (format & _ & H)]; [by apply Hget in H |].
  apply bind_Raise in H as [H | (usable & _ & H)].
  { destruct (negb _); [done |].
    apply bind_Raise in H as [H | (version & _ & H)]; [by apply Hget in H |].
    by destruct (negb _). }
  destruct usable; [| done].
  apply bind_Raise in H as [H | (status_files & _ & H)]; [by apply Hget in H |].
  apply bind_Raise in H as [H | (items & _ & H)]; [by destruct status_files |].
  apply bind_Raise in H as [H | (files' & _ & H)]; [by apply Hfiles in H |].
  apply bind_Raise in H as [H | (globals' & _ & H)]; [by apply Hget in H | done].
Qed.

(** ** can_skip_file and the stored fingerprint *)

Section EntriesAreDicts.
Context `{C : Collaborators}.
Import IncrementalChecker.

Lemma entries_are_dicts_reset c : entries_are_dicts (reset c).
Proof. intros fname v. simpl. by rewrite lookup_empty. Qed.

Lemma entries_are_dicts_init : entries_are_dicts init.
Proof. apply entries_are_dicts_reset. Qed.

Lemma entries_are_dicts_insert c fname v d :
  entries_are_dicts c ->
  entries_are_dicts {| globals := v; files := <[fname := VDict d]> (files c) |}.
Proof.
  intros Hc k x. simpl. destruct (decide (fname = k)) as [<-|Hne].
  - rewrite lookup_insert_eq. intros [= <-]. eauto.
  - rewrite lookup_insert_ne by done. apply Hc.
Qed.

Lemma py_setitem_dict v k x v' :
  py_setitem v k x = Ok v' -> exists d, v' = VDict d.
Proof. destruct v; simpl; try discriminate. intros [= <-]. eauto. Qed.

Lemma entries_are_dicts_set_file_hash c fname h c' :
  entries_are_dicts c -> set_file_hash c fname h = Ok c' -> entries_are_dicts c'.
Proof.
  intros Hc H. unfold set_file_hash in H.
  apply bind_Ok in H as (v & Hv & [= <-]).
  apply py_setitem_dict in Hv as [d ->]. by apply entries_are_dicts_insert.
Qed.

Lemma entries_are_dicts_set_index_info c fname info c' :
  entries_are_dicts c -> set_index_info c fname info = Ok c' -> entries_are_dicts c'.
Proof.
  intros Hc H. unfold set_index_info in H.
  apply bind_Ok in H as (v & Hv & [= <-]).
  apply py_setitem_dict in Hv as [d ->]. by apply entries_are_dicts_insert.
Qed.

Lemma entries_are_dicts_check_global_data c data :
  entries_are_dicts c -> entries_are_dicts (check_global_data c data).
Proof.
  intros Hc. unfold check_global_data. destruct (negb _); [|done].
  intros fname v. simpl. by rewrite lookup_empty.
Qed.

Lemma entries_are_dicts_read c status_file c' :
  read c status_file = Ok c' -> entries_are_dicts c'.
Proof.
  assert (forall items acc acc',
            (forall k v, acc !! k = Some v -> exists d, v = VDict d) ->
            read_files items acc = Ok acc' ->
            forall k v, acc' !! k = Some v -> exists d, v = VDict d) as Hfiles.
  { induction items as [|[k0 x] items IH]; intros acc acc' Hacc H; simpl in H.
    - by injection H as <-.
    - apply bind_Ok in H as (x' & Hx & H). refine (IH _ _ _ H).
      intros k v. destruct (decide (k0 = k)) as [<-|Hne].
      + rewrite lookup_insert_eq. intros [= <-].
        unfold read_fileinfo in Hx.
        repeat (apply bind_Ok in Hx as (? & _ & Hx)).
        by apply py_setitem_dict in Hx.
      + rewrite lookup_insert_ne by done. apply Hacc. }
  unfold read. destruct (json_load status_file) as [status|e].
  - intros H. apply bind_Ok in H as (format & _ & H).
    apply bind_Ok in H as (usable & _ & H). destruct usable.
    + apply bind_Ok in H as (sf & _ & H). apply bind_Ok in H as (items & _ & H).
      apply bind_Ok in H as (files' & Hf & H).
      apply bind_Ok in H as (g & _ & [= <-]).
      intros k v. simpl. eapply Hfiles; [|exact Hf].
      intros k' v'. by rewrite lookup_empty.
    + injection H as <-. apply entries_are_dicts_reset.
  - destruct e; try discriminate; intros [= <-]; apply entries_are_dicts_reset.
Qed.

Lemma entries_are_dicts_write c c' status :
  write c = Ok (c', status) -> entries_are_dicts c'.
Proof.
  unfold write. intros H. apply bind_Ok in H as (files' & Hf & H).
  destruct (json_serializable _); [|discriminate]. injection H as <- _.
  intros fname v. simpl. intros Hv. apply elem_of_list_to_map_2 in Hv.
  revert files' Hf Hv. generalize (map_to_list (files c)).
  induction l as [|[k x] l IH]; intros files' Hf Hv; simpl in Hf.
  - injection Hf as <-. by apply elem_of_nil in Hv.
  - apply bind_Ok in Hf as (x' & Hx & Hf).
    apply bind_Ok in Hf as (rest' & Hrest & [= <-]).
    apply elem_of_cons in Hv as [[= -> ->] | Hv].
    + unfold write_fileinfo in Hx.
      repeat (apply bind_Ok in Hx as (? & _ & Hx)).
      by apply py_setitem_dict in Hx.
    + by eapply IH.
Qed.

Lemma entries_are_dicts_file_hash c fname :
  entries_are_dicts c -> exists stored, file_hash c fname = Ok stored.
Proof.
  intros Hc. unfold file_hash, files_get.
  destruct (files c !! fname) as [v|] eqn:E; simpl; [|eauto].
  destruct (Hc _ _ E) as [d ->]. simpl. destruct (alist_get "hash" d); eauto.
Qed.

End EntriesAreDicts.

(** C3: [can_skip_file] answers true exactly when the computed fingerprint
    equals the one stored for the key (an absent entry reads as the empty
    string, which no non-empty fingerprint matches), and afterwards the
    stored fingerprint is the computed one, whichever the answer. *)
Theorem can_skip_file_iff_same_fingerprint `{C : Collaborators}
    (c : IncrementalChecker.state) (data : CoverageData) (fr : FileReporter)
    (rootname : string) :
  entries_are_dicts c ->
  let computed := IncrementalChecker.this_hash data fr in
  exists (stored : pyval) (b : bool) (c' : IncrementalChecker.state),
    IncrementalChecker.file_hash c rootname = Ok stored /\
    IncrementalChecker.can_skip_file c data fr rootname = Ok (b, c') /\
    (b = true <-> stored = VStr computed) /\
    IncrementalChecker.file_hash c' rootname = Ok (VStr computed) /\
    (IncrementalChecker.files c !! rootname = None ->
     stored = VStr "" /\ (computed <> "" -> b = false)) /\
    entries_are_dicts c'.
Proof.
  intros Hwf computed.
  destruct (entries_are_dicts_file_hash c rootname Hwf) as [stored Hs].
  destruct (can_skip_file_stored c data fr rootname stored Hs) as (c' & Hc & Hh).
  exists stored, (py_eq_str stored computed), c'.
  split; [done |]. split; [done |]. split; [apply py_eq_str_true |].
  split; [done |]. split.
  - intros Hnone.
    assert (stored = VStr "") as ->.
    { unfold IncrementalChecker.file_hash, IncrementalChecker.files_get in Hs.
      rewrite Hnone in Hs. simpl in Hs. congruence. }
    split; [done |]. intros Hne. apply py_eq_str_false. congruence.
  - unfold IncrementalChecker.can_skip_file in Hc. rewrite Hs in Hc.
    change (Ok stored ≫= ?f) with (f stored) in Hc. cbv beta in Hc.
    fold computed in Hc.
    destruct (py_eq_str stored computed).
    + by injection Hc as <-.
    + apply bind_Ok in Hc as (c1 & Hc1 & [= <-]).
      by eapply entries_are_dicts_set_file_hash.
Qed.

Lemma can_skip_file_iff_same_fingerprint_witness :
  let computed :=
    IncrementalChecker.this_hash (C := demo) (fun _ => ["1"])
      (demo_fr "a/x.py" "pass") in
  exists (stored : pyval) (b : bool) (c' : IncrementalChecker.state),
    IncrementalChecker.file_hash demo_checker "a_x.py" = Ok stored /\
    IncrementalChecker.can_skip_file (C := demo) demo_checker
      (fun _ => ["1"]) (demo_fr "a/x.py" "pass") "a_x.py" = Ok (b, c') /\
    (b = true <-> stored = VStr computed) /\
    IncrementalChecker.file_hash c' "a_x.py" = Ok (VStr computed) /\
    (IncrementalChecker.files demo_checker !! "a_x.py" = None ->
     stored = VStr "" /\ (computed <> "" -> b = false)) /\
    entries_are_dicts c'.
Proof.
  apply (can_skip_file_iff_same_fingerprint (C := demo) demo_checker
           (fun _ => ["1"]) (demo_fr "a/x.py" "pass") "a_x.py").
  intros fname v. unfold demo_checker; simpl.
  destruct (decide ("a_x.py" = fname)) as [<-|Hne].
  - rewrite lookup_singleton_eq. intros [= <-]. eauto.
  - rewrite lookup_singleton_ne by done. discriminate.
Defined.

(** ** check_global_data *)

(** C4: when the fingerprint of the global data differs from the stored
    one, the per-file mapping is emptied and the new fingerprint stored;
    when it is the same, the per-file mapping is untouched. *)
Theorem check_global_data_invalidates `{C : Collaborators}
    (c : IncrementalChecker.state) (data : list hashable) :
  let these_globals := hexdigest (fold_left update data Hasher_new) in
  let c' := IncrementalChecker.check_global_data c data in
  (IncrementalChecker.globals c <> VStr these_globals ->
   IncrementalChecker.files c' = ∅ /\
   IncrementalChecker.globals c' = VStr these_globals) /\
  (IncrementalChecker.globals c = VStr these_globals ->
   IncrementalChecker.files c' = IncrementalChecker.files c /\
   IncrementalChecker.globals c' = VStr these_globals).
Proof.
  intros these_globals c'. subst c'. unfold IncrementalChecker.check_global_data.
  fold these_globals. split; intros H.
  - apply py_eq_str_false in H. rewrite H. simpl. done.
  - pose proof H as H'. apply py_eq_str_true in H'. rewrite H'. simpl. done.
Qed.

Lemma check_global_data_invalidates_witness :
  (IncrementalChecker.files
     (IncrementalChecker.check_global_data (C := demo) demo_checker
        ["config"; "other template"]) = ∅ /\
   IncrementalChecker.globals
     (IncrementalChecker.check_global_data (C := demo) demo_checker
        ["config"; "other template"]) = VStr "config;other template") /\
  (IncrementalChecker.files
     (IncrementalChecker.check_global_data (C := demo) demo_checker
        ["config"; "template"]) = IncrementalChecker.files demo_checker /\
   IncrementalChecker.globals
     (IncrementalChecker.check_global_data (C := demo) demo_checker
        ["config"; "template"]) = VStr "config;template").
Proof.
  split.
  - apply (proj1 (check_global_data_invalidates (C := demo) demo_checker
                    ["config"; "other template"])).
    vm_compute. discriminate.
  - apply (proj2 (check_global_data_invalidates (C := demo) demo_checker
                    ["config"; "template"])).
    vm_compute. reflexivity.
Defined.

(** ** Writing the status file and reading it back *)

Section RoundTrip.
Context `{C : Collaborators}.
Import IncrementalChecker.

Lemma write_fileinfo_read_fileinfo (v v' : pyval) :
  write_fileinfo v = Ok v' -> read_fileinfo v' = Ok v.
Proof.
  unfold write_fileinfo. intros H.
  apply bind_Ok in H as (index & Hindex & H).
  apply bind_Ok in H as (nums & Hnums & H).
  apply bind_Ok in H as (args & Hargs & H).
  apply bind_Ok in H as (index' & Hindex' & H).
  destruct v as [| | | | | |d|]; try discriminate.
  destruct index as [| | | | | |di|]; try discriminate.
  destruct nums as [| | | | | | |n]; try discriminate.
  simpl in *.
  destruct (alist_get "index" d) as [x|] eqn:Ed; [|discriminate].
  injection Hindex as ->.
  destruct (alist_get "nums" di) as [y|] eqn:Edi; [|discriminate].
  injection Hnums as ->. injection Hargs as <-. injection Hindex' as <-.
  injection H as <-. destruct n as [ns nm nb np].
  unfold read_fileinfo; simpl.
  rewrite alist_get_set_eq; simpl. rewrite alist_get_set_eq; simpl.
  rewrite (alist_set_set "nums"), (alist_set_id _ _ _ Edi).
  by rewrite (alist_set_set "index"), (alist_set_id _ _ _ Ed).
Qed.

Lemma read_files_mapM_write (l l' : pydict) (acc : gmap string pyval) :
  mapM_values write_fileinfo l = Ok l' ->
  read_files l' acc = Ok (fold_left insert_item l acc).
Proof.
  revert l' acc. induction l as [|[k v] l IH]; intros l' acc H; simpl in *.
  - by injection H as <-.
  - apply bind_Ok in H as (v' & Hv & H).
    apply bind_Ok in H as (rest' & Hrest & [= <-]).
    simpl. rewrite (write_fileinfo_read_fileinfo _ _ Hv). simpl.
    by apply IH.
Qed.

Lemma fold_insert_lookup (l : pydict) (acc : gmap string pyval) (k : string) :
  NoDup l.*1 ->
  fold_left insert_item l acc !! k
  = match (list_to_map l : gmap string pyval) !! k with
    | Some v => Some v
    | None => acc !! k
    end.
Proof.
  revert acc. induction l as [|[k0 v0] l IH]; intros acc Hnd; simpl.
  - by rewrite lookup_empty.
  - apply NoDup_cons in Hnd as [Hnotin Hnd].
    rewrite IH by done. unfold insert_item; simpl.
    destruct (decide (k0 = k)) as [->|Hne].
    + rewrite (not_elem_of_list_to_map_1 _ _ Hnotin).
      by rewrite !lookup_insert_eq.
    + by rewrite !lookup_insert_ne.
Qed.

Lemma fold_insert_map_to_list (m : gmap string pyval) :
  fold_left insert_item (map_to_list m) ∅ = m.
Proof.
  apply map_eq. intros k.
  rewrite fold_insert_lookup by apply NoDup_fst_map_to_list.
  rewrite list_to_map_to_list, lookup_empty. by destruct (m !! k).
Qed.

(** A fresh checker that reads what [write] wrote holds the state that
    was written. *)
Lemma read_write (c c_after : state) (status : file_content) :
  write c = Ok (c_after, status) -> read init (Some status) = Ok c.
Proof.
  unfold write. intros H. apply bind_Ok in H as (files' & Hfiles & H).
  destruct (json_serializable _); [|discriminate].
  injection H as _ <-.
  unfold read; simpl. rewrite String.eqb_refl; simpl.
  rewrite (read_files_mapM_write _ _ _ Hfiles); simpl.
  rewrite fold_insert_map_to_list. by destruct c.
Qed.

End RoundTrip.

(** C7: after [write], a fresh checker that reads the status back under the
    same version and format skips a file whose computed fingerprint is the
    recorded one, and does not skip it when the computed fingerprint
    differs. *)
Theorem status_round_trip `{C : Collaborators}
    (c c_after : IncrementalChecker.state) (status : file_content)
    (rootname recorded : string) :
  IncrementalChecker.write c = Ok (c_after, status) ->
  IncrementalChecker.file_hash c rootname = Ok (VStr recorded) ->
  exists fresh,
    IncrementalChecker.read IncrementalChecker.init (Some status) = Ok fresh /\
    forall data fr,
      (IncrementalChecker.this_hash data fr = recorded ->
       exists c', IncrementalChecker.can_skip_file fresh data fr rootname
                  = Ok (true, c')) /\
      (IncrementalChecker.this_hash data fr <> recorded ->
       exists c', IncrementalChecker.can_skip_file fresh data fr rootname
                  = Ok (false, c')).
Proof.
  intros Hw Hh. exists c. split; [by eapply read_write |].
  intros data fr.
  destruct (can_skip_file_stored c data fr rootname _ Hh) as (c' & Hc & _).
  split; intros H; exists c'; rewrite Hc; f_equal; f_equal.
  - apply py_eq_str_true. by rewrite H.
  - apply py_eq_str_false. congruence.
Qed.

Lemma status_round_trip_witness :
  exists fresh,
    IncrementalChecker.read (C := demo) IncrementalChecker.init
      (Some demo_status) = Ok fresh /\
    forall data fr,
      (IncrementalChecker.this_hash (C := demo) data fr = "pass;1" ->
       exists c', IncrementalChecker.can_skip_file fresh data fr "a_x.py"
                  = Ok (true, c')) /\
      (IncrementalChecker.this_hash (C := demo) data fr <> "pass;1" ->
       exists c', IncrementalChecker.can_skip_file fresh data fr "a_x.py"
                  = Ok (false, c')).
Proof.
  eapply (status_round_trip (C := demo) demo_checker _ demo_status
            "a_x.py" "pass;1").
  - vm_compute. reflexivity.
  - vm_compute. reflexivity.
Defined.

(** ** The package tree: nodes and leaves *)

Lemma tree_info_ind' (P : tree_info -> Prop) :
  (forall n h r p cs, Forall (fun kc => P (snd kc)) cs -> P (TreeInfo n h r p cs)) ->
  forall t, P t.
Proof.
  intros H. fix IH 1. intros [n h r p cs]. apply H.
  induction cs as [|[k c] cs IHcs]; constructor; [apply IH | apply IHcs].
Qed.

(** *** Sums of Numbers *)

Lemma Numbers_add_assoc (a b c : Numbers) :
  Numbers_add (Numbers_add a b) c = Numbers_add a (Numbers_add b c).
Proof. destruct a, b, c; unfold Numbers_add; simpl; f_equal; lia. Qed.

Lemma Numbers_add_0_l (a : Numbers) : Numbers_add Numbers0 a = a.
Proof. destruct a; unfold Numbers_add; simpl; f_equal. Qed.

Lemma Numbers_add_0_r (a : Numbers) : Numbers_add a Numbers0 = a.
Proof. destruct a; unfold Numbers_add; simpl; f_equal; lia. Qed.

Lemma fold_add_start (l : list Numbers) (a : Numbers) :
  fold_left Numbers_add l a = Numbers_add a (fold_left Numbers_add l Numbers0).
Proof.
  revert a. induction l as [|x l IH]; intros a; simpl.
  - by rewrite Numbers_add_0_r.
  - rewrite (IH (Numbers_add a x)), (IH (Numbers_add Numbers0 x)).
    by rewrite Numbers_add_0_l, Numbers_add_assoc.
Qed.

Lemma py_sum_fold (l : list Numbers) :
  py_sum l = fold_left Numbers_add l Numbers0.
Proof. destruct l as [|x l]; simpl; [done |]. by rewrite Numbers_add_0_l. Qed.

Lemma py_sum_app (l1 l2 : list Numbers) :
  py_sum (l1 ++ l2)%list = Numbers_add (py_sum l1) (py_sum l2).
Proof.
  rewrite !py_sum_fold, fold_left_app.
  by rewrite (fold_add_start l2 (fold_left _ l1 _)).
Qed.

Lemma py_sum_cons (x : Numbers) (l : list Numbers) :
  py_sum (x :: l) = Numbers_add x (py_sum l).
Proof.
  change (x :: l) with ([x] ++ l)%list. by rewrite py_sum_app.
Qed.

(** The sum of the sums of the parts is the sum of the whole. *)
Lemma py_sum_flat_map {A} (f : A -> list Numbers) (l : list A) :
  py_sum (map (fun x => py_sum (f x)) l) = py_sum (flat_map f l).
Proof.
  induction l as [|x l IH]; [done |].
  cbn [map flat_map]. by rewrite py_sum_cons, py_sum_app, IH.
Qed.

(** *** The summation pass *)

Lemma flat_map_ext_Forall {A B} (f g : A -> list B) (l : list A) :
  Forall (fun x => f x = g x) l -> flat_map f l = flat_map g l.
Proof. induction 1; simpl; [done | congruence]. Qed.

Lemma map_flat_map {A B D} (g : B -> D) (f : A -> list B) (l : list A) :
  map g (flat_map f l) = flat_map (fun x => map g (f x)) l.
Proof. induction l; simpl; [done |]. by rewrite map_app, IHl. Qed.

Lemma _sum_branch_eq n h r p cs :
  Tree._sum_branch (TreeInfo n h r p cs) =
  TreeInfo
    (py_sum (map (fun kc => nums (snd kc))
                 (map (fun kc => (fst kc, sum_node (snd kc))) cs)))
    h r p (map (fun kc => (fst kc, sum_node (snd kc))) cs).
Proof.
  assert (map (fun kc : string * tree_info =>
                 let (k, c) := kc in
                 (k, if has_children c then Tree._sum_branch c else c)) cs
          = map (fun kc => (fst kc, sum_node (snd kc))) cs) as E.
  { apply map_ext. by intros [k c]. }
  rewrite <- E. reflexivity.
Qed.

Lemma sum_node_spec (t : tree_info) :
  summed (sum_node t) /\
  leaves (sum_node t) = leaves t /\
  nums (sum_node t) = py_sum (map nums (leaves t)).
Proof.
  induction t as [n h r p cs IH] using tree_info_ind'.
  destruct cs as [|kc cs].
  { unfold sum_node; simpl. split; [|done].
    intros node [<- | []]. discriminate. }
  set (cs0 := kc :: cs) in *.
  assert (sum_node (TreeInfo n h r p cs0)
          = TreeInfo
              (py_sum (map (fun kc => nums (snd kc))
                           (map (fun kc => (fst kc, sum_node (snd kc))) cs0)))
              h r p (map (fun kc => (fst kc, sum_node (snd kc))) cs0)) as E.
  { unfold sum_node. simpl has_children. cbv iota. apply _sum_branch_eq. }
  rewrite E. clear E.
  assert (leaves (TreeInfo n h r p cs0)
          = flat_map (fun kc => leaves (snd kc)) cs0) as El by reflexivity.
  rewrite El. clear El.
  set (cs' := map (fun kc => (fst kc, sum_node (snd kc))) cs0).
  assert (leaves
            (TreeInfo (py_sum (map (fun kc => nums (snd kc)) cs')) h r p cs')
          = flat_map (fun kc => leaves (snd kc)) cs') as El by reflexivity.
  rewrite El. clear El.
  assert (flat_map (fun kc => leaves (snd kc)) cs'
          = flat_map (fun kc => leaves (snd kc)) cs0) as Eleaves.
  { subst cs'. rewrite flat_map_concat_map, map_map, <- flat_map_concat_map.
    apply flat_map_ext_Forall. eapply Forall_impl; [exact IH |].
    intros x Hx. simpl. apply Hx. }
  split; [|split].
  - intros node [<- | Hin].
    + intros _. reflexivity.
    + apply in_flat_map in Hin as ([k c'] & Hc' & Hnode).
      subst cs'. apply in_map_iff in Hc' as ([k0 c] & [= <- <-] & Hc).
      rewrite List.Forall_forall in IH. apply (IH _ Hc). exact Hnode.
  - exact Eleaves.
  - cbn [nums]. subst cs'. rewrite map_map, map_flat_map.
    rewrite <- (py_sum_flat_map (fun kc => map nums (leaves (snd kc)))).
    f_equal. apply map_ext_Forall. eapply Forall_impl; [exact IH |].
    intros x Hx. simpl. apply Hx.
Qed.

Lemma sum_package_tree_eq (package_tree : list (string * tree_info)) :
  Tree.sum_package_tree package_tree
  = map (fun kt => (fst kt, sum_node (snd kt))) package_tree.
Proof. unfold Tree.sum_package_tree. apply map_ext. by intros [k t]. Qed.

(** C5: after [sum_package_tree], every node with children carries the sum
    of its children's Numbers, the leaves are the ones the tree had, and
    every root carries the sum of the Numbers of the leaves below it. *)
Theorem sum_package_tree_sums (package_tree : list (string * tree_info)) :
  let summed_tree := Tree.sum_package_tree package_tree in
  (forall k root node,
     In (k, root) summed_tree -> In node (nodes root) ->
     has_children node = true ->
     nums node = py_sum (map (fun kc => nums (snd kc)) (children node))) /\
  flat_map (fun kt => leaves (snd kt)) summed_tree
    = flat_map (fun kt => leaves (snd kt)) package_tree /\
  (forall k root,
     In (k, root) summed_tree -> nums root = py_sum (map nums (leaves root))).
Proof.
  cbv zeta. rewrite sum_package_tree_eq. split; [|split].
  - intros k root node Hroot Hnode Hch.
    apply in_map_iff in Hroot as ([k0 t] & [= <- <-] & _).
    by apply (proj1 (sum_node_spec t)).
  - rewrite flat_map_concat_map, map_map, <- flat_map_concat_map.
    apply flat_map_ext. intros [k t]. apply (sum_node_spec t).
  - intros k root Hroot.
    apply in_map_iff in Hroot as ([k0 t] & [= <- <-] & _). simpl.
    destruct (sum_node_spec t) as (_ & -> & ->). reflexivity.
Qed.

Lemma sum_package_tree_sums_witness :
  exists root node,
    In ("a", root) (Tree.sum_package_tree demo_tree) /\
    In node (nodes root) /\
    relative_filename node = "b" /\
    nums node = py_sum (map (fun kc => nums (snd kc)) (children node)) /\
    nums root = py_sum (map nums (leaves root)) /\
    n_statements (nums root) = 6.
Proof.
  eexists. eexists.
  split; [vm_compute; left; reflexivity |].
  split; [vm_compute; right; left; reflexivity |].
  split; [reflexivity |].
  split; [| split; [| reflexivity]].
  - eapply (proj1 (sum_package_tree_sums demo_tree) "a").
    + vm_compute. left. reflexivity.
    + vm_compute. right. left. reflexivity.
    + reflexivity.
  - apply (proj2 (proj2 (sum_package_tree_sums demo_tree)) "a").
    vm_compute. left. reflexivity.
Defined.

(** *** The merge pass *)

Lemma _merge_branch_folders_eq n h r p cs :
  Tree._merge_branch_folders (TreeInfo n h r p cs) =
  match merge_children cs with
  | [(path, child_info)] =>
      if has_children child_info then
        TreeInfo n h (sep_join r (relative_filename child_info)) p
                 (children child_info)
      else TreeInfo n h r p (merge_children cs)
  | _ => TreeInfo n h r p (merge_children cs)
  end.
Proof.
  assert (map (fun kc : string * tree_info =>
                 let (k, c) := kc in (k, Tree._merge_branch_folders c)) cs
          = merge_children cs) as E.
  { apply map_ext. by intros [k c]. }
  rewrite <- E. reflexivity.
Qed.

Lemma merge_leaf (t : tree_info) :
  has_children t = false -> Tree._merge_branch_folders t = t.
Proof. destruct t as [n h r p [|kc cs]]; [done | discriminate]. Qed.

Lemma merge_has_children (t : tree_info) :
  has_children (Tree._merge_branch_folders t) = has_children t.
Proof.
  destruct t as [n h r p cs]. rewrite _merge_branch_folders_eq.
  destruct cs as [|[k c] [|kc2 cs]]; [done | | done].
  cbn [merge_children map fst snd].
  destruct (has_children (Tree._merge_branch_folders c)) eqn:E; [|done].
  unfold has_children in *. cbn [children].
  by destruct (children (Tree._merge_branch_folders c)).
Qed.

(** A node that is not a single folder keeps its path; its children are
    merged in place. *)
Lemma merge_not_single_folder (t : tree_info) :
  ~ single_folder t ->
  Tree._merge_branch_folders t
  = set_children t (merge_children (children t)).
Proof.
  destruct t as [n h r p cs]. intros Hns. rewrite _merge_branch_folders_eq.
  destruct cs as [|[k c] [|kc2 cs]]; [done | | done].
  cbn [merge_children map fst snd]. rewrite merge_has_children.
  destruct (has_children c) eqn:E; [|done].
  exfalso. apply Hns. by exists k, c.
Qed.

(** A single folder is collapsed into its (already merged) child. *)
Lemma merge_single_folder (t : tree_info) (k : string) (c : tree_info) :
  children t = [(k, c)] -> has_children c = true ->
  Tree._merge_branch_folders t
  = TreeInfo (nums t) (html_filename t)
      (sep_join (relative_filename t)
                (relative_filename (Tree._merge_branch_folders c)))
      (is_package t)
      (children (Tree._merge_branch_folders c)).
Proof.
  destruct t as [n h r p cs]. cbn [children]. intros -> Hc.
  rewrite _merge_branch_folders_eq. cbn [merge_children map fst snd].
  by rewrite merge_has_children, Hc.
Qed.

Lemma merge_keeps_data (t : tree_info) :
  nums (Tree._merge_branch_folders t) = nums t /\
  html_filename (Tree._merge_branch_folders t) = html_filename t /\
  is_package (Tree._merge_branch_folders t) = is_package t.
Proof.
  destruct t as [n h r p cs]. rewrite _merge_branch_folders_eq.
  destruct (merge_children cs) as [|[k c] [|kc2 cs']]; [done | | done].
  by destruct (has_children c).
Qed.

Lemma leaves_children (t : tree_info) :
  leaves t = if has_children t
             then flat_map (fun kc => leaves (snd kc)) (children t)
             else [t].
Proof. by destruct t as [n h r p [|kc cs]]. Qed.

Lemma nodes_children (t : tree_info) :
  nodes t = t :: flat_map (fun kc => nodes (snd kc)) (children t).
Proof. by destruct t. Qed.

Lemma merge_leaves (t : tree_info) :
  leaves (Tree._merge_branch_folders t) = leaves t.
Proof.
  induction t as [n h r p cs IH] using tree_info_ind'.
  destruct (has_children (TreeInfo n h r p cs)) eqn:Hch.
  2:{ by rewrite merge_leaf. }
  rewrite (leaves_children (Tree._merge_branch_folders _)), merge_has_children, Hch.
  rewrite (leaves_children (TreeInfo _ _ _ _ _)), Hch. cbn [children].
  assert (flat_map (fun kc => leaves (snd kc)) (merge_children cs)
          = flat_map (fun kc => leaves (snd kc)) cs) as E.
  { unfold merge_children.
    rewrite flat_map_concat_map, map_map, <- flat_map_concat_map.
    by apply flat_map_ext_Forall. }
  rewrite <- E. rewrite _merge_branch_folders_eq.
  destruct (merge_children cs) as [|[k c] [|kc2 cs']] eqn:Em; [done | | done].
  destruct (has_children c) eqn:Ec; [|done].
  cbn [children flat_map snd]. rewrite app_nil_r.
  by rewrite leaves_children, Ec.
Qed.

Lemma merge_nodes (t node' : tree_info) :
  In node' (nodes (Tree._merge_branch_folders t)) ->
  exists node, In node (nodes t) /\ node' = Tree._merge_branch_folders node.
Proof.
  revert node'. induction t as [n h r p cs IH] using tree_info_ind'.
  intros node' Hin. rewrite nodes_children in Hin. destruct Hin as [<- | Hin].
  { eexists. split; [|reflexivity]. rewrite nodes_children. by left. }
  assert (exists kc, In kc (merge_children cs) /\ In node' (nodes (snd kc)))
    as ([k c'] & Hkc & Hnode).
  { rewrite _merge_branch_folders_eq in Hin.
    destruct (merge_children cs) as [|[k c] [|kc2 cs']] eqn:Em;
      [done | | by apply in_flat_map in Hin].
    destruct (has_children c) eqn:Ec; [| by apply in_flat_map in Hin].
    cbn [children] in Hin. exists (k, c). split; [by left |].
    rewrite nodes_children. by right. }
  apply in_map_iff in Hkc as ([k0 c] & [= <- <-] & Hc).
  rewrite List.Forall_forall in IH.
  destruct (IH _ Hc _ Hnode) as (node & Hn & ->).
  exists node. split; [|done].
  rewrite nodes_children. right. apply in_flat_map. by exists (k0, c).
Qed.

Lemma merge_single_folders_eq (package_tree : list (string * tree_info)) :
  Tree.merge_single_folders package_tree = merge_children package_tree.
Proof. unfold Tree.merge_single_folders. apply map_ext. by intros [k t]. Qed.

(** C10: merging keeps the leaves of the tree as they were, and every node
    of the merged tree is the merged form of a node of the tree, with the
    same Numbers, page name and package flag; its path changes only when it
    is a single folder that is collapsed. *)
Theorem merge_single_folders_preserves (package_tree : list (string * tree_info)) :
  let merged := Tree.merge_single_folders package_tree in
  flat_map (fun kt => leaves (snd kt)) merged
    = flat_map (fun kt => leaves (snd kt)) package_tree /\
  (forall k root' node',
     In (k, root') merged -> In node' (nodes root') ->
     exists root node,
       In (k, root) package_tree /\ In node (nodes root) /\
       node' = Tree._merge_branch_folders node /\
       nums node' = nums node /\
       html_filename node' = html_filename node /\
       is_package node' = is_package node /\
       (~ single_folder node ->
        relative_filename node' = relative_filename node /\
        children node' = merge_children (children node))).
Proof.
  cbv zeta. rewrite merge_single_folders_eq. split.
  - unfold merge_children.
    rewrite flat_map_concat_map, map_map, <- flat_map_concat_map.
    apply flat_map_ext. intros [k t]. apply merge_leaves.
  - intros k root' node' Hroot Hnode.
    apply in_map_iff in Hroot as ([k0 root] & [= <- <-] & Hroot).
    destruct (merge_nodes _ _ Hnode) as (node & Hn & ->).
    exists root, node. do 3 (split; [done |]).
    destruct (merge_keeps_data node) as (-> & -> & ->).
    do 3 (split; [done |]).
    intros Hns. by rewrite (merge_not_single_folder _ Hns).
Qed.

Lemma merge_single_folders_preserves_witness :
  exists root' node',
    In ("p", root') (Tree.merge_single_folders demo_folders) /\
    relative_filename root' = "p/q/r" /\
    In node' (nodes root') /\
    exists root node,
      In ("p", root) demo_folders /\ In node (nodes root) /\
      node' = Tree._merge_branch_folders node /\
      nums node' = nums node /\
      html_filename node' = html_filename node /\
      is_package node' = is_package node /\
      (~ single_folder node ->
       relative_filename node' = relative_filename node /\
       children node' = merge_children (children node)).
Proof.
  eexists. eexists.
  split; [vm_compute; left; reflexivity |].
  split; [reflexivity |].
  split; [vm_compute; right; left; reflexivity |].
  eapply (proj2 (merge_single_folders_preserves demo_folders) "p").
  - vm_compute. left. reflexivity.
  - vm_compute. right. left. reflexivity.
Defined.

(** ** Line classification *)

(** C6: each line of [data_for_file] gets at most one category, the first
    that applies among excluded, missing, partial branch (only with arcs)
    and executed; a line that is excluded and missing is excluded. *)
Theorem line_category_precedence (self : HtmlDataGeneration.state)
    (fr : FileReporter) (analysis : Analysis) (i : nat)
    (toks : list (string * string)) :
  fr_source_token_lines fr !! i = Some toks ->
  let lineno := Z.of_nat i + 1 in
  let partial :=
    HtmlDataGeneration.has_arcs self = true /\
    is_Some (missing_branch_arcs analysis !! lineno) in
  exists line,
    HtmlDataGeneration.lines (HtmlDataGeneration.data_for_file self fr analysis) !! i
      = Some line /\
    HtmlDataGeneration.number line = lineno /\
    let category := HtmlDataGeneration.line_category line in
    (lineno ∈ excluded analysis -> category = Some HtmlDataGeneration.exc) /\
    (lineno ∉ excluded analysis -> lineno ∈ missing analysis ->
     category = Some HtmlDataGeneration.mis) /\
    (lineno ∉ excluded analysis -> lineno ∉ missing analysis -> partial ->
     category = Some HtmlDataGeneration.par) /\
    (lineno ∉ excluded analysis -> lineno ∉ missing analysis -> ~ partial ->
     lineno ∈ statements analysis -> category = Some HtmlDataGeneration.run) /\
    (lineno ∉ excluded analysis -> lineno ∉ missing analysis -> ~ partial ->
     lineno ∉ statements analysis -> category = None).
Proof.
  intros Htoks lineno partial.
  exists (HtmlDataGeneration.data_for_line self analysis lineno toks).
  split.
  { unfold HtmlDataGeneration.data_for_file; simpl.
    by rewrite list_lookup_imap, Htoks. }
  assert (forall cat shorts longs,
            HtmlDataGeneration.mark_line self analysis lineno = (cat, shorts, longs) ->
            HtmlDataGeneration.number
              (HtmlDataGeneration.data_for_line self analysis lineno toks) = lineno /\
            HtmlDataGeneration.line_category
              (HtmlDataGeneration.data_for_line self analysis lineno toks) = cat)
    as Hline.
  { intros cat shorts longs E. unfold HtmlDataGeneration.data_for_line.
    rewrite E. by destruct (_ && _); [destruct (bool_decide _)|]. }
  destruct (HtmlDataGeneration.mark_line self analysis lineno)
    as [[cat shorts] longs] eqn:E.
  destruct (Hline _ _ _ eq_refl) as [Hnum Hcat].
  split; [done |]. cbv zeta. rewrite Hcat. clear Hline Hnum Hcat.
  unfold HtmlDataGeneration.mark_line in E.
  repeat case_bool_decide; simpl in E.
  all: try (destruct (HtmlDataGeneration.has_arcs self) eqn:Harcs; simpl in E).
  all: injection E as <- _ _.
  all: repeat split; intros; try done.
  all: subst partial; try tauto.
  all: try (exfalso; match goal with H : ~ (_ /\ _) |- _ => apply H end; by split).
  all: try (match goal with H : _ /\ _ |- _ => destruct H end; congruence).
Qed.

Lemma line_category_precedence_witness :
  let lineno := 2 in
  let partial :=
    HtmlDataGeneration.has_arcs demo_datagen = true /\
    is_Some (missing_branch_arcs demo_marked_analysis !! lineno) in
  exists line,
    HtmlDataGeneration.lines
      (HtmlDataGeneration.data_for_file demo_datagen demo_marked_fr
         demo_marked_analysis) !! 1%nat = Some line /\
    HtmlDataGeneration.number line = lineno /\
    let category := HtmlDataGeneration.line_category line in
    (lineno ∈ excluded demo_marked_analysis ->
     category = Some HtmlDataGeneration.exc) /\
    (lineno ∉ excluded demo_marked_analysis ->
     lineno ∈ missing demo_marked_analysis ->
     category = Some HtmlDataGeneration.mis) /\
    (lineno ∉ excluded demo_marked_analysis ->
     lineno ∉ missing demo_marked_analysis -> partial ->
     category = Some HtmlDataGeneration.par) /\
    (lineno ∉ excluded demo_marked_analysis ->
     lineno ∉ missing demo_marked_analysis -> ~ partial ->
     lineno ∈ statements demo_marked_analysis ->
     category = Some HtmlDataGeneration.run) /\
    (lineno ∉ excluded demo_marked_analysis ->
     lineno ∉ missing demo_marked_analysis -> ~ partial ->
     lineno ∉ statements demo_marked_analysis -> category = None).
Proof.
  apply (line_category_precedence demo_datagen demo_marked_fr
           demo_marked_analysis 1 [("nam", "b")]).
  reflexivity.
Defined.

(** ** The report pass *)

Lemma benign_Ok {A} (a : A) : benign (Ok a).
Proof. intros msg. discriminate. Qed.

Lemma benign_bind {A B} (m : result A) (f : A -> result B) :
  benign m -> (forall a, m = Ok a -> benign (f a)) -> benign (m ≫= f).
Proof.
  intros Hm Hf msg. destruct m as [a|e]; simpl.
  - by apply Hf.
  - intros [= ->]. by apply (Hm msg).
Qed.

Lemma benign_py_getitem v k : benign (py_getitem v k).
Proof. intros msg. destruct v; simpl; try discriminate. by destruct (alist_get k d). Qed.

Lemma benign_py_get v k d : benign (py_get v k d).
Proof. intros msg. destruct v; simpl; try discriminate. by destruct (alist_get k _). Qed.

Lemma benign_py_setitem v k x : benign (py_setitem v k x).
Proof. intros msg. destruct v; simpl; discriminate. Qed.

Lemma benign_py_items v : benign (py_items v).
Proof. intros msg. destruct v; simpl; discriminate. Qed.

Lemma benign_py_init_args v : benign (py_init_args v).
Proof. intros msg. destruct v; simpl; discriminate. Qed.

Lemma benign_Numbers_of_args v : benign (Numbers_of_args v).
Proof.
  intros msg. unfold Numbers_of_args.
  repeat (match goal with
          | |- context [match ?x with _ => _ end] => destruct x
          end; try discriminate).
Qed.

Create HintDb benign.
#[local] Hint Resolve benign_Ok benign_py_getitem benign_py_get benign_py_setitem
  benign_py_items benign_py_init_args benign_Numbers_of_args : benign.

Ltac benign_step :=
  match goal with
  | |- benign (_ ≫= _) => apply benign_bind; [| intros ? ?]
  | |- benign (if ?b then _ else _) => destruct b eqn:?
  | |- benign (match ?x with _ => _ end) => destruct x eqn:?
  | |- benign _ => solve [auto with benign]
  end.

Section ReportFacts.
Context `{C : Collaborators}.

Lemma benign_read c status_file : benign (IncrementalChecker.read c status_file).
Proof.
  unfold IncrementalChecker.read.
  destruct status_file as [[| | |v]|]; simpl; auto with benign; try done.
  assert (forall items acc, benign (IncrementalChecker.read_files items acc)) as Hfiles.
  { induction items as [|[k x] items IH]; intros acc; simpl; auto with benign.
    apply benign_bind; [|by intros].
    unfold IncrementalChecker.read_fileinfo. repeat benign_step. }
  repeat benign_step.
Qed.

Lemma benign_write c : benign (IncrementalChecker.write c).
Proof.
  unfold IncrementalChecker.write.
  apply benign_bind.
  - generalize (map_to_list (IncrementalChecker.files c)).
    induction l as [|[k x] l IH]; simpl; auto with benign.
    apply benign_bind.
    + unfold IncrementalChecker.write_fileinfo. repeat benign_step.
    + intros v' _. apply benign_bind; [done | auto with benign].
  - intros files' _. destruct (json_serializable _); [auto with benign |].
    intros msg. discriminate.
Qed.

Lemma benign_can_skip_file c data fr rootname :
  benign (IncrementalChecker.can_skip_file c data fr rootname).
Proof.
  unfold IncrementalChecker.can_skip_file, IncrementalChecker.file_hash,
    IncrementalChecker.set_file_hash.
  repeat benign_step.
Qed.

Lemma benign_add_module_to_tree r index_info :
  benign (HtmlReporter.add_module_to_tree r index_info).
Proof.
  unfold HtmlReporter.add_module_to_tree, HtmlReporter.as_index_info.
  repeat benign_step; intros msg; discriminate.
Qed.

Lemma benign_html_file r dir fr analysis :
  benign (HtmlReporter.html_file r dir fr analysis).
Proof.
  unfold HtmlReporter.html_file.
  destruct (_ && _); [auto with benign |].
  destruct (_ && _); [auto with benign |].
  apply benign_bind; [apply benign_can_skip_file |].
  intros [skip incr'] _. destruct skip.
  - apply benign_bind;
      [unfold IncrementalChecker.index_info; auto with benign |].
    intros index_info _.
    apply benign_bind; [apply benign_add_module_to_tree | auto with benign].
  - apply benign_bind; [apply benign_add_module_to_tree |].
    intros r' _. unfold IncrementalChecker.set_index_info.
    repeat benign_step.
Qed.

Lemma benign_html_files analyses r dir :
  benign (HtmlReporter.html_files r dir analyses).
Proof.
  revert r dir. induction analyses as [|[fr analysis] rest IH]; intros r dir; simpl.
  - auto with benign.
  - apply benign_bind; [apply benign_html_file |]. by intros [r' dir'] _.
Qed.

End ReportFacts.

Section ReportTotals.
Context `{C : Collaborators}.
Import HtmlReporter.

Lemma add_module_to_tree_all_files_nums r index_info r' :
  add_module_to_tree r index_info = Ok r' ->
  all_files_nums r' = all_files_nums r.
Proof.
  unfold add_module_to_tree. intros H.
  by apply bind_Ok in H as (info & _ & [= <-]).
Qed.

Lemma html_file_left_out r dir fr analysis :
  left_out r analysis ->
  html_file r dir fr analysis
  = Ok (append_nums r (numbers analysis),
        file_be_gone dir (flat_rootname (fr_relative_filename fr) +:+ ".html")).
Proof.
  unfold html_file. cbv zeta. cbn [append_nums skip_covered skip_empty].
  intros [(-> & -> & ->) | (-> & ->)]; simpl.
  - done.
  - by destruct (_ && _).
Qed.

Lemma html_file_appends r dir fr analysis r' dir' :
  html_file r dir fr analysis = Ok (r', dir') ->
  all_files_nums r' = (all_files_nums r ++ [numbers analysis])%list.
Proof.
  unfold html_file. cbv zeta.
  destruct (_ && _); [by intros [= <- _] |].
  destruct (_ && _); [by intros [= <- _] |].
  intros H. apply bind_Ok in H as ([skip incr'] & _ & H).
  destruct skip.
  - apply bind_Ok in H as (index_info & _ & H).
    apply bind_Ok in H as (r1 & Hr1 & [= <- _]).
    by rewrite (add_module_to_tree_all_files_nums _ _ _ Hr1).
  - apply bind_Ok in H as (r1 & Hr1 & H).
    apply bind_Ok in H as (incr1 & _ & [= <- _]).
    cbn [set_incr all_files_nums].
    by rewrite (add_module_to_tree_all_files_nums _ _ _ Hr1).
Qed.

Lemma html_files_appends analyses r dir r' dir' :
  html_files r dir analyses = Ok (r', dir') ->
  all_files_nums r'
  = (all_files_nums r ++ map (fun fa => numbers (snd fa)) analyses)%list.
Proof.
  revert r dir. induction analyses as [|[fr analysis] rest IH]; intros r dir; simpl.
  - intros [= <- _]. by rewrite app_nil_r.
  - intros H. apply bind_Ok in H as ([r1 dir1] & H1 & H).
    rewrite (IH _ _ H), (html_file_appends _ _ _ _ _ _ H1).
    by rewrite <- app_assoc.
Qed.

(** What [report] does once the status is read and the files processed. *)
Lemma report_Ok_inv r dir analyses r' dir' :
  report r dir analyses = Ok (r', dir') ->
  exists r1 dir1 incr1,
    html_files (set_incr r incr1) dir analyses = Ok (r1, dir1) /\
    all_files_nums r1 <> [] /\
    all_files_nums r' = all_files_nums r1 /\
    file_summaries r' = file_summaries r1 /\
    totals r' = py_sum (all_files_nums r1).
Proof.
  unfold report. intros H. apply bind_Ok in H as (incr0 & _ & H).
  apply bind_Ok in H as ([r1 dir1] & H1 & H).
  exists r1, dir1, (IncrementalChecker.check_global_data incr0
                      [config r; pyfile_html_source r]).
  split; [done |].
  destruct (all_files_nums r1) as [|x l] eqn:E; [discriminate |].
  apply bind_Ok in H as ([incr2 status] & _ & [= <- _]).
  cbn. by rewrite E.
Qed.

End ReportTotals.

(** C9: [html_file] appends the file's Numbers before it looks at
    [skip_covered] and [skip_empty]; a file left out by either is added to
    neither the index summaries nor the package tree, and the totals of a
    finished report are the sum over every analysed file. *)
Theorem skipped_files_count_in_totals `{C : Collaborators} :
  (forall r dir fr analysis r' dir',
     HtmlReporter.html_file r dir fr analysis = Ok (r', dir') ->
     HtmlReporter.all_files_nums r'
     = (HtmlReporter.all_files_nums r ++ [numbers analysis])%list) /\
  (forall r dir fr analysis,
     left_out r analysis ->
     exists r' dir',
       HtmlReporter.html_file r dir fr analysis = Ok (r', dir') /\
       HtmlReporter.all_files_nums r'
       = (HtmlReporter.all_files_nums r ++ [numbers analysis])%list /\
       HtmlReporter.file_summaries r' = HtmlReporter.file_summaries r /\
       HtmlReporter.package_tree r' = HtmlReporter.package_tree r) /\
  (forall r dir analyses r' dir',
     HtmlReporter.all_files_nums r = [] ->
     HtmlReporter.report r dir analyses = Ok (r', dir') ->
     HtmlReporter.totals r'
     = py_sum (map (fun fa => numbers (snd fa)) analyses)).
Proof.
  split; [|split].
  - intros r dir fr analysis r' dir'. apply html_file_appends.
  - intros r dir fr analysis Hout. do 2 eexists.
    split; [by apply html_file_left_out |]. done.
  - intros r dir analyses r' dir' Hfresh H.
    apply report_Ok_inv in H as (r1 & dir1 & incr1 & H1 & _ & _ & _ & ->).
    apply html_files_appends in H1. rewrite H1. cbn. by rewrite Hfresh.
Qed.

Lemma skipped_files_count_in_totals_witness :
  (exists r' dir',
     HtmlReporter.html_file (C := demo) (demo_reporter true false) empty_dir
       (fst demo_covered) (snd demo_covered) = Ok (r', dir') /\
     HtmlReporter.all_files_nums r' = [mkNumbers 1 0 0 0] /\
     HtmlReporter.file_summaries r' = [] /\
     HtmlReporter.package_tree r' = []) /\
  (exists r' dir',
     HtmlReporter.report (C := demo) (demo_reporter true false) empty_dir
       [demo_covered; demo_uncovered] = Ok (r', dir') /\
     HtmlReporter.totals r' = mkNumbers 3 1 0 0 /\
     length (HtmlReporter.file_summaries r') = 1%nat /\
     map fst (HtmlReporter.package_tree r') = ["a"]).
Proof.
  destruct (skipped_files_count_in_totals (C := demo)) as (H1 & H2 & H3).
  split.
  - apply (H2 (demo_reporter true false) empty_dir
              (fst demo_covered) (snd demo_covered)).
    left. repeat split; reflexivity.
  - do 2 eexists. split; [vm_compute; reflexivity |].
    split; [| split; reflexivity].
    eapply (H3 (demo_reporter true false) empty_dir [demo_covered; demo_uncovered]).
    + reflexivity.
    + vm_compute. reflexivity.
Defined.




(** * Further properties *)

(** ** Building the package tree *)

Lemma alist_get_set_ne {A} (k k' : string) (x : A) (d : list (string * A)) :
  k <> k' -> alist_get k' (alist_set k x d) = alist_get k' d.
Proof.
  intros Hne. induction d as [|[k0 v0] d IH]; simpl.
  - destruct (String.eqb k k') eqn:E; [|done].
    apply String.eqb_eq in E. done.
  - destruct (String.eqb k0 k) eqn:E; simpl.
    + apply String.eqb_eq in E. subst k0.
      destruct (String.eqb k k') eqn:E'; [|done].
      apply String.eqb_eq in E'. done.
    + by rewrite IH.
Qed.

Lemma split_not_nil (sep : ascii) (s : string) : split sep s <> [].
Proof.
  destruct s as [|c s]; simpl; [done |].
  destruct (Ascii.eqb c sep); [done |]. by destruct (split sep s).
Qed.

(** A path without separator is its own single segment. *)
Lemma split_singleton (sep : ascii) (s r : string) :
  split sep s = [r] -> r = s.
Proof.
  revert r. induction s as [|c s IH]; intros r; simpl.
  - by intros [= <-].
  - destruct (Ascii.eqb c sep).
    + intros [= _ H]. by apply split_not_nil in H.
    + destruct (split sep s) as [|x xs] eqn:E; [by apply split_not_nil in E |].
      intros [= <- ->]. f_equal. by apply IH.
Qed.

Lemma tree_find_cons r rest forest :
  tree_find (r :: rest) forest
  = match alist_get r forest with
    | None => None
    | Some t => match rest with
                | [] => Some t
                | _ :: _ => tree_find rest (children t)
                end
    end.
Proof. reflexivity. Qed.

Lemma _add_module_to_branch_cons parent r rest leaf :
  Tree._add_module_to_branch parent (r :: rest) leaf
  = set_children parent
      (alist_set r
         (let branch :=
            match alist_get r (children parent) with
            | Some branch => branch
            | None => match rest with
                      | [] => set_relative_filename leaf r
                      | _ :: _ => Tree._new_branch r
                      end
            end in
          match rest with
          | [] => branch
          | _ :: _ => Tree._add_module_to_branch branch rest leaf
          end)
         (children parent)).
Proof. reflexivity. Qed.

Lemma tree_find_add_branch (rest : list string) (parent leaf : tree_info) :
  rest <> [] ->
  tree_find rest (children (Tree._add_module_to_branch parent rest leaf))
  = Some (default (set_relative_filename leaf (List.last rest ""))
                  (tree_find rest (children parent))).
Proof.
  revert parent. induction rest as [|r rest IH]; intros parent Hne; [done |].
  rewrite _add_module_to_branch_cons. cbn [children set_children].
  rewrite !tree_find_cons, alist_get_set_eq.
  destruct rest as [|r' rest'].
  - cbv zeta. by destruct (alist_get r (children parent)).
  - cbv zeta. rewrite IH by done.
    change (List.last (r :: r' :: rest') "") with (List.last (r' :: rest') "").
    by destruct (alist_get r (children parent)).
Qed.

Lemma tree_find_add_branch_other (rest q : list string) (parent leaf : tree_info) :
  children leaf = [] -> rest <> [] -> ~ q `prefix_of` rest ->
  tree_find q (children (Tree._add_module_to_branch parent rest leaf))
  = tree_find q (children parent).
Proof.
  intros Hleaf. revert parent q.
  induction rest as [|r rest IH]; intros parent q Hne Hq; [done |].
  rewrite _add_module_to_branch_cons. cbn [children set_children].
  destruct q as [|s q']; [done |].
  rewrite !tree_find_cons.
  destruct (decide (r = s)) as [<-|Hrs].
  2:{ by rewrite alist_get_set_ne. }
  rewrite alist_get_set_eq.
  assert (~ q' `prefix_of` rest) as Hq'.
  { intros Hp. apply Hq. by apply prefix_cons. }
  destruct q' as [|s' q'']; [exfalso; apply Hq'; apply prefix_nil |].
  destruct rest as [|r' rest'].
  - cbv zeta. destruct (alist_get r (children parent)); [done |].
    cbn [set_relative_filename children]. by rewrite Hleaf.
  - cbv zeta. rewrite IH by done.
    by destruct (alist_get r (children parent)).
Qed.

Lemma add_branch_present (rest : list string) (parent leaf old : tree_info) :
  tree_find rest (children parent) = Some old ->
  Tree._add_module_to_branch parent rest leaf = parent.
Proof.
  revert parent. induction rest as [|r rest IH]; intros parent H; [done |].
  rewrite _add_module_to_branch_cons. rewrite tree_find_cons in H.
  destruct (alist_get r (children parent)) as [b|] eqn:E; [|done].
  destruct rest as [|r' rest'].
  - cbv zeta. rewrite (alist_set_id _ _ _ E). by destruct parent.
  - cbv zeta. rewrite (IH _ H), (alist_set_id _ _ _ E). by destruct parent.
Qed.

(** The root dict is extended the way the children of a node are. *)
Lemma add_module_to_tree_as_branch (package_tree : list (string * tree_info))
    (index_info : IndexInfo) :
  Tree.add_module_to_tree package_tree index_info
  = children
      (Tree._add_module_to_branch (TreeInfo Numbers0 "" "" true package_tree)
         (tree_path index_info)
         (leaf_of index_info (info_relative_filename index_info))).
Proof.
  unfold Tree.add_module_to_tree, tree_path. cbn [relative_filename].
  destruct (split path_sep (info_relative_filename index_info))
    as [|r rest] eqn:E; [by apply split_not_nil in E |].
  rewrite _add_module_to_branch_cons. cbn [children set_children].
  destruct rest as [|r' rest']; [|done].
  apply split_singleton in E. by subst r.
Qed.

(** X1: after [add_module_to_tree] the file is found under the segments of
    its relative path: as a leaf with its Numbers and page name, named by
    the last segment, or as the node that was already there; a lookup
    along any path that is not a prefix of the file's path is unchanged. *)
Theorem add_module_to_tree_lookup (package_tree : list (string * tree_info))
    (index_info : IndexInfo) :
  let path := tree_path index_info in
  let tree' := Tree.add_module_to_tree package_tree index_info in
  tree_find path tree'
  = Some (default (leaf_of index_info (List.last path ""))
                  (tree_find path package_tree)) /\
  forall q, ~ q `prefix_of` path -> tree_find q tree' = tree_find q package_tree.
Proof.
  cbv zeta. rewrite add_module_to_tree_as_branch. split.
  - by rewrite tree_find_add_branch by apply split_not_nil.
  - intros q Hq.
    by rewrite tree_find_add_branch_other by (done || apply split_not_nil).
Qed.

Lemma add_module_to_tree_lookup_witness :
  let info := demo_info "a/b/new.py" 7 in
  let tree' := Tree.add_module_to_tree demo_tree info in
  tree_find ["a"; "b"; "new.py"] tree' = Some (leaf_of info "new.py") /\
  tree_find ["a"; "b"; "x.py"] tree' = tree_find ["a"; "b"; "x.py"] demo_tree.
Proof.
  cbv zeta.
  destruct (add_module_to_tree_lookup demo_tree (demo_info "a/b/new.py" 7))
    as [H1 H2].
  split; [exact H1 |].
  apply H2. intros [k Hk]. vm_compute in Hk. discriminate Hk.
Defined.

(** X2: a path that is already in the tree is never replaced: adding an
    index entry whose path is taken leaves the tree as it is, so adding the
    same entry twice is the same as adding it once. *)
Theorem add_module_to_tree_first_wins (package_tree : list (string * tree_info))
    (index_info : IndexInfo) :
  (forall old,
     tree_find (tree_path index_info) package_tree = Some old ->
     Tree.add_module_to_tree package_tree index_info = package_tree) /\
  Tree.add_module_to_tree
    (Tree.add_module_to_tree package_tree index_info) index_info
  = Tree.add_module_to_tree package_tree index_info.
Proof.
  assert (forall pt old,
            tree_find (tree_path index_info) pt = Some old ->
            Tree.add_module_to_tree pt index_info = pt) as H.
  { intros pt old Hold. rewrite add_module_to_tree_as_branch.
    by rewrite (add_branch_present _ _ _ old). }
  split; [apply H |].
  eapply H. apply add_module_to_tree_lookup.
Qed.

Lemma add_module_to_tree_first_wins_witness :
  Tree.add_module_to_tree demo_tree (demo_info "a/b/x.py" 100) = demo_tree.
Proof.
  eapply (proj1 (add_module_to_tree_first_wins demo_tree
                   (demo_info "a/b/x.py" 100))).
  vm_compute. reflexivity.
Defined.

(** ** The merge pass: normal form, idempotence, display paths *)

Lemma nodes_self (t : tree_info) : In t (nodes t).
Proof. rewrite nodes_children. by left. Qed.

Lemma nodes_child (t node : tree_info) (k : string) (c : tree_info) :
  In (k, c) (children t) -> In node (nodes c) -> In node (nodes t).
Proof.
  intros Hc Hn. rewrite nodes_children. right.
  apply in_flat_map. by exists (k, c).
Qed.

Lemma nodes_trans (t node n : tree_info) :
  In node (nodes t) -> In n (nodes node) -> In n (nodes t).
Proof.
  revert node n. induction t as [nu h r p cs IH] using tree_info_ind'.
  intros node n Hnode Hn. rewrite nodes_children in Hnode.
  destruct Hnode as [<- | Hnode]; [done |].
  apply in_flat_map in Hnode as ([k c] & Hc & Hnode).
  rewrite List.Forall_forall in IH.
  apply (nodes_child _ _ k c Hc). by apply (IH _ Hc node).
Qed.

Lemma single_folder_children (t t' : tree_info) :
  children t = children t' -> single_folder t -> single_folder t'.
Proof. intros E (k & c & Hc & Hch). exists k, c. by rewrite <- E. Qed.

(** The shape of a merged node, by cases on its merged children. *)
Lemma merge_cases (t : tree_info) :
  (exists k c,
     children t = [(k, c)] /\ has_children c = true /\
     children (Tree._merge_branch_folders t)
     = children (Tree._merge_branch_folders c)) \/
  (~ single_folder t /\
   Tree._merge_branch_folders t = set_children t (merge_children (children t))).
Proof.
  destruct (has_children t) eqn:Ht.
  2:{ right. assert (~ single_folder t) as Hns.
      { intros (k & c & Hc & _). unfold has_children in Ht. by rewrite Hc in Ht. }
      split; [done |]. by apply merge_not_single_folder. }
  destruct (children t) as [|[k c] [|kc2 cs]] eqn:Ec.
  - unfold has_children in Ht. by rewrite Ec in Ht.
  - destruct (has_children c) eqn:Hc.
    + left. exists k, c. split; [done |]. split; [done |].
      by rewrite (merge_single_folder t k c Ec Hc).
    + right. assert (~ single_folder t) as Hns.
      { intros (k' & c' & Hc' & Hch'). rewrite Ec in Hc'.
        injection Hc' as <- <-. congruence. }
      split; [done |]. rewrite <- Ec. by apply merge_not_single_folder.
  - right. assert (~ single_folder t) as Hns.
    { intros (k' & c' & Hc' & _). by rewrite Ec in Hc'. }
    split; [done |]. rewrite <- Ec. by apply merge_not_single_folder.
Qed.

Lemma merge_is_merged (t : tree_info) : merged (Tree._merge_branch_folders t).
Proof.
  induction t as [n h r p cs IH] using tree_info_ind'.
  rewrite List.Forall_forall in IH.
  destruct (merge_cases (TreeInfo n h r p cs))
    as [(k & c & Ec & Hc & Echildren) | (Hns & Em)].
  - cbn [children] in Ec. subst cs.
    assert (merged (Tree._merge_branch_folders c)) as Hm.
    { apply (IH (k, c)). by left. }
    intros node Hnode. rewrite nodes_children in Hnode.
    destruct Hnode as [<- | Hnode].
    + intros Hs. apply (Hm _ (nodes_self _)).
      by apply (single_folder_children _ _ Echildren).
    + apply Hm. rewrite nodes_children. right. by rewrite <- Echildren.
  - intros node Hnode. rewrite Em, nodes_children in Hnode.
    destruct Hnode as [<- | Hnode].
    + intros (k & c' & Hc' & Hch). cbn [children set_children] in Hc'.
      destruct cs as [|[k0 c0] [|kc2 cs']]; try done.
      cbn [merge_children map fst snd] in Hc'. injection Hc' as <- <-.
      apply Hns. exists k0, c0. split; [done |]. by rewrite <- merge_has_children.
    + cbn [children set_children] in Hnode.
      apply in_flat_map in Hnode as ([k c'] & Hc' & Hnode).
      apply in_map_iff in Hc' as ([k0 c] & [= <- <-] & Hc).
      by apply (IH _ Hc).
Qed.

Lemma merge_of_merged (t : tree_info) :
  merged t -> Tree._merge_branch_folders t = t.
Proof.
  induction t as [n h r p cs IH] using tree_info_ind'. intros Hm.
  rewrite merge_not_single_folder by apply Hm, nodes_self.
  unfold set_children; cbn. f_equal.
  unfold merge_children. rewrite <- (map_id cs) at 2.
  apply map_ext_Forall. rewrite List.Forall_forall in IH |- *.
  intros [k c] Hc. cbn. f_equal. apply (IH _ Hc).
  intros node Hnode. apply Hm. by apply (nodes_child _ _ k c).
Qed.

(** C2: the merge pass visits every node, children first.  A node with
    exactly one child that has children of its own is collapsed into that
    (already merged) child: it takes the child's children and its path
    becomes its own path joined to the child's, while its Numbers, page
    name and package flag stay; a node whose single child is a leaf is left
    as it is; every other node keeps its own fields and has each of its
    children merged in place; and [merge_single_folders] does this to every
    root.  So in the merged tree no node, at any depth, is left with a
    single child that has children.  The two examples of the spec follow:
    the paths a/b/c/f1.py and a/b/c/f2.py give one root with path a/b/c and
    two leaves; the paths a/f1.py and a/b/f2.py keep the root a with the
    leaf f1.py and the folder b.  A folder below a root with several
    children is collapsed as well: with lib/top.py, lib/x/y/f.py and
    lib/x/y/g.py the root lib keeps top.py and shows the folder x/y. *)
Theorem merge_collapses_single_folders :
  (forall t k c,
     children t = [(k, c)] -> has_children c = true ->
     let t' := Tree._merge_branch_folders t in
     let c' := Tree._merge_branch_folders c in
     children t' = children c' /\
     relative_filename t' = sep_join (relative_filename t) (relative_filename c') /\
     nums t' = nums t /\ html_filename t' = html_filename t /\
     is_package t' = is_package t) /\
  (forall t k c,
     children t = [(k, c)] -> has_children c = false ->
     Tree._merge_branch_folders t = t) /\
  (forall t,
     ~ single_folder t ->
     Tree._merge_branch_folders t
     = set_children t
         (map (fun kc => (fst kc, Tree._merge_branch_folders (snd kc)))
              (children t))) /\
  (forall package_tree,
     Tree.merge_single_folders package_tree
     = map (fun kt => (fst kt, Tree._merge_branch_folders (snd kt))) package_tree) /\
  (forall package_tree k root node,
     In (k, root) (Tree.merge_single_folders package_tree) ->
     In node (nodes root) -> ~ single_folder node) /\
  (forall i1 i2,
     info_relative_filename i1 = "a/b/c/f1.py" ->
     info_relative_filename i2 = "a/b/c/f2.py" ->
     exists root leaf1 leaf2,
       Tree.merge_single_folders
         (Tree.sum_package_tree (build_tree [i1; i2])) = [("a", root)] /\
       relative_filename root = "a/b/c" /\
       children root = [("f1.py", leaf1); ("f2.py", leaf2)] /\
       has_children leaf1 = false /\ has_children leaf2 = false) /\
  (forall i1 i2,
     info_relative_filename i1 = "a/f1.py" ->
     info_relative_filename i2 = "a/b/f2.py" ->
     exists root leaf1 folder leaf2,
       Tree.merge_single_folders
         (Tree.sum_package_tree (build_tree [i1; i2])) = [("a", root)] /\
       relative_filename root = "a" /\
       children root = [("f1.py", leaf1); ("b", folder)] /\
       has_children leaf1 = false /\
       relative_filename folder = "b" /\
       children folder = [("f2.py", leaf2)] /\
       has_children leaf2 = false) /\
  (forall i1 i2 i3,
     info_relative_filename i1 = "lib/top.py" ->
     info_relative_filename i2 = "lib/x/y/f.py" ->
     info_relative_filename i3 = "lib/x/y/g.py" ->
     exists root top folder leaf1 leaf2,
       Tree.merge_single_folders
         (Tree.sum_package_tree (build_tree [i1; i2; i3])) = [("lib", root)] /\
       relative_filename root = "lib" /\
       children root = [("top.py", top); ("x", folder)] /\
       has_children top = false /\
       relative_filename folder = "x/y" /\
       children folder = [("f.py", leaf1); ("g.py", leaf2)] /\
       has_children leaf1 = false /\ has_children leaf2 = false).
Proof.
  split; [|split; [|split; [|split; [|split; [|split; [|split]]]]]].
  - intros t k c Ht Hc. cbv zeta.
    by rewrite (merge_single_folder t k c Ht Hc).
  - intros [n h r p cs] k c Ht Hc. cbn [children] in Ht. subst cs.
    rewrite _merge_branch_folders_eq. cbn [merge_children map fst snd].
    by rewrite merge_has_children, Hc, (merge_leaf c Hc).
  - intros t Ht. by apply merge_not_single_folder.
  - intros package_tree. apply merge_single_folders_eq.
  - intros package_tree k root node Hroot Hnode.
    rewrite merge_single_folders_eq in Hroot.
    apply in_map_iff in Hroot as ([k0 t] & [= <- <-] & _).
    by apply (merge_is_merged t).
  - intros [n1 h1 r1] [n2 h2 r2]; simpl; intros -> ->.
    do 3 eexists. vm_compute. repeat split.
  - intros [n1 h1 r1] [n2 h2 r2]; simpl; intros -> ->.
    do 4 eexists. vm_compute. repeat split.
  - intros [n1 h1 r1] [n2 h2 r2] [n3 h3 r3]; simpl; intros -> -> ->.
    do 5 eexists. vm_compute. repeat split.
Qed.

Lemma merge_collapses_single_folders_witness :
  let leaf := demo_leaf "f.py" "x_y_f.py.html" 1 in
  let y := demo_folder "y" [("f.py", leaf)] in
  let x := demo_folder "x" [("y", y)] in
  let lib := demo_folder "lib" [("top.py", demo_leaf "top.py" "t.html" 2); ("x", x)] in
  (children (Tree._merge_branch_folders x) = [("f.py", leaf)] /\
   relative_filename (Tree._merge_branch_folders x) = "x/y" /\
   nums (Tree._merge_branch_folders x) = nums x /\
   html_filename (Tree._merge_branch_folders x) = html_filename x /\
   is_package (Tree._merge_branch_folders x) = is_package x) /\
  Tree._merge_branch_folders y = y /\
  Tree._merge_branch_folders lib
  = demo_folder "lib"
      [("top.py", demo_leaf "top.py" "t.html" 2);
       ("x", demo_folder "x/y" [("f.py", leaf)])] /\
  (exists root leaf1 leaf2,
     Tree.merge_single_folders
       (Tree.sum_package_tree
          (build_tree [demo_info "a/b/c/f1.py" 1; demo_info "a/b/c/f2.py" 2]))
       = [("a", root)] /\
     relative_filename root = "a/b/c" /\
     children root = [("f1.py", leaf1); ("f2.py", leaf2)] /\
     has_children leaf1 = false /\ has_children leaf2 = false) /\
  (exists root leaf1 folder leaf2,
     Tree.merge_single_folders
       (Tree.sum_package_tree
          (build_tree [demo_info "a/f1.py" 1; demo_info "a/b/f2.py" 2]))
       = [("a", root)] /\
     relative_filename root = "a" /\
     children root = [("f1.py", leaf1); ("b", folder)] /\
     has_children leaf1 = false /\
     relative_filename folder = "b" /\
     children folder = [("f2.py", leaf2)] /\
     has_children leaf2 = false).
Proof.
  cbv zeta.
  destruct merge_collapses_single_folders
    as (H1 & H2 & H3 & _ & _ & H6 & H7 & _).
  split; [|split; [|split; [|split]]].
  - apply (H1 (demo_folder "x" [("y", demo_folder "y"
                 [("f.py", demo_leaf "f.py" "x_y_f.py.html" 1)])]) "y"
              (demo_folder "y" [("f.py", demo_leaf "f.py" "x_y_f.py.html" 1)]));
      reflexivity.
  - apply (H2 _ "f.py" (demo_leaf "f.py" "x_y_f.py.html" 1)); reflexivity.
  - rewrite H3; [reflexivity |].
    intros (k & c & Hc & _). discriminate Hc.
  - apply H6; reflexivity.
  - apply H7; reflexivity.
Defined.

(** X3: after [merge_single_folders] no node of the tree, at any depth, has
    a single child with children of its own, and merging again changes
    nothing. *)
Theorem merge_single_folders_normal_form (package_tree : list (string * tree_info)) :
  let merged_tree := Tree.merge_single_folders package_tree in
  (forall k root node,
     In (k, root) merged_tree -> In node (nodes root) -> ~ single_folder node) /\
  Tree.merge_single_folders merged_tree = merged_tree.
Proof.
  cbv zeta. rewrite !merge_single_folders_eq. split.
  - intros k root node Hroot Hnode.
    apply in_map_iff in Hroot as ([k0 t] & [= <- <-] & _).
    by apply (merge_is_merged t).
  - unfold merge_children. rewrite map_map. apply map_ext.
    intros [k t]. cbn. f_equal. apply merge_of_merged, merge_is_merged.
Qed.

Lemma merge_single_folders_normal_form_witness :
  exists root,
    In ("p", root) (Tree.merge_single_folders demo_folders) /\
    relative_filename root = "p/q/r" /\ ~ single_folder root.
Proof.
  eexists. split; [vm_compute; left; reflexivity |]. split; [reflexivity |].
  eapply (proj1 (merge_single_folders_normal_form demo_folders) "p").
  - vm_compute. left. reflexivity.
  - vm_compute. left. reflexivity.
Defined.

Lemma string_append_assoc (a b c : string) : (a +:+ b) +:+ c = a +:+ b +:+ c.
Proof.
  induction a as [|x a IH]; [done |].
  change (String x ((a +:+ b) +:+ c) = String x (a +:+ b +:+ c)).
  by rewrite IH.
Qed.

Lemma sep_join_assoc (a b c : string) :
  sep_join a (sep_join b c) = sep_join (sep_join a b) c.
Proof.
  unfold sep_join. rewrite !string_append_assoc. reflexivity.
Qed.

Lemma leaf_paths_children (t : tree_info) :
  leaf_paths t
  = if has_children t
    then map (fun pl => (sep_join (relative_filename t) (fst pl), snd pl))
             (flat_map (fun kc => leaf_paths (snd kc)) (children t))
    else [(relative_filename t, t)].
Proof. by destruct t as [n h r p [|kc cs]]. Qed.

Lemma merge_leaf_paths (t : tree_info) :
  leaf_paths (Tree._merge_branch_folders t) = leaf_paths t.
Proof.
  induction t as [n h r p cs IH] using tree_info_ind'.
  destruct (has_children (TreeInfo n h r p cs)) eqn:Hch.
  2:{ by rewrite merge_leaf. }
  rewrite (leaf_paths_children (Tree._merge_branch_folders _)), merge_has_children, Hch.
  rewrite (leaf_paths_children (TreeInfo _ _ _ _ _)), Hch.
  cbn [children relative_filename].
  assert (flat_map (fun kc => leaf_paths (snd kc)) (merge_children cs)
          = flat_map (fun kc => leaf_paths (snd kc)) cs) as E.
  { unfold merge_children.
    rewrite flat_map_concat_map, map_map, <- flat_map_concat_map.
    by apply flat_map_ext_Forall. }
  rewrite <- E. rewrite _merge_branch_folders_eq.
  destruct (merge_children cs) as [|[k c] [|kc2 cs']] eqn:Em; [done | | done].
  destruct (has_children c) eqn:Ec; [|done].
  cbn [children relative_filename flat_map snd]. rewrite app_nil_r.
  rewrite (leaf_paths_children c), Ec, map_map.
  apply map_ext. intros [path leaf]. cbn. by rewrite sep_join_assoc.
Qed.

(** X4: merging keeps the display path of every file: for each leaf, the
    paths of the nodes from its root down to it, joined by the separator,
    spell the same string before and after [merge_single_folders]. *)
Theorem merge_single_folders_keeps_leaf_paths
    (package_tree : list (string * tree_info)) :
  flat_map (fun kt => leaf_paths (snd kt)) (Tree.merge_single_folders package_tree)
  = flat_map (fun kt => leaf_paths (snd kt)) package_tree.
Proof.
  rewrite merge_single_folders_eq. unfold merge_children.
  rewrite flat_map_concat_map, map_map, <- flat_map_concat_map.
  apply flat_map_ext. intros [k t]. apply merge_leaf_paths.
Qed.

(** ** Summation and merging together *)

Lemma merge_children_nums (cs : list (string * tree_info)) :
  map (fun kc => nums (snd kc)) (merge_children cs)
  = map (fun kc => nums (snd kc)) cs.
Proof.
  unfold merge_children. rewrite map_map. apply map_ext.
  intros [k c]. cbn. apply merge_keeps_data.
Qed.

Lemma summed_node (t node : tree_info) :
  summed t -> In node (nodes t) -> summed node.
Proof. intros Ht Hnode n Hn. apply Ht. by eapply nodes_trans. Qed.

Lemma merge_children_sum (t : tree_info) :
  summed t -> has_children t = true ->
  py_sum (map (fun kc => nums (snd kc))
              (children (Tree._merge_branch_folders t))) = nums t.
Proof.
  induction t as [n h r p cs IH] using tree_info_ind'. intros Hs Hch.
  rewrite List.Forall_forall in IH.
  destruct (merge_cases (TreeInfo n h r p cs))
    as [(k & c & Ec & Hc & Echildren) | (Hns & Em)].
  - rewrite Echildren. cbn [children] in Ec. subst cs.
    assert (summed c) as Hsc.
    { apply (summed_node _ _ Hs). apply (nodes_child _ _ k c); [by left |].
      apply nodes_self. }
    specialize (IH (k, c) (or_introl eq_refl) Hsc Hc). cbn [snd] in IH.
    rewrite IH, (Hs _ (nodes_self _) Hch). reflexivity.
  - rewrite Em. cbn [children set_children]. rewrite merge_children_nums.
    symmetry. apply (Hs _ (nodes_self _) Hch).
Qed.

Lemma merge_summed (t : tree_info) :
  summed t -> summed (Tree._merge_branch_folders t).
Proof.
  intros Hs node' Hnode' Hch.
  destruct (merge_nodes _ _ Hnode') as (node & Hnode & ->).
  rewrite merge_has_children in Hch.
  rewrite (merge_children_sum node (summed_node _ _ Hs Hnode) Hch).
  apply merge_keeps_data.
Qed.

(** X5: in the tree that [report] displays, summed and then merged, every
    node that has children carries the sum of the Numbers of the children
    it is shown with. *)
Theorem merged_tree_is_summed (package_tree : list (string * tree_info)) :
  forall k root node,
    In (k, root)
       (Tree.merge_single_folders (Tree.sum_package_tree package_tree)) ->
    In node (nodes root) -> has_children node = true ->
    nums node = py_sum (map (fun kc => nums (snd kc)) (children node)).
Proof.
  intros k root node Hroot.
  rewrite merge_single_folders_eq, sum_package_tree_eq in Hroot.
  unfold merge_children in Hroot. rewrite map_map in Hroot.
  apply in_map_iff in Hroot as ([k0 t] & [= <- <-] & _). cbn.
  apply merge_summed, sum_node_spec.
Qed.

Lemma merged_tree_is_summed_witness :
  exists root,
    In ("p", root)
       (Tree.merge_single_folders (Tree.sum_package_tree demo_folders)) /\
    relative_filename root = "p/q/r" /\
    nums root = py_sum (map (fun kc => nums (snd kc)) (children root)) /\
    n_statements (nums root) = 3.
Proof.
  eexists. split; [vm_compute; left; reflexivity |]. split; [reflexivity |].
  split; [| reflexivity].
  eapply (merged_tree_is_summed demo_folders "p").
  - vm_compute. left. reflexivity.
  - vm_compute. left. reflexivity.
  - reflexivity.
Defined.

Lemma sum_node_has_children (t : tree_info) :
  has_children (sum_node t) = has_children t.
Proof.
  unfold sum_node. destruct (has_children t) eqn:E; [|done].
  destruct t as [n h r p [|kc cs]]; [done |]. by rewrite _sum_branch_eq.
Qed.

Lemma sum_node_idempotent (t : tree_info) : sum_node (sum_node t) = sum_node t.
Proof.
  induction t as [n h r p cs IH] using tree_info_ind'.
  destruct (has_children (TreeInfo n h r p cs)) eqn:Hch.
  2:{ unfold sum_node at 2. rewrite Hch. unfold sum_node. by rewrite Hch. }
  unfold sum_node at 1. rewrite sum_node_has_children, Hch.
  unfold sum_node. rewrite Hch. rewrite !_sum_branch_eq.
  assert (map (fun kc => (fst kc, sum_node (snd kc)))
              (map (fun kc => (fst kc, sum_node (snd kc))) cs)
          = map (fun kc => (fst kc, sum_node (snd kc))) cs) as E.
  { rewrite map_map. apply map_ext_Forall.
    eapply Forall_impl; [exact IH |]. intros [k c] Hc. cbn in *. by rewrite Hc. }
  by rewrite E.
Qed.

Lemma forget_sums_sum_node (t : tree_info) :
  forget_sums (sum_node t) = forget_sums t.
Proof.
  induction t as [n h r p cs IH] using tree_info_ind'.
  unfold sum_node. destruct (has_children (TreeInfo n h r p cs)) eqn:E; [|done].
  rewrite _sum_branch_eq. cbn [forget_sums]. f_equal.
  - destruct cs; [discriminate E | done].
  - rewrite map_map. apply map_ext_Forall.
    eapply Forall_impl; [exact IH |]. intros [k c] Hc. cbn in *. by rewrite Hc.
Qed.

(** X6: summing is idempotent (a second [sum_package_tree] finds every sum
    already in place) and changes nothing but the Numbers of the nodes that
    have children: with those blanked, at every depth, the tree after
    [sum_package_tree] is the tree before, so the paths, page names, package
    flags and children keys of all nodes, their order, and the Numbers of
    the nodes without children stay. *)
Theorem sum_package_tree_idempotent (package_tree : list (string * tree_info)) :
  Tree.sum_package_tree (Tree.sum_package_tree package_tree)
  = Tree.sum_package_tree package_tree /\
  map (fun kt => (fst kt, forget_sums (snd kt))) (Tree.sum_package_tree package_tree)
  = map (fun kt => (fst kt, forget_sums (snd kt))) package_tree /\
  map fst (Tree.sum_package_tree package_tree) = map fst package_tree /\
  forall t,
    relative_filename (sum_node t) = relative_filename t /\
    html_filename (sum_node t) = html_filename t /\
    is_package (sum_node t) = is_package t /\
    map fst (children (sum_node t)) = map fst (children t).
Proof.
  rewrite !sum_package_tree_eq. split; [|split; [|split]].
  - rewrite map_map. apply map_ext. intros [k t]. cbn.
    by rewrite sum_node_idempotent.
  - rewrite map_map. apply map_ext. intros [k t]. cbn.
    by rewrite forget_sums_sum_node.
  - rewrite map_map. by apply map_ext.
  - intros t. unfold sum_node. destruct (has_children t); [|done].
    destruct t as [n h r p cs]. rewrite _sum_branch_eq. cbn.
    do 3 (split; [done |]). rewrite map_map. by apply map_ext.
Qed.

(** ** The checker's per-file entries *)

Section EntryFacts.
Context `{C : Collaborators}.
Import IncrementalChecker.

Lemma files_get_dict c fname :
  entries_are_dicts c -> exists d, files_get c fname = VDict d.
Proof.
  intros Hc. unfold files_get.
  destruct (files c !! fname) as [v|] eqn:E; simpl; [|eauto].
  exact (Hc _ _ E).
Qed.

Lemma files_get_insert c g fname v key :
  files_get {| globals := g; files := <[fname := v]> (files c) |} key
  = if decide (fname = key) then v else files_get c key.
Proof.
  unfold files_get; simpl. destruct (decide (fname = key)) as [<-|Hne].
  - by rewrite lookup_insert_eq.
  - by rewrite lookup_insert_ne.
Qed.

Lemma set_file_hash_frame c fname h c' :
  set_file_hash c fname h = Ok c' ->
  globals c' = globals c /\
  (forall key, index_info c' key = index_info c key) /\
  (forall other, other <> fname -> file_hash c' other = file_hash c other).
Proof.
  unfold set_file_hash. intros H. apply bind_Ok in H as (v & Hv & [= <-]).
  destruct (files_get c fname) as [| | | | | |d|] eqn:Hd; try discriminate.
  injection Hv as <-. split; [done |]. split.
  - intros key. unfold index_info. rewrite files_get_insert.
    destruct (decide (fname = key)) as [<-|Hne]; [|done].
    rewrite Hd. simpl. by rewrite alist_get_set_ne.
  - intros other Hne. unfold file_hash.
    by rewrite files_get_insert, decide_False.
Qed.

Lemma set_index_info_frame c fname info c' :
  set_index_info c fname info = Ok c' ->
  globals c' = globals c /\
  index_info c' fname = Ok info /\
  file_hash c' fname = file_hash c fname /\
  (forall other, other <> fname ->
     file_hash c' other = file_hash c other /\
     index_info c' other = index_info c other).
Proof.
  unfold set_index_info. intros H. apply bind_Ok in H as (v & Hv & [= <-]).
  destruct (files_get c fname) as [| | | | | |d|] eqn:Hd; try discriminate.
  injection Hv as <-. split; [done |].
  unfold index_info, file_hash.
  rewrite !files_get_insert, !decide_True by done. rewrite Hd. simpl.
  rewrite alist_get_set_eq, alist_get_set_ne by done.
  do 2 (split; [done |]). intros other Hne.
  by rewrite !files_get_insert, !decide_False.
Qed.

End EntryFacts.

(** X7: the hash and the index info of a file are stored side by side:
    [set_index_info] makes [index_info] return what was stored and leaves
    the file's hash alone, [set_file_hash] makes [file_hash] return the new
    hash and leaves the file's index info alone, and neither touches the
    entry of another file or the global fingerprint. *)
Theorem hash_and_index_are_independent `{C : Collaborators}
    (c : IncrementalChecker.state) (fname : string) (val : string)
    (info : pyval) :
  entries_are_dicts c ->
  (exists c',
     IncrementalChecker.set_index_info c fname info = Ok c' /\
     IncrementalChecker.index_info c' fname = Ok info /\
     IncrementalChecker.file_hash c' fname = IncrementalChecker.file_hash c fname /\
     IncrementalChecker.globals c' = IncrementalChecker.globals c /\
     forall other, other <> fname ->
       IncrementalChecker.file_hash c' other = IncrementalChecker.file_hash c other /\
       IncrementalChecker.index_info c' other = IncrementalChecker.index_info c other) /\
  (exists c',
     IncrementalChecker.set_file_hash c fname val = Ok c' /\
     IncrementalChecker.file_hash c' fname = Ok (VStr val) /\
     IncrementalChecker.index_info c' fname = IncrementalChecker.index_info c fname /\
     IncrementalChecker.globals c' = IncrementalChecker.globals c /\
     forall other, other <> fname ->
       IncrementalChecker.file_hash c' other = IncrementalChecker.file_hash c other /\
       IncrementalChecker.index_info c' other = IncrementalChecker.index_info c other).
Proof.
  intros Hc. destruct (files_get_dict c fname Hc) as [d Hd].
  unfold IncrementalChecker.set_index_info, IncrementalChecker.set_file_hash,
    IncrementalChecker.index_info, IncrementalChecker.file_hash.
  rewrite Hd. simpl. split; eexists; (split; [reflexivity |]).
  - rewrite !files_get_insert, !decide_True by done. simpl.
    rewrite alist_get_set_eq, alist_get_set_ne by done.
    do 3 (split; [done |]). intros other Hne.
    by rewrite !files_get_insert, !decide_False.
  - rewrite !files_get_insert, !decide_True by done. simpl.
    rewrite alist_get_set_eq, alist_get_set_ne by done.
    do 3 (split; [done |]). intros other Hne.
    by rewrite !files_get_insert, !decide_False.
Qed.

Lemma hash_and_index_are_independent_witness :
  (exists c',
     IncrementalChecker.set_index_info demo_checker "b.py" (VDict []) = Ok c' /\
     IncrementalChecker.index_info c' "b.py" = Ok (VDict []) /\
     IncrementalChecker.file_hash c' "b.py"
       = IncrementalChecker.file_hash demo_checker "b.py" /\
     IncrementalChecker.globals c' = IncrementalChecker.globals demo_checker /\
     forall other, other <> "b.py" ->
       IncrementalChecker.file_hash c' other
         = IncrementalChecker.file_hash demo_checker other /\
       IncrementalChecker.index_info c' other
         = IncrementalChecker.index_info demo_checker other) /\
  (exists c',
     IncrementalChecker.set_file_hash demo_checker "b.py" "new" = Ok c' /\
     IncrementalChecker.file_hash c' "b.py" = Ok (VStr "new") /\
     IncrementalChecker.index_info c' "b.py"
       = IncrementalChecker.index_info demo_checker "b.py" /\
     IncrementalChecker.globals c' = IncrementalChecker.globals demo_checker /\
     forall other, other <> "b.py" ->
       IncrementalChecker.file_hash c' other
         = IncrementalChecker.file_hash demo_checker other /\
       IncrementalChecker.index_info c' other
         = IncrementalChecker.index_info demo_checker other).
Proof.
  apply (hash_and_index_are_independent (C := demo) demo_checker "b.py" "new"
           (VDict [])).
  intros fname v. unfold demo_checker; simpl.
  destruct (decide ("a_x.py" = fname)) as [<-|Hne].
  - rewrite lookup_singleton_eq. intros [= <-]. eauto.
  - rewrite lookup_singleton_ne by done. discriminate.
Defined.

Lemma can_skip_file_frame `{C : Collaborators}
    (c c' : IncrementalChecker.state) (data : CoverageData) (fr : FileReporter)
    (rootname : string) (b : bool) :
  IncrementalChecker.can_skip_file c data fr rootname = Ok (b, c') ->
  IncrementalChecker.globals c' = IncrementalChecker.globals c /\
  (forall key,
     IncrementalChecker.index_info c' key = IncrementalChecker.index_info c key) /\
  (forall other, other <> rootname ->
     IncrementalChecker.file_hash c' other = IncrementalChecker.file_hash c other) /\
  (b = true -> c' = c) /\
  IncrementalChecker.file_hash c' rootname
    = Ok (VStr (IncrementalChecker.this_hash data fr)).
Proof.
  intros H. pose proof H as H0.
  unfold IncrementalChecker.can_skip_file in H.
  apply bind_Ok in H as (stored & Hs & H).
  destruct (can_skip_file_stored c data fr rootname stored Hs) as (c2 & Hc2 & Hh).
  rewrite Hc2 in H0. injection H0 as <- <-.
  destruct (py_eq_str stored _).
  - injection H as <-. done.
  - apply bind_Ok in H as (c1 & Hc1 & [= <-]).
    destruct (set_file_hash_frame _ _ _ _ Hc1) as (Hg & Hi & Hoth).
    by repeat split.
Qed.

(** X8: [can_skip_file] changes nothing but the stored hash of the file it
    is asked about: the index info of every file, the hash of every other
    file and the global fingerprint are as before, and when it answers true
    the checker is not changed at all. *)
Theorem can_skip_file_touches_own_hash_only `{C : Collaborators}
    (c c' : IncrementalChecker.state) (data : CoverageData) (fr : FileReporter)
    (rootname : string) (b : bool) :
  IncrementalChecker.can_skip_file c data fr rootname = Ok (b, c') ->
  IncrementalChecker.globals c' = IncrementalChecker.globals c /\
  (forall key,
     IncrementalChecker.index_info c' key = IncrementalChecker.index_info c key) /\
  (forall other, other <> rootname ->
     IncrementalChecker.file_hash c' other = IncrementalChecker.file_hash c other) /\
  (b = true -> c' = c).
Proof.
  intros H.
  destruct (can_skip_file_frame _ _ _ _ _ _ H) as (Hg & Hi & Hoth & Hsame & _).
  done.
Qed.

Lemma can_skip_file_touches_own_hash_only_witness :
  exists c',
    IncrementalChecker.can_skip_file (C := demo) demo_checker
      (fun _ => ["2"]) (demo_fr "a/x.py" "pass") "a_x.py" = Ok (false, c') /\
    IncrementalChecker.globals c' = IncrementalChecker.globals demo_checker /\
    (forall key,
       IncrementalChecker.index_info c' key
       = IncrementalChecker.index_info demo_checker key) /\
    (forall other, other <> "a_x.py" ->
       IncrementalChecker.file_hash c' other
       = IncrementalChecker.file_hash demo_checker other) /\
    (false = true -> c' = demo_checker).
Proof.
  eexists. split; [vm_compute; reflexivity |].
  eapply (can_skip_file_touches_own_hash_only (C := demo) demo_checker _
            (fun _ => ["2"]) (demo_fr "a/x.py" "pass") "a_x.py" false).
  vm_compute. reflexivity.
Defined.

(** ** Writing the status *)

Section WriteFacts.
Context `{C : Collaborators}.
Import IncrementalChecker.

Lemma write_fileinfo_Ok_inv v v' :
  write_fileinfo v = Ok v' ->
  exists d di n,
    v = VDict d /\ alist_get "index" d = Some (VDict di) /\
    alist_get "nums" di = Some (VNumbers n) /\
    v' = VDict (alist_set "index"
                  (VDict (alist_set "nums" (init_args n) di)) d).
Proof.
  unfold write_fileinfo. intros H.
  apply bind_Ok in H as (index & Hindex & H).
  apply bind_Ok in H as (nums & Hnums & H).
  apply bind_Ok in H as (args & Hargs & H).
  apply bind_Ok in H as (index' & Hindex' & H).
  destruct v as [| | | | | |d|]; try discriminate.
  destruct index as [| | | | | |di|]; try discriminate.
  destruct nums as [| | | | | | |n]; try discriminate.
  simpl in *.
  destruct (alist_get "index" d) as [x|] eqn:Ed; [|discriminate].
  injection Hindex as ->.
  destruct (alist_get "nums" di) as [y|] eqn:Edi; [|discriminate].
  injection Hnums as ->. injection Hargs as <-. injection Hindex' as <-.
  injection H as <-. by exists d, di, n.
Qed.

(** An entry that [write] has written cannot be written again. *)
Lemma write_fileinfo_twice v v' :
  write_fileinfo v = Ok v' -> write_fileinfo v' = Raise AttributeError.
Proof.
  intros H. apply write_fileinfo_Ok_inv in H as (d & di & n & -> & _ & _ & ->).
  unfold write_fileinfo; simpl. rewrite alist_get_set_eq; simpl.
  by rewrite alist_get_set_eq.
Qed.

Lemma mapM_values_elem f l l' k v' :
  mapM_values f l = Ok l' -> (k, v') ∈ l' ->
  exists v, (k, v) ∈ l /\ f v = Ok v'.
Proof.
  revert l'. induction l as [|[k0 x] l IH]; intros l' H Hin; simpl in H.
  - injection H as <-. by apply elem_of_nil in Hin.
  - apply bind_Ok in H as (x' & Hx & H).
    apply bind_Ok in H as (rest' & Hrest & [= <-]).
    apply elem_of_cons in Hin as [[= -> ->] | Hin].
    + exists x. split; [left | done].
    + destruct (IH _ Hrest Hin) as (v & Hv & Hf).
      exists v. split; [by right | done].
Qed.

Lemma mapM_values_keys f l l' :
  mapM_values f l = Ok l' -> l'.*1 = l.*1.
Proof.
  revert l'. induction l as [|[k0 x] l IH]; intros l' H; simpl in H.
  - by injection H as <-.
  - apply bind_Ok in H as (x' & Hx & H).
    apply bind_Ok in H as (rest' & Hrest & [= <-]).
    simpl. f_equal. by apply IH.
Qed.

Lemma mapM_values_first_raises f l e :
  l <> [] -> (forall k v, (k, v) ∈ l -> f v = Raise e) ->
  mapM_values f l = Raise e.
Proof.
  destruct l as [|[k v] l]; [done |]. intros _ H. simpl.
  rewrite (H k v) by left. reflexivity.
Qed.

End WriteFacts.

(** X9: [write] converts the Numbers of every entry in place, so the
    checker it leaves behind cannot be written a second time: unless the
    cache is empty, a second [write] raises [AttributeError]. *)
Theorem write_twice_raises `{C : Collaborators}
    (c c' : IncrementalChecker.state) (status : file_content) :
  IncrementalChecker.write c = Ok (c', status) ->
  IncrementalChecker.files c <> ∅ ->
  IncrementalChecker.write c' = Raise AttributeError.
Proof.
  unfold IncrementalChecker.write at 1. intros H Hne.
  apply bind_Ok in H as (files' & Hf & H).
  destruct (json_serializable _); [|discriminate]. injection H as <- _.
  unfold IncrementalChecker.write. cbn [IncrementalChecker.files].
  rewrite (mapM_values_first_raises IncrementalChecker.write_fileinfo _ AttributeError).
  - reflexivity.
  - intros Hnil. apply map_to_list_empty_iff in Hnil.
    destruct files' as [|[k v] rest].
    + apply Hne. apply map_to_list_empty_iff.
      apply mapM_values_keys in Hf.
      by destruct (map_to_list (IncrementalChecker.files c)).
    + simpl in Hnil. by apply insert_non_empty in Hnil.
  - intros k v Hin. apply elem_of_map_to_list in Hin.
    apply elem_of_list_to_map_2 in Hin.
    destruct (mapM_values_elem _ _ _ _ _ Hf Hin) as (v0 & _ & Hv0).
    by eapply write_fileinfo_twice.
Qed.

Lemma write_twice_raises_witness :
  exists c' status,
    IncrementalChecker.write (C := demo) demo_checker = Ok (c', status) /\
    IncrementalChecker.write (C := demo) c' = Raise AttributeError.
Proof.
  do 2 eexists. split; [vm_compute; reflexivity |].
  eapply (write_twice_raises (C := demo) demo_checker).
  - vm_compute. reflexivity.
  - intros H. apply (f_equal (fun m => m !! "a_x.py")) in H.
    vm_compute in H. discriminate H.
Defined.

(** X10: [write] succeeds only when every cache entry is a dict with an
    ['index'] dict whose ['nums'] is a Numbers object; with an entry that
    holds nothing but the hash stored by [can_skip_file], [write] cannot
    succeed. *)
Theorem write_needs_index_info `{C : Collaborators}
    (c c' : IncrementalChecker.state) (status : file_content) :
  IncrementalChecker.write c = Ok (c', status) ->
  forall fname v,
    IncrementalChecker.files c !! fname = Some v ->
    exists d di n,
      v = VDict d /\ alist_get "index" d = Some (VDict di) /\
      alist_get "nums" di = Some (VNumbers n).
Proof.
  unfold IncrementalChecker.write. intros H fname v Hv.
  apply bind_Ok in H as (files' & Hf & _).
  apply elem_of_map_to_list in Hv.
  revert files' Hf Hv. generalize (map_to_list (IncrementalChecker.files c)).
  induction l as [|[k x] l IH]; intros files' Hf Hv.
  - by apply elem_of_nil in Hv.
  - simpl in Hf. apply bind_Ok in Hf as (x' & Hx & Hf).
    apply bind_Ok in Hf as (rest' & Hrest & _).
    apply elem_of_cons in Hv as [[= -> ->] | Hv].
    + apply write_fileinfo_Ok_inv in Hx as (d & di & n & -> & Hd & Hdi & _).
      by exists d, di, n.
    + by eapply IH.
Qed.

Lemma write_needs_index_info_witness :
  exists d di n,
    VDict [("hash", VStr "pass;1");
           ("index",
            VDict [("nums", VNumbers (mkNumbers 1 0 0 0));
                   ("html_filename", VStr "a_x.py.html");
                   ("relative_filename", VStr "a/x.py")])] = VDict d /\
    alist_get "index" d = Some (VDict di) /\
    alist_get "nums" di = Some (VNumbers n).
Proof.
  destruct (IncrementalChecker.write (C := demo) demo_checker)
    as [[c' status]|e] eqn:Hw; [|vm_compute in Hw; discriminate Hw].
  apply (write_needs_index_info (C := demo) demo_checker c' status Hw "a_x.py").
  vm_compute. reflexivity.
Defined.

(** ** A second run over the same files *)

Section Rerun.
Context `{C : Collaborators}.
Import HtmlReporter.

Lemma left_out_iff r analysis :
  left_out r analysis <->
  (skip_covered r && (n_missing (numbers analysis) =? 0)
     && (n_partial_branches (numbers analysis) =? 0) = true \/
   skip_empty r && (n_statements (numbers analysis) =? 0) = true).
Proof.
  unfold left_out. rewrite !andb_true_iff, !Z.eqb_eq. tauto.
Qed.

Lemma as_index_info_dict info : as_index_info (index_info_dict info) = Ok info.
Proof. by destruct info. Qed.

(** What a successful [html_file] has done. *)
Lemma html_file_Ok_inv r dir fr analysis r' dir' :
  html_file r dir fr analysis = Ok (r', dir') ->
  (left_out r analysis /\ r' = append_nums r (numbers analysis)) \/
  (~ left_out r analysis /\
   exists summary info c',
     as_index_info summary = Ok info /\
     r' = reported r (numbers analysis) summary info c' /\
     IncrementalChecker.file_hash c' (rootname_of fr)
       = Ok (VStr (IncrementalChecker.this_hash (data r) fr)) /\
     IncrementalChecker.index_info c' (rootname_of fr) = Ok summary /\
     IncrementalChecker.globals c' = IncrementalChecker.globals (incr r) /\
     forall other, other <> rootname_of fr ->
       IncrementalChecker.file_hash c' other
         = IncrementalChecker.file_hash (incr r) other /\
       IncrementalChecker.index_info c' other
         = IncrementalChecker.index_info (incr r) other).
Proof.
  intros H.
  destruct (decide (left_out r analysis)) as [Hout | Hin].
  { left. split; [done |]. rewrite html_file_left_out in H by done.
    by injection H as <- _. }
  right. split; [done |].
  assert (skip_covered r && (n_missing (numbers analysis) =? 0)
            && (n_partial_branches (numbers analysis) =? 0) = false) as E1.
  { apply not_true_is_false. intros E. apply Hin, left_out_iff. by left. }
  assert (skip_empty r && (n_statements (numbers analysis) =? 0) = false) as E2.
  { apply not_true_is_false. intros E. apply Hin, left_out_iff. by right. }
  unfold html_file in H. cbv zeta in H.
  cbn [append_nums skip_covered skip_empty] in H. rewrite E1, E2 in H.
  apply bind_Ok in H as ([skip incr'] & Hskip & H).
  cbn [append_nums incr data] in Hskip.
  fold (rootname_of fr) in Hskip, H.
  pose proof Hskip as Hframe.
  apply can_skip_file_frame in Hframe
    as (Hg & Hidx & Hoth & Hsame & Hhash).
  destruct skip.
  - apply bind_Ok in H as (summary & Hsummary & H).
    apply bind_Ok in H as (r1 & Hr1 & [= <- _]).
    unfold add_module_to_tree in Hr1.
    apply bind_Ok in Hr1 as (info & Hinfo & [= <-]).
    exists summary, info, incr'. split; [done |]. split; [reflexivity |].
    cbn [set_incr incr] in Hsummary. rewrite Hsummary. split; [done |].
    split; [done |]. split; [done |].
    intros other Hne. split; [by apply Hoth | by rewrite Hidx].
  - apply bind_Ok in H as (r1 & Hr1 & H).
    apply bind_Ok in H as (incr1 & Hincr1 & [= <- _]).
    unfold add_module_to_tree in Hr1.
    apply bind_Ok in Hr1 as (info & Hinfo & [= <-]).
    cbn [set_incr append_summary set_package_tree incr] in Hincr1.
    apply set_index_info_frame in Hincr1 as (Hg1 & Hi1 & Hh1 & Hoth1).
    eexists _, info, incr1. split; [exact Hinfo |]. split; [reflexivity |].
    rewrite Hh1, Hhash. split; [done |]. split; [done |].
    split; [congruence |].
    intros other Hne. destruct (Hoth1 other Hne) as [-> ->].
    split; [by apply Hoth | by rewrite Hidx].
Qed.

(** A file whose hash and index info are in the cache is reported from the
    cache: the directory and the checker are not touched. *)
Lemma html_file_cached r dir fr analysis summary info :
  ~ left_out r analysis ->
  IncrementalChecker.file_hash (incr r) (rootname_of fr)
    = Ok (VStr (IncrementalChecker.this_hash (data r) fr)) ->
  IncrementalChecker.index_info (incr r) (rootname_of fr) = Ok summary ->
  as_index_info summary = Ok info ->
  html_file r dir fr analysis
  = Ok (reported r (numbers analysis) summary info (incr r), dir).
Proof.
  intros Hin Hhash Hidx Hinfo.
  assert (skip_covered r && (n_missing (numbers analysis) =? 0)
            && (n_partial_branches (numbers analysis) =? 0) = false) as E1.
  { apply not_true_is_false. intros E. apply Hin, left_out_iff. by left. }
  assert (skip_empty r && (n_statements (numbers analysis) =? 0) = false) as E2.
  { apply not_true_is_false. intros E. apply Hin, left_out_iff. by right. }
  unfold html_file. cbv zeta.
  cbn [append_nums skip_covered skip_empty incr data]. rewrite E1, E2.
  fold (rootname_of fr).
  unfold IncrementalChecker.can_skip_file. rewrite Hhash.
  change (Ok ?x ≫= ?f) with (f x). cbv beta.
  unfold py_eq_str. rewrite String.eqb_refl.
  change (Ok ?x ≫= ?f) with (f x). cbv beta iota.
  cbn [set_incr incr]. rewrite Hidx.
  change (Ok ?x ≫= ?f) with (f x). cbv beta.
  unfold add_module_to_tree. rewrite Hinfo. reflexivity.
Qed.

Lemma left_out_set_incr r c analysis :
  left_out (set_incr r c) analysis <-> left_out r analysis.
Proof. reflexivity. Qed.

(** The files of a run touch the cache entries of their own root names
    only, and leave the global fingerprint alone. *)
Lemma html_files_frame analyses r dir r' dir' :
  html_files r dir analyses = Ok (r', dir') ->
  IncrementalChecker.globals (incr r') = IncrementalChecker.globals (incr r) /\
  forall key,
    ~ In key (map (fun fa => rootname_of (fst fa)) analyses) ->
    IncrementalChecker.file_hash (incr r') key
      = IncrementalChecker.file_hash (incr r) key /\
    IncrementalChecker.index_info (incr r') key
      = IncrementalChecker.index_info (incr r) key.
Proof.
  revert r dir. induction analyses as [|[fr analysis] rest IH]; intros r dir H.
  - simpl in H. by injection H as <- _.
  - simpl in H. apply bind_Ok in H as ([ra dira] & Ha & H).
    destruct (IH _ _ H) as [Hg Hrest].
    apply html_file_Ok_inv in Ha
      as [[_ ->] | (_ & summary & info & c' & _ & -> & _ & _ & Hg' & Hoth)].
    + split; [done |]. intros key Hkey. apply Hrest.
      intros Hk. apply Hkey. by right.
    + cbn [reported incr] in *. split; [congruence |].
      intros key Hkey.
      destruct (Hrest key) as [-> ->]; [intros Hk; apply Hkey; by right |].
      apply Hoth. intros ->. apply Hkey. by left.
Qed.

(** Replaying a run against a checker that holds what the run left in the
    cache: every file is reported from the cache, with the same result. *)
Lemma html_files_replay analyses r dir r' dir' :
  html_files r dir analyses = Ok (r', dir') ->
  NoDup (map (fun fa => rootname_of (fst fa)) analyses) ->
  forall dir2 c,
    (forall key,
       In key (map (fun fa => rootname_of (fst fa)) analyses) ->
       IncrementalChecker.file_hash c key
         = IncrementalChecker.file_hash (incr r') key /\
       IncrementalChecker.index_info c key
         = IncrementalChecker.index_info (incr r') key) ->
    exists dir2',
      html_files (set_incr r c) dir2 analyses = Ok (set_incr r' c, dir2') /\
      pages dir2' ⊆ pages dir2.
Proof.
  revert r dir. induction analyses as [|[fr analysis] rest IH];
    intros r dir H Hnd dir2 c Hc.
  - simpl in H. injection H as <- _. exists dir2. by split.
  - simpl in H. apply bind_Ok in H as ([ra dira] & Ha & H).
    cbn [map fst] in Hnd. apply NoDup_cons in Hnd as [Hfresh Hnd].
    assert (forall key,
              In key (map (fun fa => rootname_of (fst fa)) rest) ->
              IncrementalChecker.file_hash c key
                = IncrementalChecker.file_hash (incr r') key /\
              IncrementalChecker.index_info c key
                = IncrementalChecker.index_info (incr r') key) as Hc'.
    { intros key Hkey. apply Hc. by right. }
    destruct (html_files_frame _ _ _ _ _ H) as [_ Hframe].
    specialize (Hframe (rootname_of fr)).
    rewrite <- list_elem_of_In in Hframe. specialize (Hframe Hfresh).
    destruct (Hc (rootname_of fr)) as [Hch Hci]; [by left |].
    apply html_file_Ok_inv in Ha
      as [[Hout ->] | (Hin & summary & info & c' & Hinfo & -> & Hh & Hi & _ & _)].
    + destruct (IH _ _ H Hnd
                  (file_be_gone dir2 (rootname_of fr +:+ ".html")) c Hc')
        as (dir2' & Hrun & Hpages).
      exists dir2'. split.
      * simpl. rewrite html_file_left_out by done. exact Hrun.
      * etrans; [exact Hpages |]. simpl. set_solver.
    + destruct (IH _ _ H Hnd dir2 c Hc') as (dir2' & Hrun & Hpages).
      exists dir2'. split; [|done].
      simpl. cbn [reported incr] in Hframe.
      rewrite (html_file_cached (set_incr r c) dir2 fr analysis summary info).
      * exact Hrun.
      * done.
      * cbn [set_incr incr data]. rewrite Hch. destruct Hframe as [-> _]. exact Hh.
      * cbn [set_incr incr]. rewrite Hci. destruct Hframe as [_ ->]. exact Hi.
      * done.
Qed.

(** After a run, the cache holds the computed hash of every file that was
    put in the report. *)
Lemma html_files_hash analyses r dir r' dir' fr analysis :
  html_files r dir analyses = Ok (r', dir') ->
  NoDup (map (fun fa => rootname_of (fst fa)) analyses) ->
  In (fr, analysis) analyses -> ~ left_out r analysis ->
  IncrementalChecker.file_hash (incr r') (rootname_of fr)
  = Ok (VStr (IncrementalChecker.this_hash (data r) fr)).
Proof.
  revert r dir. induction analyses as [|[fr' a'] rest IH];
    intros r dir Hfiles Hnd Hfa Hin; [done |].
  simpl in Hfiles. apply bind_Ok in Hfiles as ([ra dira] & Ha & Hrest).
  cbn [map fst] in Hnd. apply NoDup_cons in Hnd as [Hfresh Hnd].
  destruct Hfa as [[= -> ->] | Hfa].
  - destruct (html_files_frame _ _ _ _ _ Hrest) as [_ Hframe].
    specialize (Hframe (rootname_of fr)).
    rewrite <- list_elem_of_In in Hframe.
    destruct (Hframe Hfresh) as [-> _].
    apply html_file_Ok_inv in Ha
      as [[Hout _] | (_ & summary & info & c' & _ & -> & Hh & _)]; [done |].
    exact Hh.
  - assert (data ra = data r /\ forall a, left_out ra a <-> left_out r a)
      as [Hd Hl].
    { apply html_file_Ok_inv in Ha
        as [[_ ->] | (_ & summary & info & c' & _ & -> & _)]; by split. }
    rewrite <- Hd. apply (IH ra dira Hrest Hnd Hfa). by rewrite Hl.
Qed.

Lemma read_ignores_state (c1 c2 : IncrementalChecker.state)
    (status_file : option file_content) :
  IncrementalChecker.read c1 status_file = IncrementalChecker.read c2 status_file.
Proof. reflexivity. Qed.

Lemma check_global_data_globals (c : IncrementalChecker.state) data :
  IncrementalChecker.globals (IncrementalChecker.check_global_data c data)
  = VStr (hexdigest (fold_left update data Hasher_new)).
Proof.
  unfold IncrementalChecker.check_global_data.
  destruct (py_eq_str _ _) eqn:E; simpl; [|done]. by apply py_eq_str_true in E.
Qed.

Lemma check_global_data_same (c : IncrementalChecker.state) data :
  IncrementalChecker.globals c = VStr (hexdigest (fold_left update data Hasher_new)) ->
  IncrementalChecker.check_global_data c data = c.
Proof.
  intros H. unfold IncrementalChecker.check_global_data.
  apply py_eq_str_true in H. by rewrite H.
Qed.

Lemma report_rerun r dir analyses r1 dir1 :
  report r dir analyses = Ok (r1, dir1) ->
  NoDup (map (fun fa => rootname_of (fst fa)) analyses) ->
  exists c dir2,
    IncrementalChecker.read (incr r) (status_json dir1) = Ok c /\
    (forall fr analysis,
       In (fr, analysis) analyses -> ~ left_out r analysis ->
       IncrementalChecker.can_skip_file c (data r) fr (rootname_of fr)
       = Ok (true, c)) /\
    report r dir1 analyses = Ok (r1, dir2) /\
    status_json dir2 = status_json dir1 /\
    pages dir2 ⊆ pages dir1.
Proof.
  intros H Hnd. unfold report in H.
  apply bind_Ok in H as (c0 & Hread & H).
  apply bind_Ok in H as ([rp dirp] & Hfiles & H).
  destruct (all_files_nums rp) as [|x l] eqn:Enums; [discriminate |].
  apply bind_Ok in H as ([c_post status1] & Hwrite & [= <- <-]).
  cbn [status_json pages]. cbn [merge_single_folders sum_package_tree set_totals
    set_package_tree incr] in Hwrite.
  exists (incr rp).
  assert (IncrementalChecker.read (incr r) (Some status1) = Ok (incr rp)) as Hread2.
  { rewrite (read_ignores_state _ IncrementalChecker.init).
    by eapply read_write. }
  destruct (html_files_frame _ _ _ _ _ Hfiles) as [Hglobals _].
  cbn [set_incr incr] in Hglobals.
  rewrite check_global_data_globals in Hglobals.
  destruct (html_files_replay _ _ _ _ _ Hfiles Hnd
              {| status_json := Some status1;
                 pages := pages (write_html (write_html dirp "package_tree.html")
                                            "index.html") |}
              (incr rp)) as (dir2' & Hrun & Hpages); [done |].
  assert (set_incr rp (incr rp) = rp) as Eeta by (by destruct rp).
  rewrite Eeta in Hrun.
  assert (set_incr
            (set_incr r
               (IncrementalChecker.check_global_data c0
                  [config r; pyfile_html_source r])) (incr rp)
          = set_incr r (incr rp)) as Eset by reflexivity.
  rewrite Eset in Hrun.
  eexists. split; [exact Hread2 |]. split; [|split; [|split]].
  - intros fr analysis Hfa Hin.
    pose proof (html_files_hash _ _ _ _ _ fr analysis Hfiles Hnd Hfa Hin) as Hh.
    cbn [set_incr data] in Hh.
    unfold IncrementalChecker.can_skip_file. rewrite Hh.
    change (Ok ?x ≫= ?f) with (f x). cbv beta.
    unfold py_eq_str. by rewrite String.eqb_refl.
  - unfold report. cbn [status_json]. rewrite Hread2.
    change (Ok ?x ≫= ?f) with (f x). cbv beta zeta.
    rewrite (check_global_data_same (incr rp)) by done.
    cbn [pages write_html] in Hrun.
    rewrite Hrun. change (Ok ?x ≫= ?f) with (f x). cbv beta iota.
    rewrite Enums.
    cbn [merge_single_folders sum_package_tree set_totals set_package_tree incr].
    rewrite Hwrite. reflexivity.
  - reflexivity.
  - cbn [pages write_html] in *. set_solver.
Qed.

End Rerun.

(** X11: a second report over the same files, run against the directory the
    first one left, is served from the cache.  When the files have distinct
    root names and the first [report] succeeds, the status it wrote is read
    back without an exception, [can_skip_file] answers true for every file
    that is not left out, and the second [report] ends in the same reporter
    state (same summaries, package tree and totals), writes the same status
    and adds no page. *)
Theorem second_report_is_served_from_cache `{C : Collaborators}
    (r r1 : HtmlReporter.state) (dir dir1 : OutputDir)
    (analyses : list (FileReporter * Analysis)) :
  HtmlReporter.report r dir analyses = Ok (r1, dir1) ->
  NoDup (map (fun fa => rootname_of (fst fa)) analyses) ->
  exists c dir2,
    IncrementalChecker.read (HtmlReporter.incr r) (status_json dir1) = Ok c /\
    (forall fr analysis,
       In (fr, analysis) analyses -> ~ left_out r analysis ->
       IncrementalChecker.can_skip_file c (HtmlReporter.data r) fr (rootname_of fr)
       = Ok (true, c)) /\
    HtmlReporter.report r dir1 analyses = Ok (r1, dir2) /\
    status_json dir2 = status_json dir1 /\
    pages dir2 ⊆ pages dir1.
Proof. apply report_rerun. Qed.

Lemma second_report_is_served_from_cache_witness :
  exists r1 dir1 c dir2,
    HtmlReporter.report (C := demo) (demo_reporter true false) empty_dir
      [demo_covered; demo_uncovered] = Ok (r1, dir1) /\
    IncrementalChecker.read (C := demo)
      (HtmlReporter.incr (demo_reporter true false)) (status_json dir1) = Ok c /\
    (forall fr analysis,
       In (fr, analysis) [demo_covered; demo_uncovered] ->
       ~ left_out (demo_reporter true false) analysis ->
       IncrementalChecker.can_skip_file c
         (HtmlReporter.data (demo_reporter true false)) fr
         (rootname_of (C := demo) fr) = Ok (true, c)) /\
    HtmlReporter.report (C := demo) (demo_reporter true false) dir1
      [demo_covered; demo_uncovered] = Ok (r1, dir2) /\
    status_json dir2 = status_json dir1 /\
    pages dir2 ⊆ pages dir1.
Proof.
  destruct (HtmlReporter.report (C := demo) (demo_reporter true false) empty_dir
              [demo_covered; demo_uncovered]) as [[r1 dir1]|e] eqn:H;
    [|vm_compute in H; discriminate H].
  exists r1, dir1.
  destruct (second_report_is_served_from_cache (C := demo) _ _ _ _ _ H)
    as (c & dir2 & H2).
  - apply (bool_decide_unpack _). vm_compute. exact I.
  - exists c, dir2. split; [reflexivity | exact H2].
Defined.

(** X12: after [check_global_data] the stored global fingerprint is the
    digest of the data it was given, whatever was stored before, and a second
    call with the same data changes nothing more. *)
Theorem check_global_data_settles `{C : Collaborators}
    (c : IncrementalChecker.state) (data : list hashable) :
  let c' := IncrementalChecker.check_global_data c data in
  IncrementalChecker.globals c' = VStr (hexdigest (fold_left update data Hasher_new)) /\
  IncrementalChecker.check_global_data c' data = c'.
Proof.
  cbv zeta. split; [apply check_global_data_globals |].
  apply check_global_data_same, check_global_data_globals.
Qed.

(** ** Pages of the output directory *)

(** X13: [html_file] touches no page but the file's own and never the
    status file.  A file that is left out has no page afterwards; a file
    whose stored hash matches is served from the cache without the directory
    being looked at or changed; any other file has its page afterwards. *)
Theorem html_file_touches_own_page_only `{C : Collaborators}
    (r r' : HtmlReporter.state) (dir dir' : OutputDir)
    (fr : FileReporter) (analysis : Analysis) :
  HtmlReporter.html_file r dir fr analysis = Ok (r', dir') ->
  let page := rootname_of fr +:+ ".html" in
  status_json dir' = status_json dir /\
  (forall other, other <> page -> other ∈ pages dir' <-> other ∈ pages dir) /\
  (left_out r analysis -> page ∉ pages dir') /\
  (~ left_out r analysis ->
   forall stored,
     IncrementalChecker.file_hash (HtmlReporter.incr r) (rootname_of fr)
       = Ok stored ->
     (stored = VStr (IncrementalChecker.this_hash (HtmlReporter.data r) fr) ->
      dir' = dir) /\
     (stored <> VStr (IncrementalChecker.this_hash (HtmlReporter.data r) fr) ->
      page ∈ pages dir')).
Proof.
  intros H page.
  destruct (decide (left_out r analysis)) as [Hout | Hin].
  { rewrite html_file_left_out in H by done. injection H as _ <-.
    fold (rootname_of fr). fold page. cbn.
    split; [done |]. split; [set_solver |]. split; [set_solver | done]. }
  assert (HtmlReporter.skip_covered r && (n_missing (numbers analysis) =? 0)
            && (n_partial_branches (numbers analysis) =? 0) = false) as E1.
  { apply not_true_is_false. intros E. apply Hin, left_out_iff. by left. }
  assert (HtmlReporter.skip_empty r && (n_statements (numbers analysis) =? 0)
          = false) as E2.
  { apply not_true_is_false. intros E. apply Hin, left_out_iff. by right. }
  unfold HtmlReporter.html_file in H. cbv zeta in H.
  cbn [HtmlReporter.append_nums HtmlReporter.skip_covered
       HtmlReporter.skip_empty HtmlReporter.incr HtmlReporter.data] in H.
  rewrite E1, E2 in H. fold (rootname_of fr) in H. fold page in H.
  apply bind_Ok in H as ([skip incr'] & Hskip & H).
  assert (forall stored,
            IncrementalChecker.file_hash (HtmlReporter.incr r) (rootname_of fr)
              = Ok stored ->
            skip = py_eq_str stored (IncrementalChecker.this_hash
                                       (HtmlReporter.data r) fr)) as Hdec.
  { intros stored Hs.
    destruct (can_skip_file_stored _ (HtmlReporter.data r) fr _ _ Hs)
      as (c2 & Hc2 & _).
    rewrite Hc2 in Hskip. by injection Hskip as <- _. }
  destruct skip.
  - apply bind_Ok in H as (summary & _ & H).
    apply bind_Ok in H as (r1 & _ & [= _ <-]).
    split; [done |]. split; [done |]. split; [done |].
    intros _ stored Hs. apply Hdec in Hs. symmetry in Hs.
    apply py_eq_str_true in Hs. split; [done |]. by intros Hne.
  - apply bind_Ok in H as (r1 & _ & H).
    apply bind_Ok in H as (incr1 & _ & [= _ <-]). cbn.
    split; [done |]. split; [set_solver |]. split; [done |].
    intros _ stored Hs. apply Hdec in Hs. symmetry in Hs.
    apply py_eq_str_false in Hs. split; [done |]. intros _. set_solver.
Qed.

Lemma html_file_touches_own_page_only_witness :
  let dir := {| status_json := None; pages := {[ "a_x.py.html"; "b.html" ]} |} in
  exists r' dir',
    HtmlReporter.html_file (C := demo) (demo_reporter true false) dir
      (fst demo_covered) (snd demo_covered) = Ok (r', dir') /\
    status_json dir' = status_json dir /\
    (forall other, other <> "a_x.py.html" ->
       other ∈ pages dir' <-> other ∈ pages dir) /\
    "a_x.py.html" ∉ pages dir'.
Proof.
  cbv zeta.
  destruct (HtmlReporter.html_file (C := demo) (demo_reporter true false)
              {| status_json := None; pages := {[ "a_x.py.html"; "b.html" ]} |}
              (fst demo_covered) (snd demo_covered))
    as [[r' dir']|e] eqn:H; [|vm_compute in H; discriminate H].
  exists r', dir'. split; [reflexivity |].
  destruct (html_file_touches_own_page_only (C := demo) _ _ _ _ _ _ H)
    as (H1 & H2 & H3 & _).
  split; [exact H1 |]. split; [exact H2 |].
  apply H3. left. repeat split; reflexivity.
Defined.

(** ** Annotations and contexts of a line *)

(** X14: a line carries annotations only when its category is 'par', and
    then one short and one long annotation per missed branch destination, in
    order, the short one being "exit" for a negative destination; a line
    without category, or any line when contexts are not shown, carries no
    context label. *)
Theorem line_annotations (self : HtmlDataGeneration.state)
    (analysis : Analysis) (lineno : Z) (toks : list (string * string)) :
  let line := HtmlDataGeneration.data_for_line self analysis lineno toks in
  length (HtmlDataGeneration.short_annotations line)
    = length (HtmlDataGeneration.long_annotations line) /\
  (HtmlDataGeneration.line_category line <> Some HtmlDataGeneration.par ->
   HtmlDataGeneration.short_annotations line = [] /\
   HtmlDataGeneration.long_annotations line = []) /\
  (HtmlDataGeneration.line_category line = Some HtmlDataGeneration.par ->
   exists bs,
     missing_branch_arcs analysis !! lineno = Some bs /\
     HtmlDataGeneration.short_annotations line
       = map (fun b => if b <? 0 then HtmlDataGeneration.short_exit
                       else HtmlDataGeneration.short_line b) bs /\
     HtmlDataGeneration.long_annotations line
       = map (fun b => missing_arc_description analysis lineno b
                         (arcs_executed analysis)) bs) /\
  (HtmlDataGeneration.line_category line = None \/
   HtmlDataGeneration.show_contexts self = false ->
   HtmlDataGeneration.contexts line = None /\
   HtmlDataGeneration.contexts_label line = None /\
   HtmlDataGeneration.context_list line = None).
Proof.
  cbv zeta. unfold HtmlDataGeneration.data_for_line, HtmlDataGeneration.mark_line.
  repeat case_bool_decide; cbn.
  all: try (destruct (HtmlDataGeneration.has_arcs self) eqn:Harcs; cbn).
  all: try (destruct (HtmlDataGeneration.show_contexts self) eqn:Hctx; cbn).
  all: repeat case_bool_decide; cbn.
  all: repeat split; try done.
  all: try (by rewrite !length_map).
  all: try (by intros [|]).
  all: try (match goal with H : _ \/ _ |- _ => by destruct H end).
  all: try (match goal with H : is_Some (missing_branch_arcs _ !! _) |- _ =>
              destruct H as [bs Hbs]
            end; exists bs; by rewrite Hbs).
Qed.

Lemma line_annotations_witness :
  let line := HtmlDataGeneration.data_for_line demo_datagen demo_marked_analysis 1
                [("key", "if")] in
  exists bs,
    missing_branch_arcs demo_marked_analysis !! 1 = Some bs /\
    HtmlDataGeneration.short_annotations line
      = map (fun b => if b <? 0 then HtmlDataGeneration.short_exit
                      else HtmlDataGeneration.short_line b) bs /\
    HtmlDataGeneration.long_annotations line
      = map (fun b => missing_arc_description demo_marked_analysis 1 b
                        (arcs_executed demo_marked_analysis)) bs.
Proof.
  apply (proj1 (proj2 (proj2 (line_annotations demo_datagen demo_marked_analysis
                                1 [("key", "if")])))).
  vm_compute. reflexivity.
Defined.

(** ** escape *)

Lemma string_append_nil_r (s : string) : s +:+ "" = s.
Proof.
  induction s as [|c s IH]; [done |].
  change (String c (s +:+ "") = String c s). by rewrite IH.
Qed.

Lemma replace_char_app old new a b :
  replace_char old new (a +:+ b)
  = replace_char old new a +:+ replace_char old new b.
Proof.
  induction a as [|c a IH]; [done |].
  change (replace_char old new (String c (a +:+ b))
          = replace_char old new (String c a) +:+ replace_char old new b).
  cbn [replace_char]. rewrite IH. destruct (Ascii.eqb c old).
  - by rewrite string_append_assoc.
  - reflexivity.
Qed.

(** [escape], one character at a time. *)
Lemma escape_cons (c : ascii) (t : string) :
  escape (String c t)
  = (if Ascii.eqb c "&" then "&amp;"
     else if Ascii.eqb c "<" then "&lt;" else String c "") +:+ escape t.
Proof.
  unfold escape. cbn [replace_char].
  destruct (Ascii.eqb c "&") eqn:E1.
  - rewrite replace_char_app. reflexivity.
  - cbn [replace_char]. destruct (Ascii.eqb c "<") eqn:E2; reflexivity.
Qed.

Lemma occurs_app c a b : occurs c (a +:+ b) = occurs c a || occurs c b.
Proof.
  induction a as [|x a IH]; [done |].
  change (Ascii.eqb x c || occurs c (a +:+ b)
          = Ascii.eqb x c || occurs c a || occurs c b).
  rewrite IH. by rewrite orb_assoc.
Qed.

Lemma escape_no_lt (t : string) : occurs "<" (escape t) = false.
Proof.
  induction t as [|c t IH]; [done |].
  rewrite escape_cons, occurs_app, IH, orb_false_r.
  destruct (Ascii.eqb c "&"); [done |].
  destruct (Ascii.eqb c "<") eqn:E; [done |]. cbn. by rewrite E.
Qed.

Lemma escape_clean (t : string) :
  occurs "&" t = false -> occurs "<" t = false -> escape t = t.
Proof.
  induction t as [|c t IH]; [done |]. cbn [occurs].
  intros [E1 H1]%orb_false_elim [E2 H2]%orb_false_elim.
  rewrite escape_cons, E1, E2, IH by done. reflexivity.
Qed.

Lemma escape_app (a b : string) : escape (a +:+ b) = escape a +:+ escape b.
Proof. unfold escape. by rewrite !replace_char_app. Qed.

Lemma escape_inj (t1 t2 : string) : escape t1 = escape t2 -> t1 = t2.
Proof.
  revert t2. induction t1 as [|c1 t1 IH]; intros [|c2 t2].
  - done.
  - rewrite escape_cons.
    destruct (Ascii.eqb c2 "&"); [discriminate |].
    destruct (Ascii.eqb c2 "<"); discriminate.
  - rewrite escape_cons.
    destruct (Ascii.eqb c1 "&"); [discriminate |].
    destruct (Ascii.eqb c1 "<"); discriminate.
  - rewrite !escape_cons.
    destruct (Ascii.eqb c1 "&") eqn:A1; destruct (Ascii.eqb c2 "&") eqn:A2;
      try destruct (Ascii.eqb c1 "<") eqn:L1;
      try destruct (Ascii.eqb c2 "<") eqn:L2;
      repeat match goal with
             | H : Ascii.eqb _ _ = true |- _ => apply Ascii.eqb_eq in H; subst
             end;
      intros H; try discriminate H.
    all: try (injection H as H; f_equal; by apply IH).
    all: try (injection H as -> H; f_equal; by apply IH).
    all: try (injection H as <- H; discriminate).
    all: try (injection H as -> H; discriminate).
    all: discriminate.
Qed.

(** X15: [escape] leaves no '<' in its result, returns a text without '&'
    and '<' unchanged, escapes a concatenation piece by piece, and never
    maps two different texts to the same result. *)
Theorem escape_properties :
  (forall t, occurs "<" (escape t) = false) /\
  (forall t, occurs "&" t = false -> occurs "<" t = false -> escape t = t) /\
  (forall a b, escape (a +:+ b) = escape a +:+ escape b) /\
  (forall t1 t2, escape t1 = escape t2 -> t1 = t2).
Proof.
  split; [exact escape_no_lt |]. split; [exact escape_clean |].
  split; [exact escape_app | exact escape_inj].
Qed.

Lemma escape_properties_witness :
  escape "a < b && c" = "a &lt; b &amp;&amp; c" /\
  escape "x = 1" = "x = 1" /\
  ("&lt;" = "<" -> False).
Proof.
  destruct escape_properties as (_ & H2 & _ & H4).
  split; [reflexivity |]. split.
  - apply H2; reflexivity.
  - intros H. assert (escape "<" = escape "&lt;" -> "<" = "&lt;") as Hinj by apply H4.
    discriminate H.
Defined.

(** ** The package tree as a list *)

Lemma insert_by_key_map {A B} (f : A -> B) (kv : string * A) l :
  insert_by_key (fst kv, f (snd kv)) (map (fun x => (fst x, f (snd x))) l)
  = map (fun x => (fst x, f (snd x))) (insert_by_key kv l).
Proof.
  induction l as [|x l IH]; [done |]. cbn.
  destruct (String.leb (fst kv) (fst x)); [done |]. cbn. by rewrite IH.
Qed.

Lemma sorted_items_map {A B} (f : A -> B) (d : list (string * A)) :
  sorted_items (map (fun x => (fst x, f (snd x))) d)
  = map (fun x => (fst x, f (snd x))) (sorted_items d).
Proof.
  induction d as [|kv d IH]; [done |].
  cbn. unfold sorted_items in IH. rewrite IH. apply insert_by_key_map.
Qed.

(** [_add_branch_to_list] in terms of the sorted children. *)
Lemma _add_branch_to_list_eq (t : tree_info) (id : string) (pid : option string) :
  _add_branch_to_list t id pid
  = mkListed t id pid (negb (is_package t))
    :: concat (imap (fun i kc => _add_branch_to_list (snd kc)
                                   (child_id id (S i)) (Some id))
                    (sorted_items (children t))).
Proof.
  destruct t as [n h r p cs]. cbn [_add_branch_to_list is_package children].
  f_equal. f_equal.
  rewrite (sorted_items_map _add_branch_to_list cs).
  rewrite imap_fmap. reflexivity.
Qed.

Lemma insert_by_key_Permutation {A} (kv : string * A) l :
  insert_by_key kv l ≡ₚ kv :: l.
Proof.
  induction l as [|x l IH]; [done |]. cbn.
  destruct (String.leb (fst kv) (fst x)); [done |].
  rewrite IH. apply Permutation_swap.
Qed.

Lemma sorted_items_Permutation {A} (d : list (string * A)) :
  sorted_items d ≡ₚ d.
Proof.
  induction d as [|kv d IH]; [done |].
  cbn. rewrite insert_by_key_Permutation. by f_equiv.
Qed.

Lemma elem_of_concat_imap {A B} (g : nat -> A -> list B) (l : list A) (b : B) :
  b ∈ concat (imap g l) <-> exists i x, l !! i = Some x /\ b ∈ g i x.
Proof.
  revert g. induction l as [|x l IH]; intros g; cbn.
  - split; [by intros ?%elem_of_nil | by intros (i & y & ? & _)].
  - rewrite elem_of_app, IH. split.
    + intros [Hb | (i & y & Hy & Hb)]; [by exists 0%nat, x |].
      by exists (S i), y.
    + intros ([|i] & y & Hy & Hb).
      * injection Hy as <-. by left.
      * right. by exists i, y.
Qed.

Lemma NoDup_concat_imap {A B} (g : nat -> A -> list B) (l : list A) :
  (forall i x, l !! i = Some x -> NoDup (g i x)) ->
  (forall i j x y b,
     l !! i = Some x -> l !! j = Some y -> b ∈ g i x -> b ∈ g j y -> i = j) ->
  NoDup (concat (imap g l)).
Proof.
  revert g. induction l as [|x l IH]; intros g Hnd Hdisj; cbn.
  - constructor.
  - apply NoDup_app. split; [by apply (Hnd 0%nat) |]. split.
    + intros b Hb Hb'. apply elem_of_concat_imap in Hb' as (i & y & Hy & Hb').
      by specialize (Hdisj 0%nat (S i) x y b eq_refl Hy Hb Hb').
    + apply IH.
      * intros i y Hy. by apply (Hnd (S i)).
      * intros i j y z b Hy Hz Hb Hb'.
        by specialize (Hdisj (S i) (S j) y z b Hy Hz Hb Hb') as [= ->].
Qed.

Lemma map_concat_imap {A B D} (f : B -> D) (g : nat -> A -> list B) (l : list A) :
  map f (concat (imap g l)) = concat (imap (fun i x => map f (g i x)) l).
Proof.
  revert g. induction l as [|x l IH]; intros g; cbn; [done |].
  by rewrite map_app, IH.
Qed.

(** *** Decimal numbers and dots *)

Lemma pretty_N_char_no_dot (x : N) : Ascii.eqb (pretty_N_char x) "." = false.
Proof. unfold pretty_N_char. by repeat case_match. Qed.

Lemma pretty_N_go_no_dot (x : N) (s : string) :
  occurs "." s = false -> occurs "." (pretty_N_go x s) = false.
Proof.
  revert s. induction (N.lt_wf_0 x) as [x _ IH]; intros s Hs.
  assert (x = 0 \/ 0 < x)%N as [-> | Hx] by lia.
  - by rewrite pretty_N_go_0.
  - rewrite pretty_N_go_step by done. apply IH.
    + by apply N.div_lt.
    + cbn [occurs]. by rewrite pretty_N_char_no_dot, Hs.
Qed.

Lemma pretty_nat_no_dot (n : nat) : occurs "." (pretty n) = false.
Proof.
  unfold pretty, pretty_nat, pretty, pretty_N.
  case_decide; [done |]. by apply pretty_N_go_no_dot.
Qed.

Lemma string_append_inv_head (a x y : string) : a +:+ x = a +:+ y -> x = y.
Proof.
  induction a as [|c a IH]; [done |].
  change (String c (a +:+ x) = String c (a +:+ y) -> x = y).
  intros [= H]. by apply IH.
Qed.

(** Two dot-free strings that agree up to what follows the next dot are
    equal. *)
Lemma no_dot_prefix_eq (a b s1 s2 : string) :
  occurs "." a = false -> occurs "." b = false ->
  (s1 = "" \/ exists s, s1 = "." +:+ s) ->
  (s2 = "" \/ exists s, s2 = "." +:+ s) ->
  a +:+ s1 = b +:+ s2 -> a = b.
Proof.
  revert b. induction a as [|c a IH]; intros [|c' b] Ha Hb H1 H2.
  - done.
  - change ("" +:+ s1) with s1. change (String c' b +:+ s2) with (String c' (b +:+ s2)).
    cbn [occurs] in Hb. apply orb_false_elim in Hb as [Hc' _].
    destruct H1 as [-> | [s ->]]; [discriminate |].
    intros [= <- _]. discriminate Hc'.
  - change ("" +:+ s2) with s2. change (String c a +:+ s1) with (String c (a +:+ s1)).
    cbn [occurs] in Ha. apply orb_false_elim in Ha as [Hc _].
    destruct H2 as [-> | [s ->]]; [discriminate |].
    intros [= -> _]. discriminate Hc.
  - change (String c (a +:+ s1) = String c' (b +:+ s2) -> String c a = String c' b).
    cbn [occurs] in Ha, Hb.
    apply orb_false_elim in Ha as [_ Ha]. apply orb_false_elim in Hb as [_ Hb].
    intros [= -> H]. f_equal. by apply (IH b).
Qed.

Lemma below_refl (id : string) : below id id.
Proof. exists "". split; [by rewrite string_append_nil_r | by left]. Qed.

Lemma below_child (id x : string) (i : nat) :
  below (child_id id i) x -> exists s, x = id +:+ "." +:+ s.
Proof.
  intros (s & -> & _). unfold child_id. exists (pretty i +:+ s).
  by rewrite !string_append_assoc.
Qed.

Lemma below_child_below (id x : string) (i : nat) :
  below (child_id id i) x -> below id x.
Proof.
  intros (s & ->)%below_child. exists ("." +:+ s). split; [done |].
  right. by exists s.
Qed.

Lemma not_below_child_self (id : string) (i : nat) : ~ below (child_id id i) id.
Proof.
  intros (s & Hs)%below_child.
  assert (String.length id = String.length (id +:+ "." +:+ s)) as Hlen by congruence.
  clear Hs. induction id as [|c id IH]; [discriminate |].
  apply IH. by injection Hlen.
Qed.

Lemma below_pretty_inj (base x : string) (i j : nat) :
  below (base +:+ pretty i) x -> below (base +:+ pretty j) x -> i = j.
Proof.
  intros (s1 & -> & H1) (s2 & E & H2).
  rewrite !string_append_assoc in E. apply string_append_inv_head in E.
  apply no_dot_prefix_eq in E; [| apply pretty_nat_no_dot.. | done | done].
  by apply (inj pretty) in E.
Qed.

Lemma below_child_inj (id x : string) (i j : nat) :
  below (child_id id i) x -> below (child_id id j) x -> i = j.
Proof.
  unfold child_id. rewrite <- !string_append_assoc. apply below_pretty_inj.
Qed.

Lemma sorted_items_lookup_In {A} (d : list (string * A)) (i : nat) (kv : string * A) :
  sorted_items d !! i = Some kv -> In kv d.
Proof.
  intros H. apply list_elem_of_lookup_2 in H.
  rewrite sorted_items_Permutation in H. by apply list_elem_of_In.
Qed.

Lemma insert_by_key_Sorted {A} (kv : string * A) (l : list (string * A)) :
  Sorted (fun a b => String.leb (fst a) (fst b) = true) l ->
  Sorted (fun a b => String.leb (fst a) (fst b) = true) (insert_by_key kv l).
Proof.
  induction l as [|x l IH]; intros Hl; cbn.
  - by repeat constructor.
  - destruct (String.leb (fst kv) (fst x)) eqn:E.
    + constructor; [done | by constructor].
    + apply Sorted_inv in Hl as [Hl Hx]. constructor; [by apply IH |].
      destruct l as [|y l]; cbn.
      * constructor. by destruct (String.leb_total (fst kv) (fst x)); [congruence |].
      * destruct (String.leb (fst kv) (fst y)); constructor.
        -- by destruct (String.leb_total (fst kv) (fst x)); [congruence |].
        -- by apply HdRel_inv in Hx.
Qed.

Lemma sorted_items_Sorted {A} (d : list (string * A)) :
  Sorted (fun a b => String.leb (fst a) (fst b) = true) (sorted_items d).
Proof.
  induction d as [|kv d IH]; [constructor |].
  by apply insert_by_key_Sorted.
Qed.

(** What the entries of a listed branch look like. *)
Lemma listing_spec (t : tree_info) (id : string) (pid : option string)
    (e : listed_node) :
  e ∈ _add_branch_to_list t id pid ->
  below id (node_id e) /\
  is_module e = negb (is_package (listed e)) /\
  In (listed e) (nodes t) /\
  (e = mkListed t id pid (negb (is_package t)) \/
   node_id e <> id /\
   exists parent i k,
     parent ∈ _add_branch_to_list t id pid /\
     node_pid e = Some (node_id parent) /\
     node_id e = child_id (node_id parent) (S i) /\
     sorted_items (children (listed parent)) !! i = Some (k, listed e)).
Proof.
  revert id pid e. induction t as [n h r p cs IH] using tree_info_ind'.
  intros id pid e. rewrite _add_branch_to_list_eq.
  rewrite List.Forall_forall in IH.
  intros [-> | He]%elem_of_cons.
  { cbn. split; [apply below_refl |]. split; [done |].
    split; [by left | by left]. }
  apply elem_of_concat_imap in He as (i & [k c] & Hkc & He).
  cbn [children] in Hkc. cbn [snd] in He.
  pose proof (sorted_items_lookup_In _ _ _ Hkc) as Hin.
  destruct (IH _ Hin _ _ _ He) as (Hbelow & Hmod & Hnodes & Hparent).
  cbn [snd] in *.
  split; [by eapply below_child_below |]. split; [done |].
  split; [by apply (nodes_child _ _ k c) |]. right.
  split.
  { intros E. rewrite E in Hbelow. by apply not_below_child_self in Hbelow. }
  destruct Hparent as [-> | (_ & parent & j & k' & Hp & Hpid & Hid & Hch)].
  - exists (mkListed (TreeInfo n h r p cs) id pid (negb p)), i, k.
    cbn. split; [by left |]. done.
  - exists parent, j, k'. split; [|done].
    right. apply elem_of_concat_imap. by exists i, (k, c).
Qed.

Lemma listing_ids_NoDup (t : tree_info) (id : string) (pid : option string) :
  NoDup (map node_id (_add_branch_to_list t id pid)).
Proof.
  revert id pid. induction t as [n h r p cs IH] using tree_info_ind'.
  intros id pid. rewrite _add_branch_to_list_eq. cbn [map node_id children].
  rewrite List.Forall_forall in IH.
  apply NoDup_cons. split.
  - intros (e & E & He)%list_elem_of_fmap.
    apply elem_of_concat_imap in He as (i & [k c] & _ & He).
    apply listing_spec in He as (Hbelow & _). cbn in Hbelow.
    rewrite <- E in Hbelow. by apply not_below_child_self in Hbelow.
  - rewrite map_concat_imap. apply NoDup_concat_imap.
    + intros i [k c] Hkc. apply (IH (k, c)).
      by apply sorted_items_lookup_In in Hkc.
    + intros i j x y b _ _ (e1 & -> & H1)%list_elem_of_fmap
        (e2 & E & H2)%list_elem_of_fmap.
      apply listing_spec in H1 as (B1 & _). apply listing_spec in H2 as (B2 & _).
      rewrite <- E in B2.
      by pose proof (below_child_inj _ _ _ _ B1 B2) as [= ->].
Qed.

Lemma listing_children_Permutation (l : list (string * tree_info))
    (f : nat -> string) (pid : option string) :
  Forall (fun kc => forall id pid,
            map listed (_add_branch_to_list (snd kc) id pid) ≡ₚ nodes (snd kc)) l ->
  map listed (concat (imap (fun i kc => _add_branch_to_list (snd kc) (f i) pid) l))
  ≡ₚ flat_map (fun kc => nodes (snd kc)) l.
Proof.
  intros H. revert f. induction H as [|kc l Hkc _ IHl]; intros f; [done |].
  cbn. rewrite map_app. f_equiv; [apply Hkc |].
  apply (IHl (fun i => f (S i))).
Qed.

Lemma listing_Permutation (t : tree_info) (id : string) (pid : option string) :
  map listed (_add_branch_to_list t id pid) ≡ₚ nodes t.
Proof.
  revert id pid. induction t as [n h r p cs IH] using tree_info_ind'.
  intros id pid. rewrite _add_branch_to_list_eq, nodes_children.
  cbn [map listed children]. f_equiv.
  rewrite <- (Permutation_flat_map _ (sorted_items_Permutation cs)).
  apply (listing_children_Permutation _ (fun i => child_id id (S i))).
  by rewrite sorted_items_Permutation.
Qed.

(** X16: [package_tree_to_list] lists every node of the tree exactly once,
    and marks as module exactly the nodes that are not packages. *)
Theorem package_tree_to_list_complete (package_tree : list (string * tree_info)) :
  map listed (package_tree_to_list package_tree)
    ≡ₚ flat_map (fun kt => nodes (snd kt)) package_tree /\
  forall e, e ∈ package_tree_to_list package_tree ->
            is_module e = negb (is_package (listed e)).
Proof.
  unfold package_tree_to_list. split.
  - rewrite <- (Permutation_flat_map _ (sorted_items_Permutation package_tree)).
    apply (listing_children_Permutation _ (fun i => pretty (S i))).
    apply List.Forall_forall. intros kt _. apply listing_Permutation.
  - intros e (i & kt & _ & He)%elem_of_concat_imap.
    by apply listing_spec in He as (_ & Hm & _).
Qed.

(** X17: the identifiers that [package_tree_to_list] assigns are pairwise
    different.  An entry without parent identifier is a root of the tree,
    and its identifier is its position, counted from 1, among the roots in
    the order of their keys.  The parent identifier of any other entry is
    the identifier of a listed entry that has the node among its children,
    and the entry's identifier is the parent's followed by a dot and the
    node's position, counted from 1, among the parent's children in the
    order of their keys; that order lists the same items with the keys
    ascending. *)
Theorem package_tree_to_list_ids (package_tree : list (string * tree_info)) :
  let entries := package_tree_to_list package_tree in
  NoDup (map node_id entries) /\
  (forall d : list (string * tree_info),
     sorted_items d ≡ₚ d /\
     Sorted (fun a b => String.leb (fst a) (fst b) = true) (sorted_items d)) /\
  forall e, e ∈ entries ->
    match node_pid e with
    | None =>
        exists i k,
          In (k, listed e) package_tree /\
          sorted_items package_tree !! i = Some (k, listed e) /\
          node_id e = pretty (S i)
    | Some pid =>
        exists parent i k,
          parent ∈ entries /\ node_id parent = pid /\
          node_id e = child_id pid (S i) /\
          In (k, listed e) (children (listed parent)) /\
          sorted_items (children (listed parent)) !! i = Some (k, listed e)
    end.
Proof.
  cbv zeta. unfold package_tree_to_list. split; [|split].
  - rewrite map_concat_imap. apply NoDup_concat_imap.
    + intros i kt _. apply listing_ids_NoDup.
    + intros i j x y b _ _ (e1 & -> & H1)%list_elem_of_fmap
        (e2 & E & H2)%list_elem_of_fmap.
      apply listing_spec in H1 as (B1 & _). apply listing_spec in H2 as (B2 & _).
      rewrite <- E in B2.
      by pose proof (below_pretty_inj "" _ _ _ B1 B2) as [= ->].
  - intros d. split; [apply sorted_items_Permutation | apply sorted_items_Sorted].
  - intros e (i & [k t] & Hkt & He)%elem_of_concat_imap. cbn [snd] in He.
    pose proof He as Hspec.
    apply listing_spec in Hspec
      as (_ & _ & _ & [-> | (_ & parent & j & k' & Hp & Hpid & Hid & Hch)]).
    + cbn. exists i, k. split; [| done].
      by apply sorted_items_lookup_In in Hkt.
    + rewrite Hpid. exists parent, j, k'.
      split; [apply elem_of_concat_imap; by exists i, (k, t) |].
      do 2 (split; [done |]). split; [| done].
      by apply sorted_items_lookup_In in Hch.
Qed.

Lemma package_tree_to_list_ids_witness :
  exists e,
    e ∈ package_tree_to_list demo_tree /\
    relative_filename (listed e) = "x.py" /\
    node_id e = "1.1.2" /\
    exists parent i k,
      parent ∈ package_tree_to_list demo_tree /\
      node_id parent = "1.1" /\
      node_id e = child_id "1.1" (S i) /\
      In (k, listed e) (children (listed parent)) /\
      sorted_items (children (listed parent)) !! i = Some (k, listed e).
Proof.
  eexists. split; [vm_compute; do 4 right; left; reflexivity |].
  do 2 (split; [reflexivity |]).
  match goal with
  | |- exists parent i k, _ /\ _ /\ node_id ?e = _ /\ _ /\ _ =>
      apply (proj2 (proj2 (package_tree_to_list_ids demo_tree)) e)
  end.
  vm_compute. do 4 right. left.
Defined.

Lemma package_tree_to_list_complete_witness :
  exists e,
    e ∈ package_tree_to_list demo_tree /\
    node_id e = "1.1" /\ is_module e = negb (is_package (listed e)).
Proof.
  eexists. split; [vm_compute; right; left |]. split; [reflexivity |].
  match goal with
  | |- is_module ?e = _ =>
      apply (proj2 (package_tree_to_list_complete demo_tree) e)
  end.
  vm_compute. right. left.
Defined.

(** ** cmdline.py: unshell_list *)

Lemma concat_split (c : ascii) (s : string) :
  String.concat (String c "") (split c s) = s.
Proof.
  induction s as [|x s IH]; [done |]. cbn [split].
  destruct (Ascii.eqb x c) eqn:E.
  - apply Ascii.eqb_eq in E. subst x.
    pose proof (split_not_nil c s) as Hne.
    destruct (split c s) as [|y ys]; [done |].
    cbn [String.concat] in *. by rewrite IH.
  - pose proof (split_not_nil c s) as Hne.
    destruct (split c s) as [|y ys]; [done |].
    destruct ys as [|z zs]; cbn [String.concat] in *.
    + by rewrite IH.
    + rewrite <- IH. reflexivity.
Qed.

Lemma split_no_sep (c : ascii) (s x : string) :
  In x (split c s) -> occurs c x = false.
Proof.
  revert x. induction s as [|y s IH]; intros x; cbn [split].
  - by intros [<- | []].
  - destruct (Ascii.eqb y c) eqn:E.
    + intros [<- | Hx]; [done | by apply IH].
    + pose proof (split_not_nil c s) as Hne.
      destruct (split c s) as [|z zs]; [done |].
      intros [<- | Hx].
      * cbn [occurs]. rewrite E. apply IH. by left.
      * apply IH. by right.
Qed.

(** X18: [unshell_list] returns [None] exactly for an unset or empty
    option; otherwise the list is never empty and none of its items contains
    a comma.  Off Windows the items joined by commas give back the option
    value.  On Windows the quotes are stripped after the emptiness test, so
    an option made of quotes only gives the list with one empty item. *)
Theorem unshell_list_properties (windows : bool) (s : option string) :
  (unshell_list windows s = None <-> s = None \/ s = Some "") /\
  (forall l, unshell_list windows s = Some l ->
     l <> [] /\ forall x, In x l -> occurs "," x = false) /\
  (forall l t, windows = false -> s = Some t -> unshell_list windows s = Some l ->
     String.concat "," l = t) /\
  (forall t, s = Some t -> t <> "" -> strip_char "'" t = "" ->
     unshell_list true s = Some [""]).
Proof.
  split; [|split; [|split]].
  - destruct s as [[|c t]|]; cbn; split; try done; try tauto.
    + intros [H | H]; discriminate H.
  - intros l H. destruct s as [[|c t]|]; try discriminate H.
    injection H as <-. split; [apply split_not_nil |].
    intros x. apply split_no_sep.
  - intros l t -> -> H. destruct t as [|c t]; [discriminate H |].
    injection H as <-. exact (concat_split "," (String c t)).
  - intros t -> Hne Hs. destruct t as [|c t]; [done |].
    unfold unshell_list. by rewrite Hs.
Qed.

Lemma unshell_list_properties_witness :
  unshell_list false (Some "a.py,b/*.py") = Some ["a.py"; "b/*.py"] /\
  String.concat "," ["a.py"; "b/*.py"] = "a.py,b/*.py" /\
  unshell_list true (Some "'src/*,lib/*'") = Some ["src/*"; "lib/*"] /\
  unshell_list true (Some "'") = Some [""].
Proof.
  split; [reflexivity |]. split; [|split; [reflexivity |]].
  - apply (proj1 (proj2 (proj2 (unshell_list_properties false (Some "a.py,b/*.py"))))
             ["a.py"; "b/*.py"] "a.py,b/*.py"); reflexivity.
  - apply (proj2 (proj2 (proj2 (unshell_list_properties true (Some "'")))) "'");
      [reflexivity | discriminate | reflexivity].
Defined.

(** ** data_filename *)

Lemma data_filename_from_spec path_join path_exists couldnt_find
    (dirs : list string) (fname pkgdir : string) (tried : list string) :
  match data_filename_from path_join path_exists couldnt_find dirs fname pkgdir tried with
  | Ok p =>
      exists before after,
        static_candidates path_join dirs fname pkgdir = (before ++ p :: after)%list /\
        path_exists p = true /\
        Forall (fun q => path_exists q = false) before
  | Raise e =>
      e = CoverageException
            (couldnt_find fname
               (tried ++ static_candidates path_join dirs fname pkgdir)%list) /\
      Forall (fun q => path_exists q = false)
             (static_candidates path_join dirs fname pkgdir)
  end.
Proof.
  revert tried. induction dirs as [|d rest IH]; intros tried.
  - cbn. by rewrite app_nil_r.
  - cbn [data_filename_from static_candidates flat_map].
    destruct (path_exists (path_join d [fname])) eqn:E1.
    { exists [], (match pkgdir with
                  | EmptyString => []
                  | _ => [path_join d [pkgdir; fname]]
                  end ++ static_candidates path_join rest fname pkgdir)%list.
      by split. }
    destruct pkgdir as [|c pkgdir].
    + specialize (IH (tried ++ [path_join d [fname]])%list).
      destruct (data_filename_from _ _ _ rest fname "" _) as [p|e].
      * destruct IH as (before & after & Hc & Hp & Hb).
        exists (path_join d [fname] :: before), after. cbn.
        fold (static_candidates path_join rest fname "").
        rewrite Hc. split; [done |]. split; [done |]. by constructor.
      * destruct IH as [-> Hall]. cbn.
        fold (static_candidates path_join rest fname "").
        rewrite <- app_assoc. split; [done |]. by constructor.
    + destruct (path_exists (path_join d [String c pkgdir; fname])) eqn:E2.
      { exists [path_join d [fname]],
          (static_candidates path_join rest fname (String c pkgdir)).
        split; [done |]. split; [done |]. by repeat constructor. }
      specialize (IH ((tried ++ [path_join d [fname]])
                        ++ [path_join d [String c pkgdir; fname]])%list).
      destruct (data_filename_from _ _ _ rest fname (String c pkgdir) _) as [p|e].
      * destruct IH as (before & after & Hc & Hp & Hb).
        exists (path_join d [fname] :: path_join d [String c pkgdir; fname] :: before),
          after. cbn.
        fold (static_candidates path_join rest fname (String c pkgdir)).
        rewrite Hc. split; [done |]. split; [done |]. by repeat constructor.
      * destruct IH as [-> Hall]. cbn.
        fold (static_candidates path_join rest fname (String c pkgdir)).
        rewrite <- !app_assoc. split; [done |]. by repeat constructor.
Qed.

(** X19: [data_filename] returns the first place that exists among the
    places it looks at, in order (for each directory of [STATIC_PATH] the
    file itself, then the file under [pkgdir] when one is given); when none
    exists it raises [CoverageException] with the list of all the places
    tried. *)
Theorem data_filename_first_found (STATIC_PATH : list string)
    (path_join : string -> list string -> string)
    (path_exists : string -> bool)
    (couldnt_find : string -> list string -> string) (fname pkgdir : string) :
  let places := static_candidates path_join STATIC_PATH fname pkgdir in
  match data_filename STATIC_PATH path_join path_exists couldnt_find fname pkgdir with
  | Ok p =>
      exists before after,
        places = (before ++ p :: after)%list /\
        path_exists p = true /\
        Forall (fun q => path_exists q = false) before
  | Raise e =>
      e = CoverageException (couldnt_find fname places) /\
      Forall (fun q => path_exists q = false) places
  end.
Proof.
  cbv zeta. unfold data_filename.
  apply (data_filename_from_spec path_join path_exists couldnt_find
           STATIC_PATH fname pkgdir []).
Qed.

Example data_filename_in_package_directory :
  data_filename ["/usr/share/javascript"; "/pkg/htmlfiles"] demo_join demo_exists
    (fun _ _ => "") "jquery.min.js" "jquery"
  = Ok "/pkg/htmlfiles/jquery/jquery.min.js"
  /\ data_filename ["/usr/share/javascript"; "/pkg/htmlfiles"] demo_join demo_exists
       (fun fname tried => String.concat "," tried) "style.css" ""
     = Raise (CoverageException
                "/usr/share/javascript/style.css,/pkg/htmlfiles/style.css").
Proof. split; reflexivity. Qed.

(** ** The final write of a report *)

Lemma json_serializable_dict (d : pydict) :
  json_serializable (VDict d) = forallb (fun kv => json_serializable (snd kv)) d.
Proof. reflexivity. Qed.

Lemma json_serializable_set (k : string) (x : pyval) (d : pydict) :
  json_serializable (VDict (alist_set k x d))
  = json_serializable x && serializable_but k d.
Proof.
  rewrite json_serializable_dict.
  induction d as [|[k' v] d IH]; cbn.
  - by rewrite andb_true_r.
  - destruct (String.eqb k' k); cbn; [done |].
    rewrite IH. by rewrite !andb_assoc, (andb_comm (json_serializable v)).
Qed.

Lemma json_serializable_get (k : string) (x : pyval) (d : pydict) :
  json_serializable (VDict d) = true -> alist_get k d = Some x ->
  json_serializable x = true.
Proof.
  rewrite json_serializable_dict.
  induction d as [|[k' v] d IH]; cbn; [done |].
  intros [Hv Hd]%andb_true_iff. destruct (String.eqb k' k).
  - by intros [= <-].
  - by apply IH.
Qed.

Lemma serializable_but_all (k : string) (d : pydict) :
  json_serializable (VDict d) = true -> serializable_but k d = true.
Proof.
  rewrite json_serializable_dict.
  induction d as [|[k' v] d IH]; cbn; [done |].
  intros [Hv Hd]%andb_true_iff. destruct (String.eqb k' k); [done |].
  by rewrite Hv, IH.
Qed.

Lemma serializable_but_set_same (k : string) (x : pyval) (d : pydict) :
  serializable_but k d = true -> serializable_but k (alist_set k x d) = true.
Proof.
  induction d as [|[k0 v] d IH]; cbn.
  - by rewrite String.eqb_refl.
  - destruct (String.eqb k0 k) eqn:E; cbn; rewrite E; [done |].
    intros [Hv Hd]%andb_true_iff. by rewrite Hv, IH.
Qed.

Lemma serializable_but_set_other (k k' : string) (x : pyval) (d : pydict) :
  k <> k' -> json_serializable x = true ->
  serializable_but k d = true -> serializable_but k (alist_set k' x d) = true.
Proof.
  intros Hne Hx. induction d as [|[k0 v] d IH]; cbn.
  - intros _. destruct (String.eqb k' k) eqn:E.
    + apply String.eqb_eq in E. by subst.
    + by rewrite Hx.
  - destruct (String.eqb k0 k) eqn:E0.
    + apply String.eqb_eq in E0. subst k0.
      destruct (String.eqb k k') eqn:E; [apply String.eqb_eq in E; by subst |].
      cbn. rewrite String.eqb_refl. intros Hd.
      change (json_serializable (VDict (alist_set k' x d)) = true).
      rewrite json_serializable_set, Hx. by apply serializable_but_all.
    + destruct (String.eqb k0 k') eqn:E; cbn; rewrite E0.
      * intros [_ Hd]%andb_true_iff. by rewrite Hx.
      * intros [Hv Hd]%andb_true_iff. by rewrite Hv, IH.
Qed.

Lemma mapM_values_all (f : pyval -> result pyval) (P : pyval -> Prop) (l : pydict) :
  (forall k v, (k, v) ∈ l -> exists v', f v = Ok v' /\ P v') ->
  exists l', mapM_values f l = Ok l' /\ Forall (fun kv => P (snd kv)) l'.
Proof.
  induction l as [|[k v] l IH]; intros H; simpl.
  - by exists [].
  - destruct (H k v) as (v' & -> & Hv'); [left |].
    destruct IH as (l' & -> & Hl'); [intros; apply (H k0); by right |].
    exists ((k, v') :: l'). split; [done |]. by constructor.
Qed.

Section FinalWrite.
Context `{C : Collaborators}.
Import IncrementalChecker.

(** An entry with Numbers under ['index']['nums'] is writable when the rest
    of it is accepted by json.dump. *)
Lemma writable_intro (d di : pydict) (n : Numbers) :
  alist_get "index" d = Some (VDict di) ->
  alist_get "nums" di = Some (VNumbers n) ->
  serializable_but "index" d = true -> serializable_but "nums" di = true ->
  writable (VDict d).
Proof.
  intros Hd Hdi Sd Sdi. eexists. split.
  - unfold write_fileinfo; simpl. rewrite Hd; simpl. rewrite Hdi; simpl. reflexivity.
  - rewrite json_serializable_set, Sd, json_serializable_set, Sdi. by destruct n.
Qed.

Lemma writable_inv (v : pyval) :
  writable v ->
  exists d di n,
    v = VDict d /\ alist_get "index" d = Some (VDict di) /\
    alist_get "nums" di = Some (VNumbers n) /\
    serializable_but "index" d = true /\ serializable_but "nums" di = true.
Proof.
  intros (v' & Hw & Hs).
  apply write_fileinfo_Ok_inv in Hw as (d & di & n & -> & Hd & Hdi & ->).
  exists d, di, n. do 3 (split; [done |]).
  rewrite json_serializable_set in Hs. apply andb_true_iff in Hs as [Hs ->].
  rewrite json_serializable_set in Hs. by apply andb_true_iff in Hs as [_ ->].
Qed.

Lemma read_fileinfo_writable (x x' : pyval) :
  json_serializable x = true -> read_fileinfo x = Ok x' -> writable x'.
Proof.
  intros Hx H. unfold read_fileinfo in H.
  apply bind_Ok in H as (index & Hindex & H).
  apply bind_Ok in H as (args & Hargs & H).
  apply bind_Ok in H as (n & Hn & H).
  apply bind_Ok in H as (index' & Hindex' & H).
  destruct x as [| | | | | |d|]; try discriminate.
  destruct index as [| | | | | |di|]; try discriminate.
  cbn [py_getitem py_setitem] in *.
  destruct (alist_get "index" d) as [y|] eqn:Ed; [|discriminate].
  injection Hindex as ->. injection Hindex' as <-. injection H as <-.
  pose proof (json_serializable_get _ _ _ Hx Ed) as Hdi.
  apply (writable_intro _ (alist_set "nums" (VNumbers n) di) n).
  - by rewrite alist_get_set_eq.
  - by rewrite alist_get_set_eq.
  - by apply serializable_but_set_same, serializable_but_all.
  - by apply serializable_but_set_same, serializable_but_all.
Qed.

Lemma read_files_writable (items : pydict) (acc files' : gmap string pyval) :
  json_serializable (VDict items) = true ->
  (forall k v, acc !! k = Some v -> writable v) ->
  read_files items acc = Ok files' ->
  forall k v, files' !! k = Some v -> writable v.
Proof.
  revert acc. induction items as [|[k0 x] items IH]; intros acc Hs Hacc H; simpl in H.
  - by injection H as <-.
  - apply bind_Ok in H as (x' & Hx & H).
    rewrite json_serializable_dict in Hs. cbn in Hs.
    apply andb_true_iff in Hs as [Hsx Hs].
    apply (IH (<[k0 := x']> acc)); [done | | done].
    intros k v [[<- <-] | [_ Hk]]%lookup_insert_Some; [| by apply (Hacc k)].
    by apply (read_fileinfo_writable x).
Qed.

Lemma cache_writable_reset (c : state) : cache_writable (reset c).
Proof. split; [done |]. intros k v. cbn. by rewrite lookup_empty. Qed.

Lemma read_writable (c c' : state) (f : option file_content) :
  (forall v, f = Some (Json v) -> json_serializable v = true) ->
  read c f = Ok c' -> cache_writable c'.
Proof.
  intros Hf H. unfold read in H.
  destruct f as [[| | |status]|]; simpl in H; try discriminate H;
    try (injection H as <-; apply cache_writable_reset).
  specialize (Hf status eq_refl).
  apply bind_Ok in H as (format & Hformat & H).
  apply bind_Ok in H as (usable & Husable & H).
  destruct usable; [| injection H as <-; apply cache_writable_reset].
  apply bind_Ok in H as (status_files & Hfiles & H).
  apply bind_Ok in H as (items & Hitems & H).
  apply bind_Ok in H as (files' & Hread & H).
  apply bind_Ok in H as (globals' & Hglobals & [= <-]).
  destruct status as [| | | | | |d|]; try discriminate.
  cbn [py_getitem] in *.
  destruct (alist_get "files" d) as [y|] eqn:Ef; [|discriminate].
  injection Hfiles as ->.
  destruct (alist_get "globals" d) as [g|] eqn:Eg; [|discriminate].
  injection Hglobals as ->.
  destruct status_files as [| | | | | |its|]; try discriminate.
  injection Hitems as ->.
  split; cbn.
  - by apply (json_serializable_get "globals" _ d).
  - apply (read_files_writable items ∅); [| | done].
    + by apply (json_serializable_get "files" _ d).
    + intros k v. by rewrite lookup_empty.
Qed.

Lemma check_global_data_writable (c : state) (data : list hashable) :
  cache_writable c -> cache_writable (check_global_data c data).
Proof.
  intros Hc. unfold check_global_data.
  destruct (negb _); [| done].
  split; [done |]. intros k v. cbn. by rewrite lookup_empty.
Qed.

Lemma write_Ok (c : state) :
  cache_writable c ->
  exists c' status,
    write c = Ok (c', Json status) /\ json_serializable status = true.
Proof.
  intros [Hg Hf]. unfold write.
  destruct (mapM_values_all write_fileinfo (fun v => json_serializable v = true)
              (map_to_list (files c))) as (l' & -> & Hl').
  { intros k v Hkv%elem_of_map_to_list. by apply (Hf k). }
  cbn [mbind result_bind]. 
  assert (json_serializable (VDict l') = true) as Hs.
  { rewrite json_serializable_dict. apply forallb_forall.
    by apply List.Forall_forall. }
  cbn [json_serializable forallb snd]. rewrite Hg.
  change (forallb _ l') with (json_serializable (VDict l')). rewrite Hs.
  cbn. do 2 eexists. split; [reflexivity |].
  cbn [json_serializable forallb snd]. rewrite Hg.
  change (forallb _ l') with (json_serializable (VDict l')). by rewrite Hs.
Qed.

Lemma set_index_info_writable (c1 c2 : state) (rootname : string) (info : IndexInfo) :
  (forall k v, k <> rootname -> files c1 !! k = Some v -> writable v) ->
  (forall d, files c1 !! rootname = Some (VDict d) ->
     serializable_but "index" d = true) ->
  json_serializable (globals c1) = true ->
  set_index_info c1 rootname (HtmlReporter.index_info_dict info) = Ok c2 ->
  cache_writable c2.
Proof.
  intros Hother Hroot Hg H. unfold set_index_info in H.
  apply bind_Ok in H as (fileinfo & Hset & [= <-]).
  split; [done |]. cbn.
  intros k v [[<- <-] | [Hne Hk]]%lookup_insert_Some; [| by apply (Hother k)].
  unfold files_get in Hset.
  destruct (files c1 !! rootname) as [old|] eqn:E; cbn in Hset.
  - destruct old as [| | | | | |d|]; try discriminate.
    injection Hset as <-.
    eapply writable_intro.
    + by rewrite alist_get_set_eq.
    + reflexivity.
    + by apply serializable_but_set_same, Hroot.
    + reflexivity.
  - injection Hset as <-. eapply writable_intro; reflexivity.
Qed.

Lemma can_skip_file_writable (c c1 : state) (d : CoverageData) (fr : FileReporter)
    (rootname : string) :
  cache_writable c ->
  can_skip_file c d fr rootname = Ok (false, c1) ->
  json_serializable (globals c1) = true /\
  (forall k v, k <> rootname -> files c1 !! k = Some v -> writable v) /\
  (forall d, files c1 !! rootname = Some (VDict d) ->
     serializable_but "index" d = true).
Proof.
  intros [Hg Hf] H. unfold can_skip_file in H.
  apply bind_Ok in H as (that & Hthat & H).
  destruct (py_eq_str that _); [discriminate |].
  apply bind_Ok in H as (c' & Hset & [= <-]).
  unfold set_file_hash in Hset.
  apply bind_Ok in Hset as (fileinfo & Hset & [= <-]). cbn.
  split; [done |]. split.
  - intros k v Hne. rewrite lookup_insert_ne by done. apply Hf.
  - intros d'. rewrite lookup_insert_eq. intros [= ->].
    unfold files_get in Hset.
    destruct (files c !! rootname) as [old|] eqn:E; cbn in Hset.
    + destruct (writable_inv old (Hf _ _ E)) as (d0 & di & n & -> & _ & _ & Hd0 & _).
      injection Hset as <-. by apply serializable_but_set_other.
    + by injection Hset as <-.
Qed.

End FinalWrite.

Section ReportCompletes.
Context `{C : Collaborators}.
Import HtmlReporter.

Lemma incr_add_module_to_tree (r r' : state) (info : pyval) :
  add_module_to_tree r info = Ok r' -> incr r' = incr r.
Proof.
  unfold add_module_to_tree. intros H.
  apply bind_Ok in H as (i & _ & [= <-]). reflexivity.
Qed.

Lemma html_file_writable (r r' : state) (dir dir' : OutputDir)
    (fr : FileReporter) (a : Analysis) :
  cache_writable (incr r) ->
  html_file r dir fr a = Ok (r', dir') -> cache_writable (incr r').
Proof.
  intros Hc H. unfold html_file in H.
  destruct (_ && _ && _); [by injection H as <- _ |].
  destruct (_ && _); [by injection H as <- _ |].
  apply bind_Ok in H as ([skip c1] & Hskip & H).
  destruct skip.
  - apply bind_Ok in H as (info & Hinfo & H).
    apply bind_Ok in H as (r1 & Hadd & [= <- _]).
    rewrite (incr_add_module_to_tree _ _ _ Hadd). cbn.
    cbn in Hskip. unfold IncrementalChecker.can_skip_file in Hskip.
    apply bind_Ok in Hskip as (that & _ & Hskip).
    destruct (py_eq_str that _).
    + by injection Hskip as <-.
    + by apply bind_Ok in Hskip as (? & _ & [=]).
  - apply bind_Ok in H as (r1 & Hadd & H).
    apply bind_Ok in H as (c2 & Hset & [= <- _]).
    rewrite (incr_add_module_to_tree _ _ _ Hadd) in Hset. cbn in Hset, Hskip |- *.
    destruct (can_skip_file_writable _ _ _ _ _ Hc Hskip) as (Hg & Hother & Hroot).
    by eapply (set_index_info_writable c1 c2), Hset.
Qed.

Lemma html_files_writable (analyses : list (FileReporter * Analysis))
    (r r' : state) (dir dir' : OutputDir) :
  cache_writable (incr r) ->
  html_files r dir analyses = Ok (r', dir') -> cache_writable (incr r').
Proof.
  revert r dir. induction analyses as [|[fr a] rest IH]; intros r dir Hc H; simpl in H.
  - by injection H as <- _.
  - apply bind_Ok in H as ([r1 dir1] & H1 & H).
    apply (IH r1 dir1); [| done]. by apply (html_file_writable r _ dir dir1 fr a).
Qed.

End ReportCompletes.

(** X20: the cache that a report ends with can be written.  When the
    content of the status file found is plain JSON data, the status is read
    and the files are processed without an exception, then the global
    fingerprint is plain JSON data and every cache entry is a dict with
    Numbers under ['index']['nums'] which the loop of [write] converts into
    plain JSON data.  So in the [write] that closes the report neither the
    conversion raises [KeyError], [TypeError] or [AttributeError], nor does
    json.dump raise [TypeError] on the status. *)
Theorem report_cache_is_writable `{C : Collaborators}
    (r r1 : HtmlReporter.state) (dir dir1 : OutputDir)
    (analyses : list (FileReporter * Analysis)) (c0 : IncrementalChecker.state) :
  (forall v, status_json dir = Some (Json v) -> json_serializable v = true) ->
  IncrementalChecker.read (HtmlReporter.incr r) (status_json dir) = Ok c0 ->
  HtmlReporter.html_files
    (HtmlReporter.set_incr r
       (IncrementalChecker.check_global_data c0
          [HtmlReporter.config r; HtmlReporter.pyfile_html_source r]))
    dir analyses = Ok (r1, dir1) ->
  let c := HtmlReporter.incr r1 in
  json_serializable (IncrementalChecker.globals c) = true /\
  (forall fname v,
     IncrementalChecker.files c !! fname = Some v ->
     exists d di n v',
       v = VDict d /\ alist_get "index" d = Some (VDict di) /\
       alist_get "nums" di = Some (VNumbers n) /\
       IncrementalChecker.write_fileinfo v = Ok v' /\
       json_serializable v' = true) /\
  IncrementalChecker.write c <> Raise TypeError /\
  IncrementalChecker.write c <> Raise AttributeError /\
  forall k, IncrementalChecker.write c <> Raise (KeyError k).
Proof.
  intros Hdir Hread Hfiles c.
  assert (cache_writable c) as Hw.
  { eapply html_files_writable; [| exact Hfiles]. cbn.
    apply check_global_data_writable. by eapply read_writable, Hread. }
  destruct (write_Ok _ Hw) as (c' & status & Hwrite & Hs).
  split; [apply Hw |]. split.
  - intros fname v Hv. destruct Hw as [_ Hw].
    destruct (Hw fname v Hv) as (v' & Hv' & Hsv').
    destruct (write_fileinfo_Ok_inv _ _ Hv') as (d & di & n & -> & Hd & Hdi & _).
    by exists d, di, n, v'.
  - rewrite Hwrite. by repeat split.
Qed.

Lemma report_cache_is_writable_witness :
  exists r1 dir1,
    HtmlReporter.html_files (C := demo)
      (HtmlReporter.set_incr (demo_reporter false false)
         (IncrementalChecker.check_global_data demo_checker
            [HtmlReporter.config (demo_reporter false false);
             HtmlReporter.pyfile_html_source (demo_reporter false false)]))
      {| status_json := Some demo_status; pages := ∅ |}
      [demo_covered; demo_uncovered] = Ok (r1, dir1) /\
    json_serializable (IncrementalChecker.globals (HtmlReporter.incr r1)) = true /\
    (forall fname v,
       IncrementalChecker.files (HtmlReporter.incr r1) !! fname = Some v ->
       exists d di n v',
         v = VDict d /\ alist_get "index" d = Some (VDict di) /\
         alist_get "nums" di = Some (VNumbers n) /\
         IncrementalChecker.write_fileinfo v = Ok v' /\
         json_serializable v' = true) /\
    IncrementalChecker.write (C := demo) (HtmlReporter.incr r1) <> Raise TypeError /\
    IncrementalChecker.write (C := demo) (HtmlReporter.incr r1) <> Raise AttributeError /\
    forall k, IncrementalChecker.write (C := demo) (HtmlReporter.incr r1)
              <> Raise (KeyError k).
Proof.
  destruct (HtmlReporter.html_files (C := demo)
              (HtmlReporter.set_incr (demo_reporter false false)
                 (IncrementalChecker.check_global_data demo_checker
                    [HtmlReporter.config (demo_reporter false false);
                     HtmlReporter.pyfile_html_source (demo_reporter false false)]))
              {| status_json := Some demo_status; pages := ∅ |}
              [demo_covered; demo_uncovered])
    as [[r1 dir1]|e] eqn:Hfiles; [| vm_compute in Hfiles; discriminate Hfiles].
  exists r1, dir1. split; [reflexivity |].
  apply (report_cache_is_writable (C := demo) (demo_reporter false false) r1
           {| status_json := Some demo_status; pages := ∅ |} dir1
           [demo_covered; demo_uncovered] demo_checker).
  - intros v [= <-]. reflexivity.
  - vm_compute. reflexivity.
  - exact Hfiles.
Defined.
